(** * media-bridge: the audio mixer, its sources and the command handler

    A shallow embedding of [media_bridge/sources/base.py],
    [sources/spotify.py], [sources/airplay.py], [sources/tv.py],
    [mixer.py], the command handlers of [main.py] (MQTT and CEC) and the
    client of [mqtt_client.py].

    Conventions of the embedding.
    - Python [int] is [Z]; Python [float] (levels in dB, time stamps, the
      ramp position of a slew job) is [Q], with float arithmetic read as
      exact rational arithmetic.
    - A [dict] is a [gmap]; [d.get(k, default)] is [default (d !! k)].
    - The objects of the program (the mixer, its three sources) live in one
      store, the record [Mixer]; a method of a source takes the name under
      which the source is stored and reads and writes the store, so that a
      callback that re-enters the source while one of its methods runs sees
      and changes the same object.
    - Everything a method asks the outside (PulseAudio through [pactl],
      MPRIS, the clock) is answered by an [Env]; the calls it makes to the
      outside and to the state-change callback are appended to a trace of
      [Event]s.
    - One call into the program reads the clock once ([now]) and gets the
      same answers from the outside throughout.
    - Threads interleave at the granularity of the functions below: a call
      into the mixer, or one step of a slew thread ([slew_thread_step]),
      runs without interruption.  Log output of the mixer and the sources
      is not modelled; that of the command handler is. *)

From Stdlib Require Import ZArith QArith Qround Qabs Ascii String List Bool Lia Lqa.
From stdpp Require Import base option gmap strings list.
Import ListNotations.

Local Open Scope Z_scope.
Local Open Scope string_scope.

Set Default Proof Using "Type".

(** ** Python built-ins used by the code *)

(** [max(lo, min(hi, v))] *)
Definition clamp (lo hi v : Z) : Z := Z.max lo (Z.min hi v).

(** [int(x)] on a float: truncation toward zero. *)
Definition py_int_of_float (x : Q) : Z := Z.quot (Qnum x) (Zpos (Qden x)).

(** [round(x)] on a float: to the nearest integer, ties to the even one. *)
Definition py_round (x : Q) : Z :=
  let f := Qfloor x in
  match ((x - inject_Z f) ?= (1 # 2))%Q with
  | Lt => f
  | Gt => f + 1
  | Eq => if Z.even f then f else f + 1
  end.

(** [round(x, 1)]: one decimal place. *)
Definition py_round1 (x : Q) : Q := (inject_Z (py_round (x * 10)) / 10)%Q.

(** Truth value of an optional string ([None] and [""] are false). *)
Definition truthy (o : option string) : bool :=
  match o with
  | Some s => negb (String.eqb s "")
  | None => false
  end.

Definition Qltb (a b : Q) : bool := negb (Qle_bool b a).

(** ** [sources/base.py]: [PlaybackState], [SourceState] *)

Inductive PlaybackState := IDLE | PLAYING | PAUSED.

Definition PlaybackState_eqb (a b : PlaybackState) : bool :=
  match a, b with
  | IDLE, IDLE | PLAYING, PLAYING | PAUSED, PAUSED => true
  | _, _ => false
  end.

(** [PlaybackState.value] *)
Definition state_value (s : PlaybackState) : string :=
  match s with
  | IDLE => "idle"
  | PLAYING => "playing"
  | PAUSED => "paused"
  end.

Record SourceState := mkSourceState {
  name : string;
  state : PlaybackState;
  volume : Z;
  muted : bool;
  level : Z;
  level_db : Q;
  title : string;
  artist : string;
  last_update : Q;
}.

(** The default of the dataclass field [level_db]. *)
Definition level_db_default : Q := (-100)%Q.

(** [SourceState(name=name)]; [time0] is the clock at construction. *)
Definition new_SourceState (n : string) (time0 : Q) : SourceState :=
  {| name := n; state := IDLE; volume := 100; muted := false; level := 0;
     level_db := level_db_default; title := ""; artist := "";
     last_update := time0 |}.

(** Values carried by notifications and dictionaries. *)
Inductive Value :=
| VStr (s : string)
| VInt (z : Z)
| VBool (b : bool)
| VFloat (q : Q).

(** [SourceState.to_dict], in the order the dict literal lists its keys. *)
Definition to_dict (s : SourceState) : list (string * Value) :=
  [ ("name", VStr (name s));
    ("state", VStr (state_value (state s)));
    ("volume", VInt (volume s));
    ("muted", VBool (muted s));
    ("level", VInt (level s));
    ("level_db", VFloat (level_db s));
    ("title", VStr (title s));
    ("artist", VStr (artist s)) ].

(** [d[k]] on such a dict. *)
Fixpoint dict_get (k : string) (d : list (string * Value)) : option Value :=
  match d with
  | [] => None
  | (k', v) :: d' => if String.eqb k k' then Some v else dict_get k d'
  end.

(** The [state] property of [AudioSource]: a new [SourceState] built from
    eight of the nine fields of [self._state]; [level_db] is not passed and
    takes the dataclass default. *)
Definition state_snapshot (s : SourceState) : SourceState :=
  {| name := name s; state := state s; volume := volume s; muted := muted s;
     level := level s; level_db := level_db_default;
     title := title s; artist := artist s; last_update := last_update s |}.

(** Keyword arguments of [_update_state], one constructor per attribute of
    [SourceState] that the sources write. *)
Inductive Field :=
| FState (s : PlaybackState)
| FVolume (v : Z)
| FMuted (b : bool)
| FLevel (l : Z)
| FLevelDb (q : Q)
| FTitle (s : string)
| FArtist (s : string).

Definition field_key (f : Field) : string :=
  match f with
  | FState _ => "state"
  | FVolume _ => "volume"
  | FMuted _ => "muted"
  | FLevel _ => "level"
  | FLevelDb _ => "level_db"
  | FTitle _ => "title"
  | FArtist _ => "artist"
  end.

(** The value handed to [_notify]: [value.value] for an [Enum]. *)
Definition field_value (f : Field) : Value :=
  match f with
  | FState s => VStr (state_value s)
  | FVolume v => VInt v
  | FMuted b => VBool b
  | FLevel l => VInt l
  | FLevelDb q => VFloat q
  | FTitle s => VStr s
  | FArtist s => VStr s
  end.

(** [getattr(self._state, key) != value] *)
Definition field_differs (s : SourceState) (f : Field) : bool :=
  match f with
  | FState x => negb (PlaybackState_eqb (state s) x)
  | FVolume v => negb (Z.eqb (volume s) v)
  | FMuted b => negb (Bool.eqb (muted s) b)
  | FLevel l => negb (Z.eqb (level s) l)
  | FLevelDb q => negb (Qeq_bool (level_db s) q)
  | FTitle x => negb (String.eqb (title s) x)
  | FArtist x => negb (String.eqb (artist s) x)
  end.

(** [setattr(self._state, key, value)] *)
Definition field_set (s : SourceState) (f : Field) : SourceState :=
  match f with
  | FState x => {| name := name s; state := x; volume := volume s; muted := muted s;
                   level := level s; level_db := level_db s; title := title s;
                   artist := artist s; last_update := last_update s |}
  | FVolume v => {| name := name s; state := state s; volume := v; muted := muted s;
                    level := level s; level_db := level_db s; title := title s;
                    artist := artist s; last_update := last_update s |}
  | FMuted b => {| name := name s; state := state s; volume := volume s; muted := b;
                   level := level s; level_db := level_db s; title := title s;
                   artist := artist s; last_update := last_update s |}
  | FLevel l => {| name := name s; state := state s; volume := volume s; muted := muted s;
                   level := l; level_db := level_db s; title := title s;
                   artist := artist s; last_update := last_update s |}
  | FLevelDb q => {| name := name s; state := state s; volume := volume s; muted := muted s;
                     level := level s; level_db := q; title := title s;
                     artist := artist s; last_update := last_update s |}
  | FTitle x => {| name := name s; state := state s; volume := volume s; muted := muted s;
                   level := level s; level_db := level_db s; title := x;
                   artist := artist s; last_update := last_update s |}
  | FArtist x => {| name := name s; state := state s; volume := volume s; muted := muted s;
                    level := level s; level_db := level_db s; title := title s;
                    artist := x; last_update := last_update s |}
  end.

(** [self._state.last_update = time.time()] *)
Definition touch (t : Q) (s : SourceState) : SourceState :=
  {| name := name s; state := state s; volume := volume s; muted := muted s;
     level := level s; level_db := level_db s; title := title s;
     artist := artist s; last_update := t |}.

(** ** The three sources *)

(** The attributes of [TVSource] that its polling step, its meter and its
    setters read and write. *)
Record TVState := mkTVState {
  current_level_db : Q;
  last_sound_time : Q;
  user_muted : bool;
  silence_threshold_db : Q;
  silence_duration : Q;
  auto_mute_enabled : bool;
  silence_muted : bool;
  volume_set_time : Q;
  mute_set_time : Q;
  set_debounce : Q;
}.

(** [TVSource.__init__] with its default arguments. *)
Definition new_TVState : TVState :=
  {| current_level_db := (-100)%Q; last_sound_time := 0%Q; user_muted := false;
     silence_threshold_db := (-50)%Q; silence_duration := 3%Q;
     auto_mute_enabled := true; silence_muted := false;
     volume_set_time := 0%Q; mute_set_time := 0%Q; set_debounce := (1 # 2)%Q |}.

Inductive SourceImpl :=
| SpotifyImpl (last_mpris_volume : Z)
| AirPlayImpl (airplay_volume : Z) (airplay_muted : bool)
| TVImpl (tv : TVState).

(** An [AudioSource] object: the state of the base class and the
    attributes of the subclass. *)
Record Source := mkSource {
  st : SourceState;
  sink_input_id : option string;
  impl : SourceImpl;
}.

Definition with_st (x : SourceState) (s : Source) : Source :=
  {| st := x; sink_input_id := sink_input_id s; impl := impl s |}.
Definition with_sink_input_id (x : option string) (s : Source) : Source :=
  {| st := st s; sink_input_id := x; impl := impl s |}.
Definition with_impl (x : SourceImpl) (s : Source) : Source :=
  {| st := st s; sink_input_id := sink_input_id s; impl := x |}.

Definition with_silence_muted (b : bool) (t : TVState) : TVState :=
  {| current_level_db := current_level_db t; last_sound_time := last_sound_time t;
     user_muted := user_muted t; silence_threshold_db := silence_threshold_db t;
     silence_duration := silence_duration t; auto_mute_enabled := auto_mute_enabled t;
     silence_muted := b; volume_set_time := volume_set_time t;
     mute_set_time := mute_set_time t; set_debounce := set_debounce t |}.
Definition with_user_muted (b : bool) (t : TVState) : TVState :=
  {| current_level_db := current_level_db t; last_sound_time := last_sound_time t;
     user_muted := b; silence_threshold_db := silence_threshold_db t;
     silence_duration := silence_duration t; auto_mute_enabled := auto_mute_enabled t;
     silence_muted := silence_muted t; volume_set_time := volume_set_time t;
     mute_set_time := mute_set_time t; set_debounce := set_debounce t |}.
Definition with_auto_mute_enabled (b : bool) (t : TVState) : TVState :=
  {| current_level_db := current_level_db t; last_sound_time := last_sound_time t;
     user_muted := user_muted t; silence_threshold_db := silence_threshold_db t;
     silence_duration := silence_duration t; auto_mute_enabled := b;
     silence_muted := silence_muted t; volume_set_time := volume_set_time t;
     mute_set_time := mute_set_time t; set_debounce := set_debounce t |}.
Definition with_volume_set_time (q : Q) (t : TVState) : TVState :=
  {| current_level_db := current_level_db t; last_sound_time := last_sound_time t;
     user_muted := user_muted t; silence_threshold_db := silence_threshold_db t;
     silence_duration := silence_duration t; auto_mute_enabled := auto_mute_enabled t;
     silence_muted := silence_muted t; volume_set_time := q;
     mute_set_time := mute_set_time t; set_debounce := set_debounce t |}.
Definition with_mute_set_time (q : Q) (t : TVState) : TVState :=
  {| current_level_db := current_level_db t; last_sound_time := last_sound_time t;
     user_muted := user_muted t; silence_threshold_db := silence_threshold_db t;
     silence_duration := silence_duration t; auto_mute_enabled := auto_mute_enabled t;
     silence_muted := silence_muted t; volume_set_time := volume_set_time t;
     mute_set_time := q; set_debounce := set_debounce t |}.
Definition with_level (db : Q) (snd : Q) (t : TVState) : TVState :=
  {| current_level_db := db; last_sound_time := snd;
     user_muted := user_muted t; silence_threshold_db := silence_threshold_db t;
     silence_duration := silence_duration t; auto_mute_enabled := auto_mute_enabled t;
     silence_muted := silence_muted t; volume_set_time := volume_set_time t;
     mute_set_time := mute_set_time t; set_debounce := set_debounce t |}.
Definition with_silence_threshold_db (q : Q) (t : TVState) : TVState :=
  {| current_level_db := current_level_db t; last_sound_time := last_sound_time t;
     user_muted := user_muted t; silence_threshold_db := q;
     silence_duration := silence_duration t; auto_mute_enabled := auto_mute_enabled t;
     silence_muted := silence_muted t; volume_set_time := volume_set_time t;
     mute_set_time := mute_set_time t; set_debounce := set_debounce t |}.
Definition with_silence_duration (q : Q) (t : TVState) : TVState :=
  {| current_level_db := current_level_db t; last_sound_time := last_sound_time t;
     user_muted := user_muted t; silence_threshold_db := silence_threshold_db t;
     silence_duration := q; auto_mute_enabled := auto_mute_enabled t;
     silence_muted := silence_muted t; volume_set_time := volume_set_time t;
     mute_set_time := mute_set_time t; set_debounce := set_debounce t |}.

(** ** The outside world *)

(** What [_get_sink_input_info] parsed for one sink-input: [id] is always
    there, the other keys only when their line was seen. *)
Record SinkInfo := mkSinkInfo {
  si_id : string;
  si_corked : option bool;
  si_muted : option bool;
  si_volume : option Z;
}.

(** What MPRIS answers to [props.Get]; [None] stands for a [DBusException]. *)
Record Mpris := mkMpris {
  mp_status : string;
  mp_volume : option Q;
  mp_title : string;
  mp_artist : string;
}.

(** The answers of the outside during one call into the program. *)
Record Env := mkEnv {
  now : Q;                                   (* time.time() *)
  pa_find : string -> option string;         (* _find_sink_input(pattern) *)
  pa_info : string -> option SinkInfo;       (* _get_sink_input_info(pattern) *)
  pa_set_volume : string -> Z -> bool;       (* pactl set-sink-input-volume succeeded *)
  pa_set_mute : string -> bool -> bool;      (* pactl set-sink-input-mute succeeded *)
  pa_master : Z -> option Z;                 (* pactl set-sink-volume: return code, None when it raised *)
  mpris_props : option (option Mpris);       (* _get_mpris_props(); inner None: PlaybackStatus raised *)
  mpris_set : bool;                          (* props.Set("Volume") did not raise *)
  mpris_player : option bool;                (* _get_mpris_player(); whether the call did not raise *)
}.

(** Calls that leave the mixer and its sources. *)
Inductive Event :=
| EPublish (source key : string) (value : Value)   (* self._on_state_change(source, key, value) *)
| ESetVolume (source : string) (v : Z)             (* source.set_volume(v) entered *)
| EPaSetVolume (id : string) (v : Z)               (* pactl set-sink-input-volume id v% *)
| EPaSetMute (id : string) (m : bool)              (* pactl set-sink-input-mute id m *)
| EPaMaster (v : Z)                                (* pactl set-sink-volume @DEFAULT_SINK@ v% *)
| EMprisSetVolume (v : Z)                          (* props.Set(..., "Volume", v / 100.0) *)
| EMprisPlayer (verb : string)                     (* player.Play() / Pause() / Stop() *)
| ESleep (seconds : Q)                             (* time.sleep *)
| EThreadStart (source : string).                  (* threading.Thread(target=_slew_thread).start() *)

(** ** [mixer.py]: the state of [AudioMixer] *)

(** An entry of [_slew_state]. *)
Record SlewJob := mkSlewJob {
  target : Z;
  current : Q;
  active : bool;
}.

(** Where a running [_slew_thread] stands: at the head of its loop, or
    between releasing the lock and applying the volume, with its locals
    [new_vol] and [target]. *)
Inductive ThreadPC :=
| AtLoop
| AtApply (new_vol : Q) (tgt : Z).

Record SlewThread := mkSlewThread {
  th_name : string;
  th_pc : ThreadPC;
}.

Record Mixer := mkMixer {
  on_state_change : bool;                (* whether a callback was given *)
  running : bool;
  master_volume : Z;
  default_volumes : gmap string Z;
  reset_on_stop : bool;
  slew_rate : Z;
  was_active : gmap string bool;
  slew_state : gmap string SlewJob;
  sources : gmap string Source;
  threads : list SlewThread;             (* the live slew threads *)
  trace : list Event;
}.

Definition with_running (x : bool) (w : Mixer) : Mixer :=
  {| on_state_change := on_state_change w; running := x; master_volume := master_volume w;
     default_volumes := default_volumes w; reset_on_stop := reset_on_stop w;
     slew_rate := slew_rate w; was_active := was_active w; slew_state := slew_state w;
     sources := sources w; threads := threads w; trace := trace w |}.
Definition with_master_volume (x : Z) (w : Mixer) : Mixer :=
  {| on_state_change := on_state_change w; running := running w; master_volume := x;
     default_volumes := default_volumes w; reset_on_stop := reset_on_stop w;
     slew_rate := slew_rate w; was_active := was_active w; slew_state := slew_state w;
     sources := sources w; threads := threads w; trace := trace w |}.
Definition with_default_volumes (x : gmap string Z) (w : Mixer) : Mixer :=
  {| on_state_change := on_state_change w; running := running w; master_volume := master_volume w;
     default_volumes := x; reset_on_stop := reset_on_stop w;
     slew_rate := slew_rate w; was_active := was_active w; slew_state := slew_state w;
     sources := sources w; threads := threads w; trace := trace w |}.
Definition with_reset_on_stop (x : bool) (w : Mixer) : Mixer :=
  {| on_state_change := on_state_change w; running := running w; master_volume := master_volume w;
     default_volumes := default_volumes w; reset_on_stop := x;
     slew_rate := slew_rate w; was_active := was_active w; slew_state := slew_state w;
     sources := sources w; threads := threads w; trace := trace w |}.
Definition with_slew_rate (x : Z) (w : Mixer) : Mixer :=
  {| on_state_change := on_state_change w; running := running w; master_volume := master_volume w;
     default_volumes := default_volumes w; reset_on_stop := reset_on_stop w;
     slew_rate := x; was_active := was_active w; slew_state := slew_state w;
     sources := sources w; threads := threads w; trace := trace w |}.
Definition with_was_active (x : gmap string bool) (w : Mixer) : Mixer :=
  {| on_state_change := on_state_change w; running := running w; master_volume := master_volume w;
     default_volumes := default_volumes w; reset_on_stop := reset_on_stop w;
     slew_rate := slew_rate w; was_active := x; slew_state := slew_state w;
     sources := sources w; threads := threads w; trace := trace w |}.
Definition with_slew_state (x : gmap string SlewJob) (w : Mixer) : Mixer :=
  {| on_state_change := on_state_change w; running := running w; master_volume := master_volume w;
     default_volumes := default_volumes w; reset_on_stop := reset_on_stop w;
     slew_rate := slew_rate w; was_active := was_active w; slew_state := x;
     sources := sources w; threads := threads w; trace := trace w |}.
Definition with_sources (x : gmap string Source) (w : Mixer) : Mixer :=
  {| on_state_change := on_state_change w; running := running w; master_volume := master_volume w;
     default_volumes := default_volumes w; reset_on_stop := reset_on_stop w;
     slew_rate := slew_rate w; was_active := was_active w; slew_state := slew_state w;
     sources := x; threads := threads w; trace := trace w |}.
Definition with_threads (x : list SlewThread) (w : Mixer) : Mixer :=
  {| on_state_change := on_state_change w; running := running w; master_volume := master_volume w;
     default_volumes := default_volumes w; reset_on_stop := reset_on_stop w;
     slew_rate := slew_rate w; was_active := was_active w; slew_state := slew_state w;
     sources := sources w; threads := x; trace := trace w |}.
Definition with_trace (x : list Event) (w : Mixer) : Mixer :=
  {| on_state_change := on_state_change w; running := running w; master_volume := master_volume w;
     default_volumes := default_volumes w; reset_on_stop := reset_on_stop w;
     slew_rate := slew_rate w; was_active := was_active w; slew_state := slew_state w;
     sources := sources w; threads := threads w; trace := x |}.

(** ** Writing the store and the trace *)

Definition emit (e : Event) (w : Mixer) : Mixer := with_trace (trace w ++ [e])%list w.

(** [if self._on_state_change: self._on_state_change(source, key, value)] *)
Definition publish (source key : string) (value : Value) (w : Mixer) : Mixer :=
  if on_state_change w then emit (EPublish source key value) w else w.

(** An assignment to attributes of the source stored under [n]. *)
Definition alter_source (f : Source -> Source) (n : string) (w : Mixer) : Mixer :=
  with_sources (alter f n (sources w)) w.

Definition alter_tv (f : TVState -> TVState) (n : string) (w : Mixer) : Mixer :=
  alter_source
    (fun s => match impl s with
              | TVImpl t => with_impl (TVImpl (f t)) s
              | _ => s
              end) n w.

(** ** [AudioSource._update_state]

    [notify] is what [self.on_state_change] does.  The source is read
    again from the store for every keyword, as the loop reads
    [self._state] again after each callback. *)
Fixpoint update_fields (notify : string -> string -> Value -> Mixer -> Mixer)
    (n : string) (kwargs : list Field) (changed : bool) (w : Mixer) : Mixer * bool :=
  match kwargs with
  | [] => (w, changed)
  | f :: rest =>
    match sources w !! n with
    | Some s =>
      if field_differs (st s) f then
        let w := alter_source (fun s => with_st (field_set (st s) f) s) n w in
        let w := notify n (field_key f) (field_value f) w in
        update_fields notify n rest true w
      else update_fields notify n rest changed w
    | None => (w, changed)
    end
  end.

Definition update_state_with (notify : string -> string -> Value -> Mixer -> Mixer)
    (env : Env) (n : string) (kwargs : list Field) (w : Mixer) : Mixer :=
  let '(w, changed) := update_fields notify n kwargs false w in
  if changed then alter_source (fun s => with_st (touch (now env) (st s)) s) n w else w.

(** ** [PulseAudioMixin] *)

Definition set_sink_input_volume (env : Env) (id : string) (v : Z) (w : Mixer) : Mixer * bool :=
  let v := clamp 0 100 v in
  (emit (EPaSetVolume id v) w, pa_set_volume env id v).

Definition set_sink_input_mute (env : Env) (id : string) (m : bool) (w : Mixer) : Mixer * bool :=
  (emit (EPaSetMute id m) w, pa_set_mute env id m).

(** [if not self._sink_input_id: self._sink_input_id = self._find_sink_input(pattern)] *)
Definition ensure_sink_input_id (env : Env) (pattern : string) (n : string) (w : Mixer) : Mixer :=
  alter_source
    (fun s => if truthy (sink_input_id s) then s
              else with_sink_input_id (pa_find env pattern) s) n w.

(** [AirPlaySource._find_airplay_sink_input] *)
Definition find_airplay_sink_input (env : Env) : option SinkInfo :=
  match pa_info env "shairport-sync" with
  | Some info => Some info
  | None => pa_info env "shairport"
  end.

(** The AirPlay form of the same refresh:
    [if not self._sink_input_id: info = ...; if info: self._sink_input_id = info.get("id")] *)
Definition ensure_airplay_sink_input_id (env : Env) (n : string) (w : Mixer) : Mixer :=
  alter_source
    (fun s => if truthy (sink_input_id s) then s
              else match find_airplay_sink_input env with
                   | Some info => with_sink_input_id (Some (si_id info)) s
                   | None => s
                   end) n w.

(** ** [set_volume] of the three sources

    Inside [set_volume] the only attribute written through [_update_state]
    is [volume]; the callback of the source is
    [AudioMixer._handle_source_state_change], which for a key other than
    ["state"] only forwards to the mixer's own callback: that is [publish]
    (lemma [handle_other_key] below ties the two). *)

Definition tv_set_volume (env : Env) (n : string) (v : Z) (w : Mixer) : Mixer * bool :=
  let w := ensure_sink_input_id env "gst-launch" n w in
  match sources w !! n with
  | Some s =>
    match sink_input_id s with
    | Some id =>
      if truthy (Some id) then
        let v := clamp 0 100 v in
        let '(w, success) := set_sink_input_volume env id v w in
        if success then
          let w := alter_tv (with_volume_set_time (now env)) n w in
          (update_state_with publish env n [FVolume v] w, true)
        else (w, false)
      else (w, false)
    | None => (w, false)
    end
  | None => (w, false)
  end.

Definition spotify_set_volume (env : Env) (n : string) (v : Z) (w : Mixer) : Mixer * bool :=
  let v := clamp 0 100 v in
  let w := ensure_sink_input_id env "spotifyd" n w in
  match sources w !! n with
  | Some s =>
    let '(w, pa_success) :=
      match sink_input_id s with
      | Some id => if truthy (Some id) then set_sink_input_volume env id v w else (w, false)
      | None => (w, false)
      end in
    let w :=
      match mpris_props env with
      | Some _ =>
        let w := emit (EMprisSetVolume v) w in
        if mpris_set env then
          alter_source (fun s => match impl s with
                                 | SpotifyImpl _ => with_impl (SpotifyImpl v) s
                                 | _ => s
                                 end) n w
        else w
      | None => w
      end in
    if pa_success then (update_state_with publish env n [FVolume v] w, true)
    else (w, false)
  | None => (w, false)
  end.

Definition airplay_set_volume (env : Env) (n : string) (v : Z) (w : Mixer) : Mixer * bool :=
  let v := clamp 0 100 v in
  let w := ensure_airplay_sink_input_id env n w in
  match sources w !! n with
  | Some s =>
    let w :=
      match sink_input_id s with
      | Some id => if truthy (Some id) then fst (set_sink_input_volume env id v w) else w
      | None => w
      end in
    (* both exits of the method assign [_airplay_volume], update the state
       and return True *)
    let w := alter_source (fun s => match impl s with
                                    | AirPlayImpl _ m => with_impl (AirPlayImpl v m) s
                                    | _ => s
                                    end) n w in
    (update_state_with publish env n [FVolume v] w, true)
  | None => (w, false)
  end.

(** [source.set_volume(v)], dispatched on the class of the source. *)
Definition set_volume (env : Env) (n : string) (v : Z) (w : Mixer) : Mixer * bool :=
  match sources w !! n with
  | Some s =>
    let w := emit (ESetVolume n v) w in
    match impl s with
    | SpotifyImpl _ => spotify_set_volume env n v w
    | AirPlayImpl _ _ => airplay_set_volume env n v w
    | TVImpl _ => tv_set_volume env n v w
    end
  | None => (w, false)
  end.

(** [source.get_volume()] *)
Definition get_volume (n : string) (w : Mixer) : option Z :=
  (fun s => volume (st s)) <$> sources w !! n.

(** [source.get_muted()] *)
Definition get_muted (n : string) (w : Mixer) : option bool :=
  (fun s => muted (st s)) <$> sources w !! n.

(** ** [set_muted] of the three sources *)

Definition tv_set_muted (env : Env) (n : string) (m : bool) (w : Mixer) : Mixer * bool :=
  let w := ensure_sink_input_id env "gst-launch" n w in
  match sources w !! n with
  | Some s =>
    match sink_input_id s with
    | Some id =>
      if truthy (Some id) then
        let w := alter_tv (with_user_muted m) n w in
        let '(w, success) := set_sink_input_mute env id m w in
        if success then
          let w := alter_tv (with_mute_set_time (now env)) n w in
          (update_state_with publish env n [FMuted m] w, true)
        else (w, false)
      else (w, false)
    | None => (w, false)
    end
  | None => (w, false)
  end.

Definition spotify_set_muted (env : Env) (n : string) (m : bool) (w : Mixer) : Mixer * bool :=
  let w := alter_source (with_sink_input_id (pa_find env "spotifyd")) n w in
  match sources w !! n with
  | Some s =>
    match sink_input_id s with
    | Some id =>
      if truthy (Some id) then
        let '(w, success) := set_sink_input_mute env id m w in
        if success then (update_state_with publish env n [FMuted m] w, true)
        else (w, false)
      else (w, false)
    | None => (w, false)
    end
  | None => (w, false)
  end.

Definition airplay_set_muted (env : Env) (n : string) (m : bool) (w : Mixer) : Mixer * bool :=
  let w :=
    match find_airplay_sink_input env with
    | Some info => alter_source (with_sink_input_id (Some (si_id info))) n w
    | None => w
    end in
  match sources w !! n with
  | Some s =>
    match sink_input_id s with
    | Some id =>
      if truthy (Some id) then
        let '(w, success) := set_sink_input_mute env id m w in
        if success then (update_state_with publish env n [FMuted m] w, true)
        else (w, false)
      else (w, false)
    | None => (w, false)
    end
  | None => (w, false)
  end.

Definition set_muted (env : Env) (n : string) (m : bool) (w : Mixer) : Mixer * bool :=
  match sources w !! n with
  | Some s =>
    match impl s with
    | SpotifyImpl _ => spotify_set_muted env n m w
    | AirPlayImpl _ _ => airplay_set_muted env n m w
    | TVImpl _ => tv_set_muted env n m w
    end
  | None => (w, false)
  end.

(** [AudioSource.toggle_mute] *)
Definition toggle_mute (env : Env) (n : string) (w : Mixer) : Mixer * bool :=
  match get_muted n w with
  | Some m => set_muted env n (negb m) w
  | None => (w, false)
  end.

(** [play], [pause], [stop_playback]: only Spotify overrides them with an
    MPRIS call; the television and AirPlay return False. *)
Definition playback (verb : string) (env : Env) (n : string) (w : Mixer) : Mixer * bool :=
  match sources w !! n with
  | Some s =>
    match impl s with
    | SpotifyImpl _ =>
      match mpris_player env with
      | Some ok => (emit (EMprisPlayer verb) w, ok)
      | None => (w, false)
      end
    | _ => (w, false)
    end
  | None => (w, false)
  end.

(** ** [mixer.py]: [AudioMixer] *)

Definition deactivate (j : SlewJob) : SlewJob :=
  {| target := target j; current := current j; active := false |}.

Definition retarget (t : Z) (j : SlewJob) : SlewJob :=
  {| target := t; current := current j; active := active j |}.

Definition advance (c : Q) (j : SlewJob) : SlewJob :=
  {| target := target j; current := c; active := active j |}.

(** [AudioMixer.stop_slew] *)
Definition stop_slew (source_name : string) (w : Mixer) : Mixer :=
  with_slew_state (alter deactivate source_name (slew_state w)) w.

(** [value in ("playing",)] *)
Definition is_playing (value : Value) : bool :=
  match value with
  | VStr s => String.eqb s "playing"
  | _ => false
  end.

(** [src.set_volume(default_vol)] followed by the notification of the
    volume, as both edges of [_handle_source_state_change] do it. *)
Definition apply_default (env : Env) (source : string) (w : Mixer) : Mixer :=
  let default_vol := default 15 (default_volumes w !! source) in
  let w := fst (set_volume env source default_vol w) in
  publish source "volume" (VInt default_vol) w.

(** [AudioMixer._handle_source_state_change] *)
Definition handle_source_state_change (env : Env) (source key : string) (value : Value)
    (w : Mixer) : Mixer :=
  let w :=
    if String.eqb key "state" then
      let is_active := is_playing value in
      let was := default false (was_active w !! source) in
      let w :=
        if is_active && negb was then
          match sources w !! source with
          | Some _ => apply_default env source (emit (ESleep (3 # 10)%Q) w)
          | None => w
          end
        else if was && negb is_active then
          let w := stop_slew source w in
          if reset_on_stop w then
            match sources w !! source with
            | Some _ => apply_default env source w
            | None => w
            end
          else w
        else w in
      with_was_active (<[source := is_active]> (was_active w)) w
    else w in
  publish source key value w.

(** [_update_state] as the sources of a mixer run it: their callback is
    the mixer's handler. *)
Definition update_state (env : Env) (n : string) (kwargs : list Field) (w : Mixer) : Mixer :=
  update_state_with (handle_source_state_change env) env n kwargs w.

(** [AudioSource._notify] for a key that is not an attribute of the state. *)
Definition notify (env : Env) (n key : string) (value : Value) (w : Mixer) : Mixer :=
  handle_source_state_change env n key value w.

(** [AudioMixer._handle_external_volume] *)
Definition handle_external_volume (source : string) (vol : Z) (w : Mixer) : Mixer :=
  let w := stop_slew source w in
  publish source "volume" (VInt vol) w.

(** [AudioMixer._start_slew]; creating the job and starting its thread is
    one step. *)
Definition start_slew (source_name : string) (tgt : Z) (w : Mixer) : Mixer :=
  match sources w !! source_name with
  | None => w
  | Some s =>
    let current_vol := volume (st s) in
    if Z.eqb current_vol tgt then w
    else
      match slew_state w !! source_name with
      | Some j => with_slew_state (<[source_name := retarget tgt j]> (slew_state w)) w
      | None =>
        let j := {| target := tgt; current := inject_Z current_vol; active := true |} in
        let w := with_slew_state (<[source_name := j]> (slew_state w)) w in
        let w := with_threads (threads w ++ [mkSlewThread source_name AtLoop])%list w in
        emit (EThreadStart source_name) w
      end
  end.

(** [AudioMixer.set_source_volume] *)
Definition set_source_volume (env : Env) (source_name : string) (vol : Z) (use_slew : bool)
    (w : Mixer) : Mixer * bool :=
  match sources w !! source_name with
  | None => (w, false)
  | Some _ =>
    let vol := clamp 0 100 vol in
    if negb use_slew || Z.leb (slew_rate w) 0 then set_volume env source_name vol w
    else (start_slew source_name vol w, true)
  end.

(** [step_interval] and [step_size] of [_slew_thread]. *)
Definition step_interval : Q := (5 # 100)%Q.
Definition step_size (w : Mixer) : Q := (inject_Z (slew_rate w) * step_interval)%Q.

(** [min(target, x)] and [max(target, x)] with an integer target. *)
Definition min_target (t : Z) (x : Q) : Q := if Qle_bool (inject_Z t) x then inject_Z t else x.
Definition max_target (t : Z) (x : Q) : Q := if Qle_bool x (inject_Z t) then inject_Z t else x.

Definition remove_thread (i : nat) (w : Mixer) : Mixer :=
  with_threads (delete i (threads w)) w.

Definition set_thread_pc (i : nat) (pc : ThreadPC) (w : Mixer) : Mixer :=
  with_threads (alter (fun th => mkSlewThread (th_name th) pc) i (threads w)) w.

(** One step of the [i]-th live [_slew_thread]: the part of an iteration
    under the lock, or the part outside it. *)
Definition slew_thread_step (env : Env) (i : nat) (w : Mixer) : Mixer :=
  match threads w !! i with
  | None => w
  | Some th =>
    let n := th_name th in
    match th_pc th with
    | AtLoop =>
      if negb (running w) then remove_thread i w
      else
        match slew_state w !! n with
        | None => remove_thread i w
        | Some j =>
          if negb (active j) then remove_thread i w
          else
            let tgt := target j in
            let cur := current j in
            if Qltb cur (inject_Z tgt) then
              let new_vol := min_target tgt (cur + step_size w)%Q in
              set_thread_pc i (AtApply new_vol tgt)
                (with_slew_state (<[n := advance new_vol j]> (slew_state w)) w)
            else if Qltb (inject_Z tgt) cur then
              let new_vol := max_target tgt (cur - step_size w)%Q in
              set_thread_pc i (AtApply new_vol tgt)
                (with_slew_state (<[n := advance new_vol j]> (slew_state w)) w)
            else
              remove_thread i (with_slew_state (delete n (slew_state w)) w)
        end
    | AtApply new_vol tgt =>
      let int_vol := py_round new_vol in
      let w := fst (set_volume env n int_vol w) in
      let w := publish n "volume" (VInt int_vol) w in
      if Qltb (Qabs (new_vol - inject_Z tgt)) (1 # 2)%Q then
        remove_thread i (with_slew_state (delete n (slew_state w)) w)
      else
        set_thread_pc i AtLoop (emit (ESleep step_interval) w)
    end
  end.

(** [AudioMixer.stop], without the [stop()] of the sources. *)
Definition mixer_stop (w : Mixer) : Mixer :=
  with_slew_state ∅ (with_running false w).

(** [AudioMixer.get_all_states] *)
Definition get_all_states (w : Mixer) : gmap string (list (string * Value)) :=
  (fun s => to_dict (state_snapshot (st s))) <$> sources w.

(** [AudioMixer.get_active_sources], as a set of names. *)
Definition is_active (s : Source) : bool := PlaybackState_eqb (state (st s)) PLAYING.

(** [set_source_mute], [toggle_source_mute], [source_play], [source_pause],
    [source_stop]: look the source up, then delegate. *)
Definition set_source_mute (env : Env) (source_name : string) (m : bool) (w : Mixer) : Mixer * bool :=
  match sources w !! source_name with
  | None => (w, false)
  | Some _ => set_muted env source_name m w
  end.

Definition toggle_source_mute (env : Env) (source_name : string) (w : Mixer) : Mixer * bool :=
  match sources w !! source_name with
  | None => (w, false)
  | Some _ => toggle_mute env source_name w
  end.

Definition source_playback (verb : string) (env : Env) (source_name : string) (w : Mixer)
    : Mixer * bool :=
  match sources w !! source_name with
  | None => (w, false)
  | Some _ => playback verb env source_name w
  end.

(** [AudioMixer.get_master_volume] *)
Definition get_master_volume (w : Mixer) : Z := master_volume w.

(** [AudioMixer.set_master_volume] *)
Definition set_master_volume (env : Env) (vol : Z) (w : Mixer) : Mixer * bool :=
  let vol := clamp 0 100 vol in
  let w := with_master_volume vol w in
  let w := emit (EPaMaster vol) w in
  match pa_master env vol with
  | Some rc =>
    if Z.eqb rc 0 then (publish "master" "volume" (VInt vol) w, true)
    else (w, false)
  | None => (w, false)
  end.

(** [AudioMixer.set_default_volume] *)
Definition set_default_volume (source_name : string) (vol : Z) (w : Mixer) : Mixer * bool :=
  if negb (bool_decide (is_Some (sources w !! source_name))) && negb (String.eqb source_name "all")
  then (w, false)
  else
    let vol := clamp 0 100 vol in
    let w :=
      if String.eqb source_name "all"
      then with_default_volumes (((fun _ => vol) <$> sources w) ∪ default_volumes w) w
      else with_default_volumes (<[source_name := vol]> (default_volumes w)) w in
    (publish source_name "default_volume" (VInt vol) w, true).

(** [AudioMixer.set_reset_on_stop] *)
Definition set_reset_on_stop (enabled : bool) (w : Mixer) : Mixer * bool :=
  (publish "master" "reset_on_stop" (VBool enabled) (with_reset_on_stop enabled w), true).

(** [AudioMixer.set_slew_rate] *)
Definition set_slew_rate (rate : Z) (w : Mixer) : Mixer * bool :=
  let w := with_slew_rate (Z.max 0 rate) w in
  (publish "master" "slew_rate" (VInt (slew_rate w)) w, true).

(** ** [sources/tv.py]: the metering loop and the polling step *)

(** One iteration of [_level_meter_loop] whose window has the RMS level
    [db] (the value of [_calculate_rms_db]). *)
Definition meter_step (env : Env) (db : Q) (n : string) (w : Mixer) : Mixer :=
  alter_tv
    (fun t => with_level db
                (if Qltb (silence_threshold_db t) db then now env else last_sound_time t) t)
    n w.

(** The three-way decision of [_poll_state] on silence. *)
Inductive Silence := Sound | BriefSilence | SustainedSilence.

Definition silence_of (env : Env) (t : TVState) : Silence :=
  let time_since_sound := (now env - last_sound_time t)%Q in
  let is_silent := Qle_bool (current_level_db t) (silence_threshold_db t) in
  let silence_exceeded := Qle_bool (silence_duration t) time_since_sound in
  if negb is_silent then Sound
  else if negb silence_exceeded then BriefSilence
  else SustainedSilence.

(** [max(0, min(100, int((self._current_level_db + 50) * 2)))] *)
Definition level_of_db (db : Q) : Z := clamp 0 100 (py_int_of_float ((db + 50) * 2)%Q).

(** [TVSource._poll_state] *)
Definition tv_poll_state (env : Env) (n : string) (w : Mixer) : Mixer :=
  let w := alter_source (with_sink_input_id (pa_find env "gst-launch")) n w in
  match sources w !! n with
  | Some s =>
    match impl s with
    | TVImpl t =>
      match sink_input_id s with
      | Some id =>
        if truthy (Some id) then
          match pa_info env "gst-launch" with
          | Some info =>
            let vol :=
              if Qltb (set_debounce t) (now env - volume_set_time t)%Q
              then default 100 (si_volume info)
              else volume (st s) in
            let '(state, silence_muted', w) :=
              match silence_of env t with
              | Sound =>
                if auto_mute_enabled t && silence_muted t then
                  let w := fst (set_sink_input_mute env id (user_muted t) w) in
                  (PLAYING, false, alter_tv (with_silence_muted false) n w)
                else (PLAYING, silence_muted t, w)
              | BriefSilence => (PLAYING, silence_muted t, w)
              | SustainedSilence =>
                if auto_mute_enabled t && negb (silence_muted t) && negb (user_muted t) then
                  let w := fst (set_sink_input_mute env id true w) in
                  (IDLE, true, alter_tv (with_silence_muted true) n w)
                else (IDLE, silence_muted t, w)
              end in
            let mute :=
              if Qltb (set_debounce t) (now env - mute_set_time t)%Q
              then default false (si_muted info) || user_muted t || silence_muted'
              else muted (st s) in
            let lvl := if mute then 0 else level_of_db (current_level_db t) in
            let lvl_db := py_round1 (current_level_db t) in
            update_state env n
              [FState state; FVolume vol; FMuted mute; FLevel lvl; FLevelDb lvl_db] w
          | None => w
          end
        else
          if negb (PlaybackState_eqb (state (st s)) IDLE)
          then update_state env n [FState IDLE; FLevel 0] w
          else w
      | None =>
        if negb (PlaybackState_eqb (state (st s)) IDLE)
        then update_state env n [FState IDLE; FLevel 0] w
        else w
      end
    | _ => w
    end
  | None => w
  end.

(** [TVSource.set_silence_threshold] *)
Definition tv_set_silence_threshold (env : Env) (threshold_db : Z) (n : string) (w : Mixer)
    : Mixer * bool :=
  let threshold_db := Z.max (-80) (Z.min (-20) threshold_db) in
  let w := alter_tv (with_silence_threshold_db (inject_Z threshold_db)) n w in
  (notify env n "silence_threshold" (VInt threshold_db) w, true).

(** [TVSource.set_silence_duration] *)
Definition tv_set_silence_duration (env : Env) (duration : Q) (n : string) (w : Mixer)
    : Mixer * bool :=
  let duration := (if Qle_bool 30 duration then 30 else duration)%Q in
  let duration := if Qle_bool duration (1 # 2) then (1 # 2)%Q else duration in
  let w := alter_tv (with_silence_duration duration) n w in
  (notify env n "silence_duration" (VFloat duration) w, true).

(** [TVSource.set_auto_mute] *)
Definition tv_set_auto_mute (env : Env) (enabled : bool) (n : string) (w : Mixer)
    : Mixer * bool :=
  let w := alter_tv (with_auto_mute_enabled enabled) n w in
  let w := notify env n "auto_mute" (VBool enabled) w in
  match sources w !! n with
  | Some s =>
    match impl s, sink_input_id s with
    | TVImpl t, Some id =>
      if negb enabled && silence_muted t && truthy (Some id) then
        let w := fst (set_sink_input_mute env id (user_muted t) w) in
        (alter_tv (with_silence_muted false) n w, true)
      else (w, true)
    | _, _ => (w, true)
    end
  | None => (w, true)
  end.

(** The mixer's wrappers: [tv = self._sources.get("tv")] and a [hasattr]
    test that holds for a [TVSource] only. *)
Definition is_tv (w : Mixer) : bool :=
  match sources w !! "tv" with
  | Some s => match impl s with TVImpl _ => true | _ => false end
  | None => false
  end.

Definition set_tv_silence_threshold (env : Env) (threshold_db : Z) (w : Mixer) : Mixer * bool :=
  if is_tv w then tv_set_silence_threshold env threshold_db "tv" w else (w, false).

Definition set_tv_silence_duration (env : Env) (duration : Q) (w : Mixer) : Mixer * bool :=
  if is_tv w then tv_set_silence_duration env duration "tv" w else (w, false).

Definition set_tv_auto_mute (env : Env) (enabled : bool) (w : Mixer) : Mixer * bool :=
  if is_tv w then tv_set_auto_mute env enabled "tv" w else (w, false).

(** ** [sources/spotify.py]: the polling step *)

(** [SpotifySource._sync_volume_to_pulseaudio] *)
Definition spotify_sync_volume (env : Env) (n : string) (v : Z) (w : Mixer) : Mixer :=
  let w := ensure_sink_input_id env "spotifyd" n w in
  match sources w !! n with
  | Some s =>
    match sink_input_id s with
    | Some id => if truthy (Some id) then fst (set_sink_input_volume env id v w) else w
    | None => w
    end
  | None => w
  end.

Definition set_last_mpris_volume (v : Z) (n : string) (w : Mixer) : Mixer :=
  alter_source (fun s => match impl s with
                         | SpotifyImpl _ => with_impl (SpotifyImpl v) s
                         | _ => s
                         end) n w.

(** [SpotifySource._poll_state] *)
Definition spotify_poll_state (env : Env) (n : string) (w : Mixer) : Mixer :=
  let w := alter_source (with_sink_input_id (pa_find env "spotifyd")) n w in
  match sources w !! n with
  | Some s =>
    match impl s with
    | SpotifyImpl last_mpris_volume =>
      let info :=
        if truthy (sink_input_id s) then pa_info env "spotifyd" else None in
      let vol := match info with
                 | Some i => default 100 (si_volume i)
                 | None => volume (st s)
                 end in
      let mute := match info with
                  | Some i => default false (si_muted i)
                  | None => false
                  end in
      let sink_active := match info with
                         | Some i => negb (default true (si_corked i))
                         | None => false
                         end in
      let '(state, vol, ttl, art, w) :=
        match mpris_props env with
        | Some (Some m) =>
          let state := if String.eqb (mp_status m) "Playing" then PLAYING
                       else if String.eqb (mp_status m) "Paused" then PAUSED
                       else IDLE in
          let '(vol, w) :=
            match mp_volume m with
            | Some mpris_vol =>
              let mpris_volume := py_int_of_float (mpris_vol * 100)%Q in
              let '(vol, w) :=
                if Z.leb 0 last_mpris_volume && negb (Z.eqb mpris_volume last_mpris_volume) then
                  let w := spotify_sync_volume env n mpris_volume w in
                  (mpris_volume, handle_external_volume n mpris_volume w)
                else (vol, w) in
              (vol, set_last_mpris_volume mpris_volume n w)
            | None => (vol, w)
            end in
          (state, vol, mp_title m, mp_artist m, w)
        | _ => (IDLE, vol, "", "", w)
        end in
      let state := if PlaybackState_eqb state IDLE && sink_active then PLAYING else state in
      update_state env n [FState state; FVolume vol; FMuted mute; FTitle ttl; FArtist art] w
    | _ => w
    end
  | None => w
  end.

(** ** [sources/airplay.py]: the polling step and the volume item of the
    metadata pipe *)

(** [AirPlaySource._poll_state] *)
Definition airplay_poll_state (env : Env) (n : string) (w : Mixer) : Mixer :=
  match sources w !! n with
  | Some s =>
    match impl s with
    | AirPlayImpl airplay_volume _ =>
      match find_airplay_sink_input env with
      | None =>
        let w := if negb (PlaybackState_eqb (state (st s)) IDLE)
                 then update_state env n [FState IDLE; FLevel 0] w else w in
        alter_source (with_sink_input_id None) n w
      | Some info =>
        let w := alter_source (with_sink_input_id (Some (si_id info))) n w in
        let state := if default false (si_corked info) then PAUSED else PLAYING in
        let vol := default airplay_volume (si_volume info) in
        let mute := default false (si_muted info) in
        update_state env n [FState state; FVolume vol; FMuted mute] w
      end
    | _ => w
    end
  | None => w
  end.

(** The branch of [_process_metadata_xml] for an [ssnc]/[pvol] item whose
    first number is [airplay_vol]. *)
Definition airplay_process_pvol (env : Env) (airplay_vol : Q) (n : string) (w : Mixer) : Mixer :=
  let '(vol, mute) :=
    if Qle_bool airplay_vol (-144) then (0, true)
    else (clamp 0 100 (py_int_of_float ((airplay_vol + 30) * 100 / 30)%Q), false) in
  let w := alter_source (fun s => match impl s with
                                  | AirPlayImpl _ _ => with_impl (AirPlayImpl vol mute) s
                                  | _ => s
                                  end) n w in
  let w := ensure_airplay_sink_input_id env n w in
  let w :=
    match sources w !! n with
    | Some s =>
      match sink_input_id s with
      | Some id => if truthy (Some id) then fst (set_sink_input_volume env id vol w) else w
      | None => w
      end
    | None => w
    end in
  handle_external_volume n vol w.

(** ** [main.py]: the command handler of [MediaBridge] *)

(** [s.startswith(p)], [s.endswith(x)] and the slice [s[i:-j]]. *)
Definition startswith (s p : string) : bool := String.prefix p s.

Definition endswith (s x : string) : bool :=
  let ls := String.length s in
  let lx := String.length x in
  Nat.leb lx ls && String.eqb (substring (ls - lx) lx s) x.

Definition slice (i j : nat) (s : string) : string :=
  substring i (String.length s - j - i) s.

(** [s.lower()] on ASCII text. *)
Definition lower_ascii (c : Ascii.ascii) : Ascii.ascii :=
  let k := Ascii.nat_of_ascii c in
  if Nat.leb 65 k && Nat.leb k 90 then Ascii.ascii_of_nat (k + 32) else c.

Fixpoint lower (s : string) : string :=
  match s with
  | EmptyString => EmptyString
  | String c s' => String (lower_ascii c) (lower s')
  end.

(** [payload.lower() in ("true", "1", "yes", "on")] *)
Definition payload_flag (payload : string) : bool :=
  let p := lower payload in
  String.eqb p "true" || String.eqb p "1" || String.eqb p "yes" || String.eqb p "on".

(** What the handler writes to its logger. *)
Inductive LogEntry :=
| LogProcessing (command payload : string)
| LogRateLimited (source : string)
| LogUnknownCommand (command : string)
| LogInvalidPayload (command payload : string).

Record Bridge := mkBridge {
  last_volume_cmd : gmap string Q;
  volume_cmd_cooldown : Q;
  cec : option (list string);       (* the CEC listener, as the calls made to it *)
  mixer : option Mixer;
  log : list LogEntry;
}.

(** [MediaBridge.__init__] *)
Definition new_Bridge : Bridge :=
  {| last_volume_cmd := ∅; volume_cmd_cooldown := (2 # 10)%Q; cec := None;
     mixer := None; log := [] |}.

Definition with_last_volume_cmd (x : gmap string Q) (b : Bridge) : Bridge :=
  {| last_volume_cmd := x; volume_cmd_cooldown := volume_cmd_cooldown b; cec := cec b;
     mixer := mixer b; log := log b |}.
Definition with_cec (x : option (list string)) (b : Bridge) : Bridge :=
  {| last_volume_cmd := last_volume_cmd b; volume_cmd_cooldown := volume_cmd_cooldown b;
     cec := x; mixer := mixer b; log := log b |}.
Definition with_mixer (x : option Mixer) (b : Bridge) : Bridge :=
  {| last_volume_cmd := last_volume_cmd b; volume_cmd_cooldown := volume_cmd_cooldown b;
     cec := cec b; mixer := x; log := log b |}.
Definition with_log (x : list LogEntry) (b : Bridge) : Bridge :=
  {| last_volume_cmd := last_volume_cmd b; volume_cmd_cooldown := volume_cmd_cooldown b;
     cec := cec b; mixer := mixer b; log := x |}.

Definition add_log (e : LogEntry) (b : Bridge) : Bridge := with_log (log b ++ [e])%list b.

(** [if self._cec: self._cec.<call>()] *)
Definition cec_call (call : string) (b : Bridge) : Bridge :=
  match cec b with
  | Some calls => with_cec (Some (calls ++ [call])%list) b
  | None => b
  end.

(** [if self._mixer: self._mixer.<method>(...)]; the result is dropped. *)
Definition mixer_call (f : Mixer -> Mixer * bool) (b : Bridge) : Bridge :=
  match mixer b with
  | Some m => with_mixer (Some (fst (f m))) b
  | None => b
  end.

Section CommandHandler.

(** The built-ins [int(str)] and [float(str)]; [None] is a [ValueError]. *)
Variable py_int : string -> option Z.
Variable py_float : string -> option Q.

(** A branch that converts the payload first: a [ValueError] leaves the
    [try] block before anything else of the branch has run. *)
Definition with_int (command payload : string) (k : Z -> Bridge -> Bridge) (b : Bridge)
    : Bridge :=
  match py_int payload with
  | Some z => k z b
  | None => add_log (LogInvalidPayload command payload) b
  end.

Definition with_float (command payload : string) (k : Q -> Bridge -> Bridge) (b : Bridge)
    : Bridge :=
  match py_float payload with
  | Some q => k q b
  | None => add_log (LogInvalidPayload command payload) b
  end.

(** The rate-limited branch for [source_<name>_set_volume]. *)
Definition volume_command (env : Env) (source : string) (vol : Z) (b : Bridge) : Bridge :=
  let last_cmd := default 0%Q (last_volume_cmd b !! source) in
  if Qltb (now env - last_cmd)%Q (volume_cmd_cooldown b)
  then add_log (LogRateLimited source) b
  else
    let b := with_last_volume_cmd (<[source := now env]> (last_volume_cmd b)) b in
    mixer_call (set_source_volume env source vol true) b.

(** [MediaBridge._on_mqtt_command] *)
Definition on_mqtt_command (env : Env) (command payload : string) (b : Bridge) : Bridge :=
  let b := add_log (LogProcessing command payload) b in
  let is_source := startswith command "source_" in
  if String.eqb command "tv_power_on" then cec_call "power_on_tv" b
  else if String.eqb command "tv_power_off" then cec_call "standby_tv" b
  else if is_source && endswith command "_set_volume" then
    with_int command payload (volume_command env (slice 7 11 command)) b
  else if is_source && endswith command "_set_mute" then
    mixer_call (set_source_mute env (slice 7 9 command) (payload_flag payload)) b
  else if is_source && endswith command "_mute" then
    mixer_call (toggle_source_mute env (slice 7 5 command)) b
  else if is_source && endswith command "_play" then
    mixer_call (source_playback "Play" env (slice 7 5 command)) b
  else if is_source && endswith command "_pause" then
    mixer_call (source_playback "Pause" env (slice 7 6 command)) b
  else if is_source && endswith command "_stop" then
    mixer_call (source_playback "Stop" env (slice 7 5 command)) b
  else if String.eqb command "tv_set_silence_threshold" then
    with_int command payload (fun z => mixer_call (set_tv_silence_threshold env z)) b
  else if String.eqb command "tv_set_silence_duration" then
    with_float command payload (fun q => mixer_call (set_tv_silence_duration env q)) b
  else if String.eqb command "tv_set_auto_mute" then
    mixer_call (set_tv_auto_mute env (payload_flag payload)) b
  else if String.eqb command "set_master_volume" then
    with_int command payload (fun z => mixer_call (set_master_volume env z)) b
  else if is_source && endswith command "_set_default_volume" then
    with_int command payload
      (fun z => mixer_call (set_default_volume (slice 7 19 command) z)) b
  else if String.eqb command "set_reset_on_stop" then
    mixer_call (set_reset_on_stop (payload_flag payload)) b
  else if String.eqb command "set_slew_rate" then
    with_int command payload (fun z => mixer_call (set_slew_rate z)) b
  else add_log (LogUnknownCommand command) b.

End CommandHandler.

(** A reading of decimal integers for examples: an optional sign and
    ASCII digits. *)
Fixpoint digits (s : string) (acc : Z) : option Z :=
  match s with
  | EmptyString => Some acc
  | String c s' =>
    let k := Ascii.nat_of_ascii c in
    if Nat.leb 48 k && Nat.leb k 57 then digits s' (10 * acc + Z.of_nat (k - 48)) else None
  end.

Definition decimal (s : string) : option Z :=
  match s with
  | EmptyString => None
  | String "-"%char (String c s') => Z.opp <$> digits (String c s') 0
  | String c s' => digits (String c s') 0
  end.

Definition decimal_float (s : string) : option Q := inject_Z <$> decimal s.

(** ** Construction *)

Definition new_Source (n : string) (i : SourceImpl) (time0 : Q) : Source :=
  {| st := new_SourceState n time0; sink_input_id := None; impl := i |}.

Definition default_default_volumes : gmap string Z :=
  <["spotify" := 15]> (<["airplay" := 15]> (<["tv" := 15]> ∅)).

(** [AudioMixer.__init__]: [callback] tells whether [on_state_change] was
    given, [defaults] is the argument [default_volumes]. *)
Definition new_Mixer (callback : bool) (master : Z) (defaults : option (gmap string Z))
    (reset : bool) (rate : Z) (time0 : Q) : Mixer :=
  {| on_state_change := callback;
     running := false;
     master_volume := clamp 0 100 master;
     default_volumes :=
       match defaults with
       | Some d => if bool_decide (d = ∅) then default_default_volumes else d
       | None => default_default_volumes
       end;
     reset_on_stop := reset;
     slew_rate := Z.max 0 rate;
     was_active := <["spotify" := false]> (<["airplay" := false]> (<["tv" := false]> ∅));
     slew_state := ∅;
     sources :=
       <["spotify" := new_Source "spotify" (SpotifyImpl (-1)) time0]>
         (<["airplay" := new_Source "airplay" (AirPlayImpl 0 false) time0]>
            (<["tv" := new_Source "tv" (TVImpl new_TVState) time0]> ∅));
     threads := [];
     trace := [] |}.

(** [AudioMixer.start], without starting the threads of the sources. *)
Definition mixer_start (w : Mixer) : Mixer := with_running true w.

(** ** Schedules of calls into the mixer *)

(** A call into the mixer from one of the threads of the program: the
    command thread ([set_source_volume]), a slew thread (one step of it),
    a source thread (a notification, or an external volume change). *)
Inductive Op :=
| OpSetSourceVolume (source : string) (vol : Z) (use_slew : bool)
| OpThreadStep (i : nat)
| OpExternalVolume (source : string) (vol : Z)
| OpNotify (source key : string) (value : Value).

Definition run_op (w : Mixer) (eo : Env * Op) : Mixer :=
  match snd eo with
  | OpSetSourceVolume n v s => fst (set_source_volume (fst eo) n v s w)
  | OpThreadStep i => slew_thread_step (fst eo) i w
  | OpExternalVolume n v => handle_external_volume n v w
  | OpNotify n k v => handle_source_state_change (fst eo) n k v w
  end.

Definition run (sched : list (Env * Op)) (w : Mixer) : Mixer := fold_left run_op sched w.

(** The live slew threads of a source. *)
Definition threads_of (n : string) (w : Mixer) : list SlewThread :=
  List.filter (fun th => String.eqb (th_name th) n) (threads w).

(** ** Reading the trace *)

Definition is_set_volume_of (n : string) (e : Event) : bool :=
  match e with
  | ESetVolume s _ => String.eqb s n
  | _ => false
  end.

Definition is_mute_call (e : Event) : bool :=
  match e with
  | EPaSetMute _ _ => true
  | _ => false
  end.

(** The calls of [source.set_volume] for [n], and the calls of
    [pactl set-sink-input-mute], in the order they were made. *)
Definition set_volume_calls (n : string) (w : Mixer) : list Event :=
  List.filter (is_set_volume_of n) (trace w).

Definition mute_calls (w : Mixer) : list Event := List.filter is_mute_call (trace w).



(** ** Level traces of the television *)

(** What reaches the television controller: a window of samples with its
    RMS level, read by the metering loop, or a run of the polling step. *)
Inductive TVInput :=
| Window (db : Q)
| Poll.

Definition tv_step (w : Mixer) (ei : Env * TVInput) : Mixer :=
  match snd ei with
  | Window db => meter_step (fst ei) db "tv" w
  | Poll => tv_poll_state (fst ei) "tv" w
  end.

Definition reported_state (w : Mixer) : option PlaybackState :=
  (fun s => state (st s)) <$> sources w !! "tv".

(** Runs the inputs in order; also returns the playback state reported
    after each polling step. *)
Fixpoint tv_run (inputs : list (Env * TVInput)) (w : Mixer)
    : Mixer * list (option PlaybackState) :=
  match inputs with
  | [] => (w, [])
  | ei :: rest =>
    let w := tv_step w ei in
    let '(w', reports) := tv_run rest w in
    (w', match snd ei with
         | Poll => reported_state w :: reports
         | Window _ => reports
         end)
  end.

Definition tv_of (w : Mixer) : option TVState :=
  match sources w !! "tv" with
  | Some s => match impl s with TVImpl t => Some t | _ => None end
  | None => None
  end.

(** The polling step finds the sink-input of the pipeline and its info. *)
Definition poll_reaches_level (env : Env) : bool :=
  truthy (pa_find env "gst-launch") && bool_decide (is_Some (pa_info env "gst-launch")).

(** ** Example worlds *)

Definition env_ok (t : Q) : Env :=
  {| now := t;
     pa_find := fun _ => Some "42";
     pa_info := fun _ => Some (mkSinkInfo "42" (Some false) (Some false) (Some 40));
     pa_set_volume := fun _ _ => true;
     pa_set_mute := fun _ _ => true;
     pa_master := fun _ => Some 0;
     mpris_props := None;
     mpris_set := true;
     mpris_player := None |}.

(** The same, with the sink-input of the pipeline at 150 %. *)
Definition env_loud (t : Q) : Env :=
  {| now := t;
     pa_find := fun _ => Some "42";
     pa_info := fun _ => Some (mkSinkInfo "42" (Some false) (Some false) (Some 150));
     pa_set_volume := fun _ _ => true;
     pa_set_mute := fun _ _ => true;
     pa_master := fun _ => Some 0;
     mpris_props := None;
     mpris_set := true;
     mpris_player := None |}.

(** [pactl] fails. *)
Definition env_fail (t : Q) : Env :=
  {| now := t;
     pa_find := fun _ => Some "42";
     pa_info := fun _ => None;
     pa_set_volume := fun _ _ => false;
     pa_set_mute := fun _ _ => false;
     pa_master := fun _ => Some 1;
     mpris_props := None;
     mpris_set := false;
     mpris_player := None |}.

(** A started mixer with the defaults of the constructor and a callback. *)
Definition mixer0 : Mixer := mixer_start (new_Mixer true 50 None true 25 0).

Definition bridge0 : Bridge := with_mixer (Some mixer0) new_Bridge.


(** ** What an operation leaves alone *)

(** Equal but for [volume], [level_db] and [last_update]. *)
Definition st_sim (a b : SourceState) : Prop :=
  name a = name b /\ state a = state b /\ muted a = muted b /\ level a = level b
  /\ title a = title b /\ artist a = artist b.

(** Equal but for what the subclass records about its last volume. *)
Definition impl_sim (a b : SourceImpl) : Prop :=
  match a, b with
  | SpotifyImpl _, SpotifyImpl _ => True
  | AirPlayImpl _ m, AirPlayImpl _ m' => m = m'
  | TVImpl x, TVImpl y => with_volume_set_time 0 x = with_volume_set_time 0 y
  | _, _ => False
  end.

Definition src_sim (a b : Source) : Prop :=
  st_sim (st a) (st b) /\ impl_sim (impl a) (impl b).

(** Events other than a call of [set_volume], a mute of a sink-input or
    the start of a thread. *)
Definition quiet (e : Event) : bool :=
  match e with
  | ESetVolume _ _ | EPaSetMute _ _ | EThreadStart _ => false
  | _ => true
  end.

Definition same_policy (w w' : Mixer) : Prop :=
  on_state_change w' = on_state_change w /\ running w' = running w
  /\ master_volume w' = master_volume w /\ default_volumes w' = default_volumes w
  /\ reset_on_stop w' = reset_on_stop w /\ slew_rate w' = slew_rate w.

(** [w'] differs from [w] in the volume of sources and in quiet events
    added to the trace. *)
Record keeps (w w' : Mixer) : Prop := mk_keeps {
  keeps_policy : same_policy w w';
  keeps_was_active : was_active w' = was_active w;
  keeps_slew : slew_state w' = slew_state w;
  keeps_threads : threads w' = threads w;
  keeps_sources : forall n, option_Forall2 src_sim (sources w !! n) (sources w' !! n);
  keeps_trace : exists added, trace w' = (trace w ++ added)%list /\ forallb quiet added = true;
}.

(** What a notification may do on top of that: deactivate slew jobs,
    update [was_active], call [set_volume]. *)
Record handled (w w' : Mixer) : Prop := mk_handled {
  handled_policy : same_policy w w';
  handled_slew : forall n,
    option_Forall2 (fun j j' => j' = j \/ j' = deactivate j) (slew_state w !! n) (slew_state w' !! n);
  handled_threads : threads w' = threads w;
  handled_sources : forall n, option_Forall2 src_sim (sources w !! n) (sources w' !! n);
  handled_trace : exists added,
    trace w' = (trace w ++ added)%list
    /\ forallb (fun e => negb (is_mute_call e)) added = true;
}.

(** A ramp of the AirPlay volume from 100 toward 50 whose thread has made
    one full iteration and sleeps at the head of its loop. *)
Definition ramping : Mixer :=
  slew_thread_step (env_ok 1) 0
    (slew_thread_step (env_ok 1) 0
       (fst (set_source_volume (env_ok 1) "airplay" 50 true mixer0))).

(** ** The invariant of the slew engine *)

Definition thread_names (w : Mixer) : list string := th_name <$> threads w.

(** No two live slew threads belong to the same source, and every live
    slew thread has its job in the table. *)
Definition slew_inv (w : Mixer) : Prop :=
  NoDup (thread_names w) /\ forall n, n ∈ thread_names w -> is_Some (slew_state w !! n).

(** ** Summaries of one polling step of the television

    The playback state it reports, the mute call it makes and the value
    of [_silence_muted] it leaves, as functions of the state it starts
    from; lemma [tv_poll_spec] proves that [tv_poll_state] agrees. *)

Definition poll_state (env : Env) (t : TVState) : PlaybackState :=
  match silence_of env t with
  | SustainedSilence => IDLE
  | _ => PLAYING
  end.

Definition poll_mute (env : Env) (t : TVState) : option bool :=
  match silence_of env t with
  | Sound => if auto_mute_enabled t && silence_muted t then Some (user_muted t) else None
  | BriefSilence => None
  | SustainedSilence =>
    if auto_mute_enabled t && negb (silence_muted t) && negb (user_muted t)
    then Some true else None
  end.

Definition poll_silence_muted (env : Env) (t : TVState) : bool :=
  match poll_mute env t with
  | Some _ => negb (silence_muted t)
  | None => silence_muted t
  end.







(** PulseAudio lists no sink-input. *)
Definition env_absent (t : Q) : Env :=
  {| now := t;
     pa_find := fun _ => None;
     pa_info := fun _ => None;
     pa_set_volume := fun _ _ => false;
     pa_set_mute := fun _ _ => false;
     pa_master := fun _ => Some 0;
     mpris_props := None;
     mpris_set := false;
     mpris_player := None |}.

(** A television that was playing at -20 dB and has been silent and
    auto-muted since: sound at 100 s, silence from 101 s, polling steps at
    102 s and 104 s. *)
Definition tv_muted_by_silence : Mixer :=
  fst (tv_run [(env_ok 100, Window (-20)); (env_ok 101, Window (-60));
               (env_ok 102, Poll); (env_ok 104, Poll)] mixer0).

(** ** More of [mixer.py] and [main.py] *)

(** [AudioMixer.get_default_volume] *)
Definition get_default_volume (source_name : string) (w : Mixer) : Z :=
  default 30 (default_volumes w !! source_name).

(** [AudioMixer.get_slew_rate], [AudioMixer.get_reset_on_stop] *)
Definition get_slew_rate (w : Mixer) : Z := slew_rate w.
Definition get_reset_on_stop (w : Mixer) : bool := reset_on_stop w.

(** [AudioMixer.get_tv_silence_threshold] over [TVSource.get_silence_threshold] *)
Definition get_tv_silence_threshold (w : Mixer) : Z :=
  match tv_of w with
  | Some t => py_int_of_float (silence_threshold_db t)
  | None => -50
  end.

(** [AudioMixer.get_tv_silence_duration] *)
Definition get_tv_silence_duration (w : Mixer) : Q :=
  match tv_of w with
  | Some t => silence_duration t
  | None => 3%Q
  end.

(** [AudioMixer.get_tv_auto_mute] *)
Definition get_tv_auto_mute (w : Mixer) : bool :=
  match tv_of w with
  | Some t => auto_mute_enabled t
  | None => true
  end.

(** [AudioMixer.tv_volume_up], [tv_volume_down], [tv_mute_toggle]: the
    source stored under ["tv"], without a test of its class. *)
Definition tv_volume_up (env : Env) (step : Z) (w : Mixer) : Mixer * bool :=
  match get_volume "tv" w with
  | Some cur => set_volume env "tv" (Z.min 100 (cur + step)) w
  | None => (w, false)
  end.

Definition tv_volume_down (env : Env) (step : Z) (w : Mixer) : Mixer * bool :=
  match get_volume "tv" w with
  | Some cur => set_volume env "tv" (Z.max 0 (cur - step)) w
  | None => (w, false)
  end.

Definition tv_mute_toggle (env : Env) (w : Mixer) : Mixer * bool :=
  match get_muted "tv" w with
  | Some cur => set_muted env "tv" (negb cur) w
  | None => (w, false)
  end.

(** [MediaBridge._on_cec_volume_command]; [step] is
    [self.config.cec.volume_step]. *)
Definition on_cec_volume_command (env : Env) (step : Z) (command : string) (b : Bridge)
    : Bridge :=
  match mixer b with
  | None => b
  | Some _ =>
    if String.eqb command "volume_up" then mixer_call (tv_volume_up env step) b
    else if String.eqb command "volume_down" then mixer_call (tv_volume_down env step) b
    else if String.eqb command "mute_toggle" then mixer_call (tv_mute_toggle env) b
    else b
  end.

(** The notifications that reached the mixer's callback. *)
Definition is_publish (e : Event) : bool :=
  match e with
  | EPublish _ _ _ => true
  | _ => false
  end.

Definition publishes (w : Mixer) : list Event := List.filter is_publish (trace w).

(** The calls to PulseAudio. *)
Definition is_pa_call (e : Event) : bool :=
  match e with
  | EPaSetVolume _ _ | EPaSetMute _ _ | EPaMaster _ => true
  | _ => false
  end.

Definition pa_calls (w : Mixer) : list Event := List.filter is_pa_call (trace w).

(** The states of the sources and the notifications are those of [w]. *)
Definition states_kept (w w' : Mixer) : Prop :=
  (forall m, st <$> sources w' !! m = st <$> sources w !! m)
  /\ publishes w' = publishes w.


(** ** [mqtt_client.py]

    The paho client is a log of the calls made to it; whether the broker
    accepts a message ([result.rc == MQTT_ERR_SUCCESS], no exception) is an
    argument of the call. *)

Module MQTTClient.

(** [SOURCES] *)
Definition SOURCES : list string := ["spotify"; "airplay"; "tv"].

(** A [dict] with string keys and values, in insertion order. *)
Fixpoint dict_set (k v : string) (d : list (string * string)) : list (string * string) :=
  match d with
  | [] => [(k, v)]
  | (k', v') :: d' => if String.eqb k k' then (k, v) :: d' else (k', v') :: dict_set k v d'
  end.


(** The body of [for source in SOURCES: COMMAND_TOPICS[...] = ...] *)
Definition add_source_topics (d : list (string * string)) (source : string)
    : list (string * string) :=
  let d := dict_set ("source/" ++ source ++ "/set_volume")
             ("source_" ++ source ++ "_set_volume") d in
  let d := dict_set ("source/" ++ source ++ "/mute") ("source_" ++ source ++ "_mute") d in
  let d := dict_set ("source/" ++ source ++ "/set_mute")
             ("source_" ++ source ++ "_set_mute") d in
  let d := dict_set ("source/" ++ source ++ "/play") ("source_" ++ source ++ "_play") d in
  let d := dict_set ("source/" ++ source ++ "/pause") ("source_" ++ source ++ "_pause") d in
  let d := dict_set ("source/" ++ source ++ "/stop") ("source_" ++ source ++ "_stop") d in
  dict_set ("source/" ++ source ++ "/set_default_volume")
    ("source_" ++ source ++ "_set_default_volume") d.

(** [COMMAND_TOPICS] after the loop at module level. *)
Definition COMMAND_TOPICS : list (string * string) :=
  fold_left add_source_topics SOURCES
    [ ("tv/power_on", "tv_power_on");
      ("tv/power_off", "tv_power_off");
      ("source/tv/set_silence_threshold", "tv_set_silence_threshold");
      ("source/tv/set_silence_duration", "tv_set_silence_duration");
      ("source/tv/set_auto_mute", "tv_set_auto_mute");
      ("master/set_volume", "set_master_volume");
      ("master/set_reset_on_stop", "set_reset_on_stop");
      ("master/set_slew_rate", "set_slew_rate") ].

(** A call of the paho client; [accepted] is the broker's answer to a
    [publish]. *)
Inductive ClientCall :=
| CPublish (topic payload : string) (retain : bool) (accepted : bool)
| CSubscribe (topic : string).

Record Client := mkClient {
  topic_prefix : string;
  has_client : bool;                       (* [self._client] is not [None] *)
  connected : bool;
  started : bool;                          (* [self._running] *)
  last_state : gmap string string;
  calls : list ClientCall;
}.

(** [MQTTClient.__init__] *)
Definition new_Client (prefix : string) : Client :=
  {| topic_prefix := prefix; has_client := false; connected := false; started := false;
     last_state := ∅; calls := [] |}.

Definition with_has_client (x : bool) (m : Client) : Client :=
  {| topic_prefix := topic_prefix m; has_client := x; connected := connected m;
     started := started m; last_state := last_state m; calls := calls m |}.
Definition with_connected (x : bool) (m : Client) : Client :=
  {| topic_prefix := topic_prefix m; has_client := has_client m; connected := x;
     started := started m; last_state := last_state m; calls := calls m |}.
Definition with_started (x : bool) (m : Client) : Client :=
  {| topic_prefix := topic_prefix m; has_client := has_client m; connected := connected m;
     started := x; last_state := last_state m; calls := calls m |}.
Definition with_last_state (x : gmap string string) (m : Client) : Client :=
  {| topic_prefix := topic_prefix m; has_client := has_client m; connected := connected m;
     started := started m; last_state := x; calls := calls m |}.
Definition with_calls (x : list ClientCall) (m : Client) : Client :=
  {| topic_prefix := topic_prefix m; has_client := has_client m; connected := connected m;
     started := started m; last_state := last_state m; calls := x |}.

(** [MQTTClient._topic] *)
Definition topic (m : Client) (suffix : string) : string := topic_prefix m ++ "/" ++ suffix.

(** What [publish] is given: a scalar, or a list of names. *)
Inductive Payload :=
| PValue (v : Value)
| PList (l : list string).

Section Publish.

(** [str] on an [int] and on a [float], [json.dumps] on a list. *)
Variable str_int : Z -> string.
Variable str_float : Q -> string.
Variable json_dumps : list string -> string.

Definition payload_str (payload : Payload) : string :=
  match payload with
  | PValue (VBool b) => if b then "true" else "false"
  | PList l => json_dumps l
  | PValue (VStr s) => s
  | PValue (VInt z) => str_int z
  | PValue (VFloat q) => str_float q
  end.

(** [MQTTClient.publish] *)
Definition publish (accepted : bool) (topic_suffix : string) (payload : Payload)
    (retain : bool) (m : Client) : Client * bool :=
  if negb (has_client m) || negb (connected m) then (m, false)
  else
    let t := topic m topic_suffix in
    let s := payload_str payload in
    if retain && bool_decide (last_state m !! t = Some s) then (m, true)
    else
      let m := with_calls (calls m ++ [CPublish t s retain accepted])%list m in
      if accepted then (with_last_state (<[t := s]> (last_state m)) m, true)
      else (m, false).

(** [MQTTClient._publish_availability] *)
Definition publish_availability (accepted online : bool) (m : Client) : Client :=
  fst (publish accepted "availability"
         (PValue (VStr (if online then "online" else "offline"))) true m).

(** [MQTTClient._on_connect]; [ok] is [reason_code == 0]. *)
Definition on_connect (ok accepted : bool) (m : Client) : Client :=
  if ok then
    let m := with_connected true m in
    let m := publish_availability accepted true m in
    with_calls (calls m ++ map (fun kv => CSubscribe (topic m (fst kv))) COMMAND_TOPICS)%list m
  else with_connected false m.

(** [MQTTClient._on_disconnect] *)
Definition on_disconnect (m : Client) : Client := with_connected false m.

(** [MQTTClient.stop] *)
Definition stop (accepted : bool) (m : Client) : Client :=
  if negb (started m) then m
  else
    let m := with_started false m in
    let m :=
      if has_client m
      then with_has_client false (publish_availability accepted false m)
      else m in
    with_connected false m.

End Publish.


(** What the broker retains after the calls made so far. *)
Definition retained (cs : list ClientCall) : gmap string string :=
  fold_left (fun r c => match c with
                        | CPublish t s true true => <[t := s]> r
                        | _ => r
                        end) cs ∅.

(** A sequence of retained publishes, each with the broker's answer. *)
Definition publish_all (str_int : Z -> string) (str_float : Q -> string)
    (json_dumps : list string -> string) (ops : list (bool * string * Payload)) (m : Client)
    : Client :=
  fold_left (fun m op => fst (publish str_int str_float json_dumps (fst (fst op))
                                (snd (fst op)) (snd op) true m)) ops m.

(** The messages published among the calls. *)
Definition is_publish_call (c : ClientCall) : bool :=
  match c with
  | CPublish _ _ _ _ => true
  | CSubscribe _ => false
  end.

Definition published (m : Client) : list ClientCall := List.filter is_publish_call (calls m).

End MQTTClient.


(** * Properties *)

(** ** The snapshot of a source *)

Lemma dict_get_snapshot_level_db s :
  dict_get "level_db" (to_dict (state_snapshot s)) = Some (VFloat level_db_default).
Proof. reflexivity. Qed.

(** C9: the snapshot returned by the [state] property copies every field of
    the source's state except [level_db], which is the default -100.0
    whatever the source holds; hence [get_all_states] reports a dict for
    every source of the mixer and each of them has [level_db] = -100.0. *)
Theorem snapshot_drops_level_db (s : SourceState) (w : Mixer) :
  let c := state_snapshot s in
  (name c = name s /\ state c = state s /\ volume c = volume s /\ muted c = muted s
   /\ level c = level s /\ title c = title s /\ artist c = artist s
   /\ last_update c = last_update s)
  /\ level_db c = (-100)%Q
  /\ dom (get_all_states w) = dom (sources w)
  /\ map_Forall (fun _ d => dict_get "level_db" d = Some (VFloat (-100)%Q)) (get_all_states w).
Proof.
  simpl. repeat split.
  - unfold get_all_states. apply dom_fmap_L.
  - unfold get_all_states. intros n d Hd.
    rewrite lookup_fmap in Hd.
    destruct (sources w !! n) as [src|]; simpl in Hd; [|discriminate].
    injection Hd as <-. apply dict_get_snapshot_level_db.
Qed.

(** ** Master volume *)

(** C10: [set_master_volume v] stores [clamp 0 100 v] before it calls the
    output device, whatever the call then does; it returns success exactly
    when the call returned 0, and notifies the new volume only then. *)
Theorem set_master_volume_stores_first (env : Env) (v : Z) (w : Mixer) :
  let c := clamp 0 100 v in
  let w' := fst (set_master_volume env v w) in
  let ok := snd (set_master_volume env v w) in
  get_master_volume w' = c
  /\ ok = match pa_master env c with Some 0 => true | _ => false end
  /\ trace w' = (trace w ++ EPaMaster c ::
                 (if ok && on_state_change w then [EPublish "master" "volume" (VInt c)] else []))%list.
Proof.
  unfold set_master_volume, get_master_volume. simpl.
  destruct (pa_master env (clamp 0 100 v)) as [rc|]; simpl.
  - destruct (Z.eqb_spec rc 0) as [->|Hrc]; simpl.
    + unfold publish. simpl. destruct (on_state_change w); simpl; repeat split.
      rewrite <- app_assoc. reflexivity.
    + repeat split. destruct rc; try reflexivity. congruence.
  - repeat split.
Qed.
(** ** The command handler *)

Lemma substring_0_substring (s : string) (b c k : nat) :
  (b + c <= k)%nat -> substring b c (substring 0 k s) = substring b c s.
Proof.
  revert b c k. induction s as [|ch s IH]; intros b c k Hk.
  - destruct k; reflexivity.
  - destruct k as [|k].
    + assert (b = 0%nat) by lia. assert (c = 0%nat) by lia. subst. reflexivity.
    + simpl. destruct b as [|b].
      * destruct c as [|c]; [reflexivity|]. simpl. f_equal.
        apply (IH 0%nat c k). lia.
      * simpl. apply IH. lia.
Qed.

Lemma substring_substring (s : string) (a b c k : nat) :
  (b + c <= k)%nat -> substring b c (substring a k s) = substring (a + b) c s.
Proof.
  revert s. induction a as [|a IH]; intros s Hk.
  - apply substring_0_substring. exact Hk.
  - destruct s as [|ch s].
    + simpl. destruct k, b, c; reflexivity.
    + simpl. apply IH. exact Hk.
Qed.

(** A string that ends with [x] does not end with a [y] that is not a
    suffix of [x]. *)
Lemma endswith_exclusive (s x y : string) :
  endswith s x = true ->
  (String.length y <= String.length x)%nat ->
  endswith x y = false ->
  endswith s y = false.
Proof.
  unfold endswith. intros Hx Hlen Hy.
  apply andb_true_iff in Hx as [Hle Heq].
  apply Nat.leb_le in Hle. apply String.eqb_eq in Heq.
  assert (Hle' : Nat.leb (String.length y) (String.length x) = true) by (apply Nat.leb_le; lia).
  rewrite Hle' in Hy. simpl in Hy.
  destruct (Nat.leb (String.length y) (String.length s)) eqn:Hys; [simpl|reflexivity].
  rewrite <- Hy. f_equal. rewrite <- Heq at 2.
  rewrite substring_substring by lia.
  f_equal. lia.
Qed.

Lemma source_command_not_tv_power (command : string) :
  startswith command "source_" = true ->
  String.eqb command "tv_power_on" = false /\ String.eqb command "tv_power_off" = false.
Proof.
  intros H. split.
  - destruct (String.eqb_spec command "tv_power_on") as [->|]; [discriminate H|reflexivity].
  - destruct (String.eqb_spec command "tv_power_off") as [->|]; [discriminate H|reflexivity].
Qed.


Section CommandHandlerProperties.

Variable py_int : string -> option Z.
Variable py_float : string -> option Q.

Local Abbreviation handle := (on_mqtt_command py_int py_float).

Lemma set_volume_command_unfold env command payload b :
  startswith command "source_" = true ->
  endswith command "_set_volume" = true ->
  handle env command payload b =
  with_int py_int command payload (volume_command env (slice 7 11 command))
    (add_log (LogProcessing command payload) b).
Proof.
  intros Hs He. unfold on_mqtt_command.
  destruct (source_command_not_tv_power command Hs) as [-> ->].
  rewrite Hs, He. reflexivity.
Qed.




End CommandHandlerProperties.

Lemma clamp_idem (v : Z) : clamp 0 100 (clamp 0 100 v) = clamp 0 100 v.
Proof. unfold clamp. lia. Qed.

Lemma clamp_range (v : Z) : 0 <= clamp 0 100 v <= 100.
Proof. unfold clamp. lia. Qed.





(** ** Rate limiting of commands *)

(** C8, the claim at two mute commands: two [source_spotify_set_mute]
    commands 50 ms apart are both applied. *)
Lemma mute_commands_not_rate_limited :
  let b1 := on_mqtt_command decimal decimal_float (env_ok 1000)
              "source_spotify_set_mute" "true" bridge0 in
  let b2 := on_mqtt_command decimal decimal_float (env_ok (100005 # 100))
              "source_spotify_set_mute" "false" b1 in
  trace <$> mixer b1 = Some [EPaSetMute "42" true; EPublish "spotify" "muted" (VBool true)]
  /\ trace <$> mixer b2 = Some [EPaSetMute "42" true; EPublish "spotify" "muted" (VBool true);
                                EPaSetMute "42" false; EPublish "spotify" "muted" (VBool false)]
  /\ mixer b2 <> mixer b1.
Proof.
  split; [reflexivity|]. split; [reflexivity|].
  intros H.
  assert (Ht : length <$> (trace <$> mixer (on_mqtt_command decimal decimal_float (env_ok (100005 # 100))
              "source_spotify_set_mute" "false" (on_mqtt_command decimal decimal_float (env_ok 1000)
              "source_spotify_set_mute" "true" bridge0)))
               = length <$> (trace <$> mixer (on_mqtt_command decimal decimal_float (env_ok 1000)
              "source_spotify_set_mute" "true" bridge0))) by (rewrite H; reflexivity).
  vm_compute in Ht. discriminate Ht.
Qed.

Lemma Qltb_true (a b : Q) : Qltb a b = true <-> (a < b)%Q.
Proof.
  unfold Qltb. rewrite negb_true_iff. split.
  - intros H. apply Qnot_le_lt. intros Hle. apply Qle_bool_iff in Hle. congruence.
  - intros H. destruct (Qle_bool b a) eqn:E; [|reflexivity].
    apply Qle_bool_iff in E. exfalso. apply (Qlt_not_le _ _ H E).
Qed.

Lemma Qltb_false (a b : Q) : Qltb a b = false <-> (b <= a)%Q.
Proof.
  unfold Qltb. rewrite negb_false_iff. apply Qle_bool_iff.
Qed.

(** C8, amended: only the volume-set commands are rate limited, and per
    source name.  When a [source_<name>_set_volume] command is accepted
    (its payload is an integer and the cooldown since the last accepted one
    for that name has passed) it is applied through [set_source_volume];
    a second one for the same name that arrives less than the cooldown
    later is dropped: it changes nothing and leaves a line in the log. *)
Theorem volume_commands_rate_limited (py_int : string -> option Z)
    (py_float : string -> option Q) (env1 env2 : Env) (command p1 p2 : string)
    (v1 v2 : Z) (b : Bridge) :
  startswith command "source_" = true ->
  endswith command "_set_volume" = true ->
  py_int p1 = Some v1 ->
  py_int p2 = Some v2 ->
  (volume_cmd_cooldown b
   <= now env1 - default 0 (last_volume_cmd b !! slice 7 11 command))%Q ->
  (now env2 - now env1 < volume_cmd_cooldown b)%Q ->
  let src := slice 7 11 command in
  let b1 := on_mqtt_command py_int py_float env1 command p1 b in
  let b2 := on_mqtt_command py_int py_float env2 command p2 b1 in
  mixer b1 = (fun m => fst (set_source_volume env1 src v1 true m)) <$> mixer b
  /\ last_volume_cmd b1 !! src = Some (now env1)
  /\ b2 = add_log (LogRateLimited src) (add_log (LogProcessing command p2) b1).
Proof.
  intros Hs He Hp1 Hp2 Hfirst Hsecond. simpl.
  set (src := slice 7 11 command) in *.
  set (b1 := on_mqtt_command py_int py_float env1 command p1 b).
  assert (Hb1 : b1 = mixer_call (set_source_volume env1 src v1 true)
                   (with_last_volume_cmd (<[src := now env1]> (last_volume_cmd b))
                      (add_log (LogProcessing command p1) b))).
  { unfold b1. rewrite set_volume_command_unfold by assumption.
    unfold with_int. rewrite Hp1. unfold volume_command. fold src.
    apply Qltb_false in Hfirst. simpl. rewrite Hfirst. reflexivity. }
  clearbody b1.
  assert (Hlast : last_volume_cmd b1 !! src = Some (now env1)).
  { rewrite Hb1. unfold mixer_call. simpl.
    destruct (mixer b); simpl; apply lookup_insert_eq. }
  assert (Hcd : volume_cmd_cooldown b1 = volume_cmd_cooldown b).
  { rewrite Hb1. unfold mixer_call. simpl. destruct (mixer b); reflexivity. }
  split; [|split; [exact Hlast|]].
  - rewrite Hb1. unfold mixer_call. cbn.
    destruct (mixer b) eqn:Hm; cbn; rewrite ?Hm; reflexivity.
  - rewrite set_volume_command_unfold by assumption.
    unfold with_int. rewrite Hp2. unfold volume_command. fold src. simpl.
    rewrite Hlast, Hcd. simpl.
    apply Qltb_true in Hsecond. rewrite Hsecond. reflexivity.
Qed.

Lemma volume_commands_rate_limited_witness :
  let b1 := on_mqtt_command decimal decimal_float (env_ok 1000)
              "source_tv_set_volume" "30" bridge0 in
  let b2 := on_mqtt_command decimal decimal_float (env_ok (100005 # 100))
              "source_tv_set_volume" "60" b1 in
  mixer b1 = (fun m => fst (set_source_volume (env_ok 1000) "tv" 30 true m)) <$> mixer bridge0
  /\ last_volume_cmd b1 !! "tv" = Some (now (env_ok 1000))
  /\ b2 = add_log (LogRateLimited "tv") (add_log (LogProcessing "source_tv_set_volume" "60") b1).
Proof.
  apply (volume_commands_rate_limited decimal decimal_float (env_ok 1000)
           (env_ok (100005 # 100)) "source_tv_set_volume" "30" "60" 30 60 bridge0);
    first [reflexivity | vm_compute; discriminate].
Defined.

(** ** Frame lemmas *)

Lemma st_sim_refl a : st_sim a a.
Proof. repeat split. Qed.

Lemma st_sim_trans a b c : st_sim a b -> st_sim b c -> st_sim a c.
Proof. unfold st_sim. intuition congruence. Qed.

Lemma impl_sim_refl a : impl_sim a a.
Proof. destruct a; simpl; auto. Qed.

Lemma impl_sim_trans a b c : impl_sim a b -> impl_sim b c -> impl_sim a c.
Proof. destruct a, b, c; simpl; try tauto; congruence. Qed.

Lemma src_sim_refl a : src_sim a a.
Proof. split; [apply st_sim_refl|apply impl_sim_refl]. Qed.

Lemma src_sim_trans a b c : src_sim a b -> src_sim b c -> src_sim a c.
Proof.
  intros [H1 H2] [H3 H4]. split; [eapply st_sim_trans|eapply impl_sim_trans]; eassumption.
Qed.

Lemma sources_sim_refl (m : gmap string Source) n : option_Forall2 src_sim (m !! n) (m !! n).
Proof. destruct (m !! n); constructor. apply src_sim_refl. Qed.

Lemma sources_sim_trans (a b c : option Source) :
  option_Forall2 src_sim a b -> option_Forall2 src_sim b c -> option_Forall2 src_sim a c.
Proof.
  intros H1 H2. destruct H1; inversion H2; subst; constructor.
  eapply src_sim_trans; eassumption.
Qed.

Lemma same_policy_refl w : same_policy w w.
Proof. repeat split. Qed.

Lemma same_policy_trans a b c : same_policy a b -> same_policy b c -> same_policy a c.
Proof. unfold same_policy. intuition congruence. Qed.

Lemma keeps_refl w : keeps w w.
Proof.
  split; try reflexivity.
  - apply same_policy_refl.
  - intros n. apply sources_sim_refl.
  - exists []. rewrite app_nil_r. split; reflexivity.
Qed.

Lemma keeps_trans a b c : keeps a b -> keeps b c -> keeps a c.
Proof.
  intros [P1 A1 S1 T1 R1 (x & E1 & Q1)] [P2 A2 S2 T2 R2 (y & E2 & Q2)].
  split; try congruence.
  - eapply same_policy_trans; eassumption.
  - intros n. eapply sources_sim_trans; [apply R1|apply R2].
  - exists (x ++ y)%list. rewrite E2, E1, <- app_assoc. split; [reflexivity|].
    rewrite forallb_app, Q1, Q2. reflexivity.
Qed.

Lemma keeps_emit e w : quiet e = true -> keeps w (emit e w).
Proof.
  intros He. split; try reflexivity.
  - repeat split.
  - intros n. apply sources_sim_refl.
  - exists [e]. split; [reflexivity|]. simpl. rewrite He. reflexivity.
Qed.

Lemma keeps_publish n k v w : keeps w (publish n k v w).
Proof.
  unfold publish. destruct (on_state_change w); [apply keeps_emit; reflexivity|apply keeps_refl].
Qed.

Lemma keeps_alter_source f n w :
  (forall s, src_sim s (f s)) -> keeps w (alter_source f n w).
Proof.
  intros Hf. split; try reflexivity.
  - repeat split.
  - intros m. simpl. rewrite lookup_alter. case_decide; [subst m|apply sources_sim_refl].
    destruct (sources w !! n); constructor. apply Hf.
  - exists []. simpl. rewrite app_nil_r. split; reflexivity.
Qed.

Lemma keeps_alter_tv f n w :
  (forall t, with_volume_set_time 0 (f t) = with_volume_set_time 0 t) ->
  keeps w (alter_tv f n w).
Proof.
  intros Hf. apply keeps_alter_source. intros s. unfold src_sim.
  destruct (impl s) eqn:Hi; simpl; rewrite ?Hi; simpl;
    (split; [apply st_sim_refl|auto]).
Qed.

Lemma keeps_set_sink_input_volume env id v w : keeps w (fst (set_sink_input_volume env id v w)).
Proof. apply keeps_emit. reflexivity. Qed.

Lemma src_sim_with_sink_input_id x s : src_sim s (with_sink_input_id x s).
Proof. split; [repeat split|simpl; apply impl_sim_refl]. Qed.

Lemma keeps_ensure_sink_input_id env p n w : keeps w (ensure_sink_input_id env p n w).
Proof.
  apply keeps_alter_source. intros s.
  destruct (truthy (sink_input_id s)); [apply src_sim_refl|apply src_sim_with_sink_input_id].
Qed.

Lemma keeps_ensure_airplay_sink_input_id env n w : keeps w (ensure_airplay_sink_input_id env n w).
Proof.
  apply keeps_alter_source. intros s.
  destruct (truthy (sink_input_id s)); [apply src_sim_refl|].
  destruct (find_airplay_sink_input env); [apply src_sim_with_sink_input_id|apply src_sim_refl].
Qed.

(** [_update_state(volume=v)] with a forwarding callback. *)
Lemma keeps_update_volume env n v w :
  keeps w (update_state_with publish env n [FVolume v] w).
Proof.
  unfold update_state_with, update_fields.
  destruct (sources w !! n) as [s|] eqn:Hs; [|apply keeps_refl].
  destruct (field_differs (st s) (FVolume v)); [|apply keeps_refl].
  eapply keeps_trans;
    [|apply keeps_alter_source; intros x; split; [repeat split|simpl; apply impl_sim_refl]].
  eapply keeps_trans; [|apply keeps_publish].
  apply keeps_alter_source. intros x. split; [repeat split|simpl; apply impl_sim_refl].
Qed.

Lemma keeps_tv_set_volume env n v w : keeps w (fst (tv_set_volume env n v w)).
Proof.
  unfold tv_set_volume.
  eapply keeps_trans; [apply (keeps_ensure_sink_input_id env "gst-launch" n)|].
  destruct (sources _ !! n) as [s|]; [|apply keeps_refl].
  destruct (sink_input_id s) as [id|]; [|apply keeps_refl].
  destruct (truthy (Some id)); [|apply keeps_refl].
  unfold set_sink_input_volume.
  destruct (pa_set_volume env id (clamp 0 100 (clamp 0 100 v))); simpl.
  - eapply keeps_trans; [|apply keeps_update_volume].
    eapply keeps_trans; [|apply keeps_alter_tv; reflexivity].
    apply keeps_emit. reflexivity.
  - apply keeps_emit. reflexivity.
Qed.

Lemma keeps_spotify_set_volume env n v w : keeps w (fst (spotify_set_volume env n v w)).
Proof.
  unfold spotify_set_volume.
  eapply keeps_trans; [apply (keeps_ensure_sink_input_id env "spotifyd" n)|].
  set (w1 := ensure_sink_input_id env "spotifyd" n w). clearbody w1.
  destruct (sources w1 !! n) as [s|]; [|apply keeps_refl].
  set (r := match sink_input_id s with
            | Some id => if truthy (Some id)
                         then set_sink_input_volume env id (clamp 0 100 v) w1 else (w1, false)
            | None => (w1, false)
            end).
  assert (Hr : keeps w1 (fst r)).
  { unfold r. destruct (sink_input_id s) as [id|]; [|apply keeps_refl].
    destruct (truthy (Some id)); [apply keeps_set_sink_input_volume|apply keeps_refl]. }
  destruct r as [w2 ok]. simpl in Hr.
  set (w3 := match mpris_props env with Some _ => _ | None => w2 end).
  assert (H3 : keeps w2 w3).
  { unfold w3. destruct (mpris_props env); [|apply keeps_refl].
    destruct (mpris_set env); [|apply keeps_emit; reflexivity].
    eapply keeps_trans; [apply (keeps_emit (EMprisSetVolume (clamp 0 100 v))); reflexivity|].
    apply keeps_alter_source. intros x. unfold src_sim.
    destruct (impl x) eqn:Hi; simpl; rewrite ?Hi; simpl; (split; [apply st_sim_refl|auto]). }
  clearbody w3.
  eapply keeps_trans; [exact Hr|]. eapply keeps_trans; [exact H3|].
  destruct ok; simpl; [apply keeps_update_volume|apply keeps_refl].
Qed.

Lemma keeps_airplay_set_volume env n v w : keeps w (fst (airplay_set_volume env n v w)).
Proof.
  unfold airplay_set_volume.
  eapply keeps_trans; [apply (keeps_ensure_airplay_sink_input_id env n)|].
  set (w1 := ensure_airplay_sink_input_id env n w). clearbody w1.
  destruct (sources w1 !! n) as [s|]; [|apply keeps_refl]. cbn [fst].
  eapply keeps_trans; [|apply keeps_update_volume].
  eapply keeps_trans; [|apply keeps_alter_source; intros x; unfold src_sim;
                        destruct (impl x) eqn:Hi; simpl; rewrite ?Hi; simpl;
                        (split; [apply st_sim_refl|auto])].
  destruct (sink_input_id s) as [id|]; [|apply keeps_refl].
  destruct (truthy (Some id)); [apply keeps_set_sink_input_volume|apply keeps_refl].
Qed.

(** [source.set_volume(v)] on a source of the mixer: the call is recorded
    and the rest is kept. *)
Lemma set_volume_keeps env n v w :
  is_Some (sources w !! n) ->
  keeps (emit (ESetVolume n v) w) (fst (set_volume env n v w)).
Proof.
  intros [s Hs]. unfold set_volume. rewrite Hs.
  destruct (impl s).
  - apply keeps_spotify_set_volume.
  - apply keeps_airplay_set_volume.
  - apply keeps_tv_set_volume.
Qed.

Lemma set_volume_unknown env n v w :
  sources w !! n = None -> set_volume env n v w = (w, false).
Proof. intros Hs. unfold set_volume. rewrite Hs. reflexivity. Qed.

Lemma deactivate_idem j : deactivate (deactivate j) = deactivate j.
Proof. reflexivity. Qed.

Lemma slew_rel_refl (m : gmap string SlewJob) n :
  option_Forall2 (fun j j' => j' = j \/ j' = deactivate j) (m !! n) (m !! n).
Proof. destruct (m !! n); constructor. left. reflexivity. Qed.

Lemma handled_refl w : handled w w.
Proof.
  split; try reflexivity.
  - apply same_policy_refl.
  - intros n. apply slew_rel_refl.
  - intros n. apply sources_sim_refl.
  - exists []. rewrite app_nil_r. split; reflexivity.
Qed.

Lemma handled_trans a b c : handled a b -> handled b c -> handled a c.
Proof.
  intros [P1 S1 T1 R1 (x & E1 & Q1)] [P2 S2 T2 R2 (y & E2 & Q2)].
  split; try congruence.
  - eapply same_policy_trans; eassumption.
  - intros n. specialize (S1 n). specialize (S2 n).
    destruct S1 as [j j' Hj|]; inversion S2; subst; constructor.
    destruct Hj as [->| ->]; destruct H1 as [->| ->]; auto.
  - intros n. eapply sources_sim_trans; [apply R1|apply R2].
  - exists (x ++ y)%list. rewrite E2, E1, <- app_assoc. split; [reflexivity|].
    rewrite forallb_app, Q1, Q2. reflexivity.
Qed.

Lemma quiet_not_mute added :
  forallb quiet added = true -> forallb (fun e => negb (is_mute_call e)) added = true.
Proof.
  induction added as [|e l IH]; [reflexivity|]. simpl.
  intros H. apply andb_true_iff in H as [He Hl]. rewrite (IH Hl).
  destruct e; try discriminate He; reflexivity.
Qed.

Lemma keeps_handled w w' : keeps w w' -> handled w w'.
Proof.
  intros [P A S T R (x & E & Q)]. split; try assumption.
  - intros n. rewrite S. apply slew_rel_refl.
  - exists x. split; [exact E|apply quiet_not_mute; exact Q].
Qed.

Lemma handled_emit e w : is_mute_call e = false -> handled w (emit e w).
Proof.
  intros He. split; try reflexivity.
  - repeat split.
  - intros n. apply slew_rel_refl.
  - intros n. apply sources_sim_refl.
  - exists [e]. split; [reflexivity|]. simpl. rewrite He. reflexivity.
Qed.

Lemma handled_stop_slew n w : handled w (stop_slew n w).
Proof.
  split; try reflexivity.
  - repeat split.
  - intros m. simpl. rewrite lookup_alter. case_decide.
    + subst m. destruct (slew_state w !! n); constructor. right. reflexivity.
    + apply slew_rel_refl.
  - intros m. apply sources_sim_refl.
  - exists []. simpl. rewrite app_nil_r. split; reflexivity.
Qed.

Lemma handled_with_was_active x w : handled w (with_was_active x w).
Proof.
  split; try reflexivity.
  - repeat split.
  - intros n. apply slew_rel_refl.
  - intros m. apply sources_sim_refl.
  - exists []. simpl. rewrite app_nil_r. split; reflexivity.
Qed.

Lemma handled_set_volume env n v w : handled w (fst (set_volume env n v w)).
Proof.
  destruct (sources w !! n) as [s|] eqn:Hs.
  - eapply handled_trans; [apply (handled_emit (ESetVolume n v)); reflexivity|].
    apply keeps_handled. apply set_volume_keeps. simpl. rewrite Hs. eauto.
  - rewrite set_volume_unknown by exact Hs. apply handled_refl.
Qed.

Lemma handled_apply_default env n w : handled w (apply_default env n w).
Proof.
  unfold apply_default.
  eapply handled_trans; [apply handled_set_volume|].
  apply keeps_handled, keeps_publish.
Qed.

(** The mixer's handler leaves the threads, the set of slew jobs, and
    everything of the sources but their volume; it mutes nothing. *)
Lemma handle_source_state_change_handled env n k v w :
  handled w (handle_source_state_change env n k v w).
Proof.
  unfold handle_source_state_change.
  eapply handled_trans; [|apply keeps_handled, keeps_publish].
  destruct (String.eqb k "state"); [|apply handled_refl].
  eapply handled_trans; [|apply handled_with_was_active].
  destruct (is_playing v && negb (default false (was_active w !! n))).
  - destruct (sources w !! n); [|apply handled_refl].
    eapply handled_trans; [apply (handled_emit (ESleep (3 # 10)%Q)); reflexivity|].
    apply handled_apply_default.
  - destruct (default false (was_active w !! n) && negb (is_playing v)); [|apply handled_refl].
    eapply handled_trans; [apply handled_stop_slew|].
    destruct (reset_on_stop (stop_slew n w)); [|apply handled_refl].
    destruct (sources (stop_slew n w) !! n); [|apply handled_refl].
    apply handled_apply_default.
Qed.

(** For a key other than ["state"] the handler only forwards. *)
Lemma handle_other_key env n k v w :
  String.eqb k "state" = false ->
  handle_source_state_change env n k v w = publish n k v w.
Proof. intros Hk. unfold handle_source_state_change. rewrite Hk. reflexivity. Qed.

(** Hence [_update_state(volume=v)] inside [set_volume] is the
    [_update_state] of the source. *)
Lemma update_state_volume env n v w :
  update_state env n [FVolume v] w = update_state_with publish env n [FVolume v] w.
Proof.
  unfold update_state, update_state_with, update_fields.
  destruct (sources w !! n); [|reflexivity].
  destruct (field_differs (st s) (FVolume v)); [|reflexivity].
  simpl. rewrite handle_other_key by reflexivity. reflexivity.
Qed.

Lemma update_state_muted env n m w :
  update_state env n [FMuted m] w = update_state_with publish env n [FMuted m] w.
Proof.
  unfold update_state, update_state_with, update_fields.
  destruct (sources w !! n); [|reflexivity].
  destruct (field_differs (st s) (FMuted m)); [|reflexivity].
  simpl. rewrite handle_other_key by reflexivity. reflexivity.
Qed.

Lemma handled_external_volume n v w : handled w (handle_external_volume n v w).
Proof.
  unfold handle_external_volume.
  eapply handled_trans; [apply handled_stop_slew|apply keeps_handled, keeps_publish].
Qed.

(** ** [_update_state] under the mixer's handler *)

Lemma field_set_sim a b f : st_sim a b -> st_sim (field_set a f) (field_set b f).
Proof.
  unfold st_sim. intros (H1 & H2 & H3 & H4 & H5 & H6).
  destruct f; simpl; repeat split; assumption.
Qed.

Lemma fold_field_set_sim kwargs a b :
  st_sim a b -> st_sim (fold_left field_set kwargs a) (fold_left field_set kwargs b).
Proof.
  revert a b. induction kwargs as [|f l IH]; intros a b H; simpl; [exact H|].
  apply IH, field_set_sim, H.
Qed.

Lemma PlaybackState_eqb_eq a b : PlaybackState_eqb a b = true <-> a = b.
Proof. destruct a, b; simpl; split; congruence. Qed.

Lemma field_same_sim a f : field_differs a f = false -> st_sim a (field_set a f).
Proof.
  unfold st_sim. destruct f; simpl; rewrite negb_false_iff; intros H; repeat split.
  - apply PlaybackState_eqb_eq, H.
  - symmetry. apply Bool.eqb_prop. destruct (muted a), b; simpl in *; congruence.
  - apply Z.eqb_eq, H.
  - apply String.eqb_eq, H.
  - apply String.eqb_eq, H.
Qed.

(** After [_update_state] the attributes other than the volume
    are those of the keywords, whatever the handler did in between. *)
Lemma update_fields_handled env n kwargs changed w s :
  sources w !! n = Some s ->
  let w' := fst (update_fields (handle_source_state_change env) n kwargs changed w) in
  exists s', sources w' !! n = Some s'
    /\ st_sim (st s') (fold_left field_set kwargs (st s))
    /\ impl_sim (impl s) (impl s').
Proof.
  revert changed w s. induction kwargs as [|f l IH]; intros changed w s Hs; cbv zeta.
  - exists s. split; [exact Hs|]. split; [apply st_sim_refl|apply impl_sim_refl].
  - cbn [update_fields]. rewrite Hs.
    destruct (field_differs (st s) f) eqn:Hd.
    + set (w1 := alter_source (fun s => with_st (field_set (st s) f) s) n w) in *.
      set (w2 := handle_source_state_change env n (field_key f) (field_value f) w1) in *.
      assert (H1 : sources w1 !! n = Some (with_st (field_set (st s) f) s)).
      { unfold w1. simpl. rewrite lookup_alter. case_decide; [|congruence]. rewrite Hs. reflexivity. }
      pose proof (handled_sources _ _ (handle_source_state_change_handled env n (field_key f)
                    (field_value f) w1) n) as H2.
      fold w2 in H2. rewrite H1 in H2.
      inversion H2 as [x s2 [Hst Him] Hx Hs2|]; subst x.
      symmetry in Hs2.
      destruct (IH true w2 s2 Hs2) as (s' & Hs' & Hst' & Him').
      exists s'. split; [exact Hs'|]. split.
      * eapply st_sim_trans; [exact Hst'|]. simpl.
        apply fold_field_set_sim. apply st_sim_trans with (st (with_st (field_set (st s) f) s)).
        -- unfold st_sim in *. intuition congruence.
        -- apply st_sim_refl.
      * eapply impl_sim_trans; [exact Him|exact Him'].
    + destruct (IH changed w s Hs) as (s' & Hs' & Hst' & Him').
      exists s'. split; [exact Hs'|]. split; [|exact Him'].
      eapply st_sim_trans; [exact Hst'|]. simpl.
      apply fold_field_set_sim, field_same_sim, Hd.
Qed.

(** ** External volume changes *)

(** What [_handle_external_volume] does, for every mixer: the job of the
    source, when there is one, stays in the table with [active] cleared;
    the sources are not touched and the only call is the notification. *)
Lemma external_volume_effect n v w :
  let w' := handle_external_volume n v w in
  slew_state w' !! n = deactivate <$> slew_state w !! n
  /\ dom (slew_state w') = dom (slew_state w)
  /\ sources w' = sources w
  /\ threads w' = threads w
  /\ trace w' = (trace w ++ if on_state_change w then [EPublish n "volume" (VInt v)] else [])%list.
Proof.
  unfold handle_external_volume, publish, stop_slew. simpl.
  assert (Hl : alter deactivate n (slew_state w) !! n = deactivate <$> slew_state w !! n).
  { rewrite lookup_alter. case_decide; [reflexivity|congruence]. }
  assert (Hd : dom (alter deactivate n (slew_state w)) = dom (slew_state w)).
  { apply dom_alter_L. }
  destruct (on_state_change w); simpl; repeat split; auto using app_nil_r.
Qed.

(** C2, at a ramp in flight: the external-volume handler republishes the
    volume and does not call [set_volume], but the slew-job table still
    has the entry of the source, only marked inactive.  The thread then
    ends without removing it, and a later [set_source_volume] retargets
    the dead job, starts no thread and returns success: the volume is
    never applied. *)
Theorem external_volume_leaves_dead_job :
  let w1 := handle_external_volume "airplay" 70 ramping in
  let w2 := slew_thread_step (env_ok 2) 0 w1 in
  let r := set_source_volume (env_ok 3) "airplay" 20 true w2 in
  (active <$> slew_state ramping !! "airplay" = Some true
   /\ th_name <$> threads ramping = ["airplay"])
  /\ (slew_state w1 !! "airplay" <> None
      /\ active <$> slew_state w1 !! "airplay" = Some false
      /\ trace w1 = (trace ramping ++ [EPublish "airplay" "volume" (VInt 70)])%list
      /\ set_volume_calls "airplay" w1 = set_volume_calls "airplay" ramping)
  /\ (threads w2 = [] /\ slew_state w2 !! "airplay" = slew_state w1 !! "airplay")
  /\ (snd r = true
      /\ threads (fst r) = []
      /\ target <$> slew_state (fst r) !! "airplay" = Some 20
      /\ active <$> slew_state (fst r) !! "airplay" = Some false
      /\ trace (fst r) = trace w2
      /\ get_volume "airplay" (fst r) = get_volume "airplay" w2).
Proof.
  cbv zeta. split; [split; reflexivity|]. split.
  - split; [|repeat split].
    intros H. apply (f_equal (fmap active)) in H. vm_compute in H. discriminate H.
  - split; [split; reflexivity|]. repeat split.
Qed.

(** ** The range of the stored volume *)

(** C5, at a sink-input that PulseAudio reports at 150 %: the polling
    steps of the three sources store the volume they read, 150, while the
    [set_volume] paths clamp to [0,100]. *)
Theorem poll_stores_unclamped_volume :
  get_volume "tv" (tv_poll_state (env_loud 1000) "tv" mixer0) = Some 150
  /\ get_volume "spotify" (spotify_poll_state (env_loud 1000) "spotify" mixer0) = Some 150
  /\ get_volume "airplay" (airplay_poll_state (env_loud 1000) "airplay" mixer0) = Some 150
  /\ get_volume "tv" (fst (set_volume (env_loud 1000) "tv" 150 mixer0)) = Some 100.
Proof. repeat split. Qed.

(** ** The default-volume policy *)

Lemma filter_quiet_set_volume n added :
  forallb quiet added = true -> List.filter (is_set_volume_of n) added = [].
Proof.
  induction added as [|e l IH]; [reflexivity|]. simpl.
  intros H. apply andb_true_iff in H as [He Hl]. rewrite (IH Hl).
  destruct e; try discriminate He; reflexivity.
Qed.

Lemma trace_publish n k v w :
  trace (publish n k v w) = (trace w ++ if on_state_change w then [EPublish n k v] else [])%list.
Proof. unfold publish. destruct (on_state_change w); simpl; [reflexivity|]. symmetry. apply app_nil_r. Qed.

Lemma publish_rest n k v w :
  slew_state (publish n k v w) = slew_state w /\ was_active (publish n k v w) = was_active w
  /\ sources (publish n k v w) = sources w /\ threads (publish n k v w) = threads w.
Proof. unfold publish. destruct (on_state_change w); repeat split. Qed.

(** The trace of [src.set_volume(default_vol)] followed by the
    notification: the call, quiet calls to PulseAudio and MPRIS and the
    source's own notification, then the mixer's notification. *)
Lemma apply_default_trace env n w :
  is_Some (sources w !! n) ->
  let d := default 15 (default_volumes w !! n) in
  exists mid, forallb quiet mid = true
    /\ trace (apply_default env n w)
       = (trace w ++ ESetVolume n d :: mid
            ++ if on_state_change w then [EPublish n "volume" (VInt d)] else [])%list
    /\ slew_state (apply_default env n w) = slew_state w
    /\ was_active (apply_default env n w) = was_active w.
Proof.
  intros Hs d. unfold apply_default. fold d.
  destruct (set_volume_keeps env n d w Hs) as [P A S T R (mid & E & Q)].
  exists mid. split; [exact Q|]. rewrite trace_publish.
  destruct P as (P1 & _). rewrite P1. simpl in *. rewrite E, <- app_assoc. simpl.
  destruct (publish_rest n "volume" (VInt d) (fst (set_volume env n d w))) as (-> & -> & _).
  repeat split; [|exact S|exact A].
  rewrite <- app_assoc. reflexivity.
Qed.

Lemma set_volume_calls_app n w w' added :
  trace w' = (trace w ++ added)%list ->
  set_volume_calls n w' = (set_volume_calls n w ++ List.filter (is_set_volume_of n) added)%list.
Proof. intros H. unfold set_volume_calls. rewrite H. apply List.filter_app. Qed.

Lemma filter_publish n m k v (b : bool) :
  List.filter (is_set_volume_of n) (if b then [EPublish m k v] else []) = [].
Proof. destruct b; reflexivity. Qed.

(** One ["state"] notification calls [set_volume] once on an edge that
    asks for the default volume, and not at all otherwise. *)
Lemma handle_state_calls env n value w :
  is_Some (sources w !! n) ->
  let act := is_playing value in
  let was := default false (was_active w !! n) in
  set_volume_calls n (handle_source_state_change env n "state" value w)
  = (set_volume_calls n w
     ++ repeat (ESetVolume n (default 15 (default_volumes w !! n)))
          (if act && negb was then 1 else if was && negb act && reset_on_stop w then 1 else 0))%list.
Proof.
  intros Hs act was. unfold handle_source_state_change. simpl String.eqb. cbv iota.
  fold act. fold was.
  destruct Hs as [s Hs].
  destruct (act && negb was) eqn:Hrise.
  - rewrite Hs.
    destruct (apply_default_trace env n (emit (ESleep (3 # 10)%Q) w)) as (mid & Q & E & _).
    { simpl. rewrite Hs. eauto. }
    eapply eq_trans; [eapply set_volume_calls_app|].
    { rewrite trace_publish. simpl. rewrite E. simpl. rewrite <- !app_assoc. reflexivity. }
    f_equal. simpl. rewrite String.eqb_refl. simpl. f_equal.
    rewrite !List.filter_app, (filter_quiet_set_volume n mid Q), !filter_publish. reflexivity.
  - destruct (was && negb act) eqn:Hfall; simpl.
    + destruct (reset_on_stop w) eqn:Hr; simpl.
      * rewrite Hs.
        destruct (apply_default_trace env n (stop_slew n w)) as (mid & Q & E & _).
        { simpl. rewrite Hs. eauto. }
        eapply eq_trans; [eapply set_volume_calls_app|].
        { rewrite trace_publish. simpl. rewrite E. simpl. rewrite <- !app_assoc. reflexivity. }
        f_equal. simpl. rewrite String.eqb_refl. simpl. f_equal.
        rewrite !List.filter_app, (filter_quiet_set_volume n mid Q), !filter_publish. reflexivity.
      * eapply eq_trans; [eapply set_volume_calls_app|].
        { rewrite trace_publish. simpl. reflexivity. }
        rewrite filter_publish. reflexivity.
    + eapply eq_trans; [eapply set_volume_calls_app|].
      { rewrite trace_publish. simpl. reflexivity. }
      rewrite filter_publish. reflexivity.
Qed.





(** ** One ramp per source *)

Lemma slew_inv_ext w w' :
  threads w' = threads w ->
  (forall n, is_Some (slew_state w !! n) -> is_Some (slew_state w' !! n)) ->
  slew_inv w -> slew_inv w'.
Proof.
  intros Ht Hs [Hnd Hin]. unfold slew_inv, thread_names in *. rewrite Ht.
  split; [exact Hnd|]. intros n Hn. apply Hs, Hin, Hn.
Qed.

Lemma slew_inv_handled w w' : handled w w' -> slew_inv w -> slew_inv w'.
Proof.
  intros [_ S T _ _]. apply slew_inv_ext; [exact T|].
  intros n [j Hj]. specialize (S n). rewrite Hj in S. inversion S. eauto.
Qed.

Lemma slew_inv_insert n j w :
  slew_inv w -> slew_inv (with_slew_state (<[n := j]> (slew_state w)) w).
Proof.
  apply slew_inv_ext; [reflexivity|].
  intros m Hm. simpl. destruct (decide (n = m)) as [->|Hne].
  - rewrite lookup_insert_eq. eauto.
  - rewrite lookup_insert_ne by exact Hne. exact Hm.
Qed.

Lemma slew_inv_set_thread_pc i pc w : slew_inv w -> slew_inv (set_thread_pc i pc w).
Proof.
  intros [Hnd Hin]. unfold slew_inv, thread_names, set_thread_pc in *. simpl.
  assert (E : th_name <$> alter (fun th => mkSlewThread (th_name th) pc) i (threads w)
              = th_name <$> threads w).
  { rewrite (list_fmap_alter th_name _ id).
    - generalize (th_name <$> threads w). intros l. revert i.
      induction l as [|x l IH]; intros [|i]; simpl; try reflexivity. f_equal. apply IH.
    - apply Forall_forall. intros x _. reflexivity. }
  rewrite E. split; assumption.
Qed.

Lemma not_elem_of_delete_NoDup (l : list string) i n :
  NoDup l -> l !! i = Some n -> n ∉ delete i l.
Proof.
  revert i. induction l as [|x l IH]; intros i Hnd Hi; [discriminate Hi|].
  apply NoDup_cons in Hnd as [Hx Hnd].
  destruct i as [|i]; simpl in *.
  - injection Hi as ->. exact Hx.
  - intros Hn. apply elem_of_cons in Hn as [->|Hn].
    + apply Hx. eapply list_elem_of_lookup_2. exact Hi.
    + exact (IH i Hnd Hi Hn).
Qed.

(** A thread ends: alone, or after removing the job of its source. *)
Lemma slew_inv_remove_thread i w : slew_inv w -> slew_inv (remove_thread i w).
Proof.
  intros [Hnd Hin]. unfold slew_inv, thread_names, remove_thread in *. simpl.
  rewrite list_fmap_delete. split.
  - eapply sublist_NoDup; [exact Hnd|apply sublist_delete].
  - intros n Hn. apply Hin. eapply elem_of_sublist; [exact Hn|apply sublist_delete].
Qed.

Lemma slew_inv_remove_thread_and_job i th w :
  threads w !! i = Some th ->
  slew_inv w ->
  slew_inv (remove_thread i (with_slew_state (delete (th_name th) (slew_state w)) w)).
Proof.
  intros Hi [Hnd Hin]. unfold slew_inv, thread_names, remove_thread in *. simpl.
  rewrite list_fmap_delete. split.
  - eapply sublist_NoDup; [exact Hnd|apply sublist_delete].
  - intros n Hn.
    assert (Hne : th_name th <> n).
    { intros <-. revert Hn. apply not_elem_of_delete_NoDup; [exact Hnd|].
      rewrite list_lookup_fmap, Hi. reflexivity. }
    rewrite lookup_delete_ne by exact Hne.
    apply Hin. eapply elem_of_sublist; [exact Hn|apply sublist_delete].
Qed.

Lemma slew_inv_start_slew n tgt w : slew_inv w -> slew_inv (start_slew n tgt w).
Proof.
  intros Hinv. unfold start_slew.
  destruct (sources w !! n) as [s|]; [|exact Hinv].
  destruct (Z.eqb (volume (st s)) tgt); [exact Hinv|].
  destruct (slew_state w !! n) as [j|] eqn:Hj.
  - apply slew_inv_insert, Hinv.
  - destruct Hinv as [Hnd Hin]. unfold slew_inv, thread_names in *. simpl.
    rewrite fmap_app. simpl. split.
    + apply NoDup_app. split; [exact Hnd|]. split; [|apply NoDup_singleton].
      intros x Hx Hx'. apply list_elem_of_singleton in Hx'. subst x.
      destruct (Hin n Hx) as [j' Hj']. congruence.
    + intros m Hm. destruct (decide (n = m)) as [->|Hne].
      * rewrite lookup_insert_eq. eauto.
      * rewrite lookup_insert_ne by exact Hne. apply Hin.
        apply elem_of_app in Hm as [Hm|Hm]; [exact Hm|].
        apply list_elem_of_singleton in Hm. congruence.
Qed.

Lemma slew_inv_set_source_volume env n v s w :
  slew_inv w -> slew_inv (fst (set_source_volume env n v s w)).
Proof.
  intros Hinv. unfold set_source_volume.
  destruct (sources w !! n); [|exact Hinv].
  destruct (negb s || Z.leb (slew_rate w) 0).
  - eapply slew_inv_handled; [apply handled_set_volume|exact Hinv].
  - apply slew_inv_start_slew, Hinv.
Qed.

Lemma slew_inv_thread_step env i w : slew_inv w -> slew_inv (slew_thread_step env i w).
Proof.
  intros Hinv. unfold slew_thread_step.
  destruct (threads w !! i) as [th|] eqn:Hi; [|exact Hinv].
  destruct (th_pc th) as [|new_vol tgt].
  - destruct (negb (running w)); [apply slew_inv_remove_thread, Hinv|].
    destruct (slew_state w !! th_name th) as [j|]; [|apply slew_inv_remove_thread, Hinv].
    destruct (negb (active j)); [apply slew_inv_remove_thread, Hinv|].
    destruct (Qltb (current j) (inject_Z (target j))).
    { apply slew_inv_set_thread_pc, slew_inv_insert, Hinv. }
    destruct (Qltb (inject_Z (target j)) (current j)).
    { apply slew_inv_set_thread_pc, slew_inv_insert, Hinv. }
    apply slew_inv_remove_thread_and_job; assumption.
  - set (w1 := publish (th_name th) "volume" (VInt (py_round new_vol))
                 (fst (set_volume env (th_name th) (py_round new_vol) w))).
    assert (H1 : handled w w1).
    { eapply handled_trans; [apply handled_set_volume|apply keeps_handled, keeps_publish]. }
    assert (Hinv1 : slew_inv w1) by (eapply slew_inv_handled; eassumption).
    destruct (Qltb _ _).
    + apply slew_inv_remove_thread_and_job; [|exact Hinv1].
      rewrite (handled_threads _ _ H1). exact Hi.
    + apply slew_inv_set_thread_pc.
      eapply slew_inv_handled; [apply (handled_emit (ESleep step_interval)); reflexivity|].
      exact Hinv1.
Qed.

Lemma slew_inv_run_op w eo : slew_inv w -> slew_inv (run_op w eo).
Proof.
  intros Hinv. unfold run_op. destruct (snd eo).
  - apply slew_inv_set_source_volume, Hinv.
  - apply slew_inv_thread_step, Hinv.
  - eapply slew_inv_handled; [apply handled_external_volume|exact Hinv].
  - eapply slew_inv_handled; [apply handle_source_state_change_handled|exact Hinv].
Qed.

Lemma slew_inv_run sched w : slew_inv w -> slew_inv (run sched w).
Proof.
  revert w. induction sched as [|eo sched IH]; intros w Hinv; [exact Hinv|].
  simpl. apply IH, slew_inv_run_op, Hinv.
Qed.

Lemma slew_inv_new cb master defaults reset rate time0 :
  slew_inv (mixer_start (new_Mixer cb master defaults reset rate time0)).
Proof.
  split; simpl.
  - apply NoDup_nil. exact I.
  - intros n Hn. unfold thread_names in Hn. simpl in Hn. apply elem_of_nil in Hn. destruct Hn.
Qed.

Lemma threads_of_NoDup n (l : list SlewThread) :
  NoDup (th_name <$> l) ->
  (length (List.filter (fun th => String.eqb (th_name th) n) l) <= 1)%nat
  /\ (List.filter (fun th => String.eqb (th_name th) n) l <> [] -> n ∈ th_name <$> l).
Proof.
  induction l as [|th l IH]; intros Hnd; simpl.
  - split; [lia|congruence].
  - rewrite fmap_cons in Hnd. apply NoDup_cons in Hnd as [Hx Hnd].
    destruct (IH Hnd) as [IH1 IH2].
    destruct (String.eqb_spec (th_name th) n) as [Heq|Hne]; simpl.
    + subst n. split; [|intros _; apply elem_of_cons; left; reflexivity].
      destruct (List.filter _ l) eqn:Hf; [simpl; lia|].
      exfalso. apply Hx, IH2. congruence.
    + split; [exact IH1|]. intros H. apply elem_of_cons. right. apply IH2, H.
Qed.

(** A new target while a job is in the table. *)
Lemma retarget_in_flight env n v j w :
  slew_state w !! n = Some j ->
  0 < slew_rate w ->
  let c := clamp 0 100 v in
  let r := set_source_volume env n v true w in
  threads (fst r) = threads w
  /\ sources (fst r) = sources w
  /\ trace (fst r) = trace w
  /\ dom (slew_state (fst r)) = dom (slew_state w)
  /\ match get_volume n w with
     | Some cur =>
       snd r = true
       /\ slew_state (fst r)
          = if Z.eqb cur c then slew_state w else <[n := retarget c j]> (slew_state w)
     | None => r = (w, false)
     end.
Proof.
  intros Hj Hrate c r. unfold r, set_source_volume, get_volume.
  destruct (sources w !! n) as [s|] eqn:Hs; simpl; [|repeat split].
  assert (Hr : Z.leb (slew_rate w) 0 = false) by (apply Z.leb_gt; lia).
  rewrite Hr. simpl. unfold start_slew. rewrite Hs, Hj. fold c.
  destruct (Z.eqb (volume (st s)) c); simpl; repeat split.
  apply dom_insert_lookup_L. eauto.
Qed.

(** C1: in every state that a constructed and started mixer reaches
    through [set_source_volume] calls, steps of its slew threads, external
    volume changes and notifications of its sources, in any order, a
    source has at most one live slew thread, and that thread has its job in
    the table (which, being keyed by the source, holds at most one job for
    it).  When the job of the source is in the table, a further
    [set_source_volume] starts no thread, leaves the sources and the trace
    alone and adds no entry: the table changes in the [target] of that job
    only (and not at all when the source already is at the requested
    volume). *)
Theorem one_ramp_per_source (cb : bool) (master : Z) (defaults : option (gmap string Z))
    (reset : bool) (rate : Z) (time0 : Q) (sched : list (Env * Op))
    (n : string) (env : Env) (v : Z) :
  let w := run sched (mixer_start (new_Mixer cb master defaults reset rate time0)) in
  (length (threads_of n w) <= 1)%nat
  /\ (threads_of n w <> [] -> is_Some (slew_state w !! n))
  /\ forall j, slew_state w !! n = Some j -> 0 < slew_rate w ->
     let c := clamp 0 100 v in
     let r := set_source_volume env n v true w in
     threads (fst r) = threads w
     /\ sources (fst r) = sources w
     /\ trace (fst r) = trace w
     /\ dom (slew_state (fst r)) = dom (slew_state w)
     /\ match get_volume n w with
        | Some cur =>
          snd r = true
          /\ slew_state (fst r)
             = if Z.eqb cur c then slew_state w else <[n := retarget c j]> (slew_state w)
        | None => r = (w, false)
        end.
Proof.
  intros w.
  assert (Hinv : slew_inv w) by apply slew_inv_run, slew_inv_new.
  destruct Hinv as [Hnd Hin].
  destruct (threads_of_NoDup n (threads w) Hnd) as [H1 H2].
  split; [exact H1|]. split.
  - intros H. apply Hin, H2, H.
  - intros j Hj Hrate. apply retarget_in_flight; assumption.
Qed.

Lemma one_ramp_per_source_witness :
  let sched := [(env_ok 1, OpSetSourceVolume "airplay" 50 true); (env_ok 1, OpThreadStep 0%nat)] in
  let w := run sched (mixer_start (new_Mixer true 50 None true 25 0)) in
  let r := set_source_volume (env_ok 2) "airplay" 80 true w in
  (target <$> slew_state w !! "airplay" = Some 50 /\ 0 < slew_rate w)
  /\ threads (fst r) = threads w
  /\ target <$> slew_state (fst r) !! "airplay" = Some 80
  /\ dom (slew_state (fst r)) = dom (slew_state w).
Proof.
  cbv zeta.
  set (w := run [(env_ok 1, OpSetSourceVolume "airplay" 50 true); (env_ok 1, OpThreadStep 0%nat)]
              (mixer_start (new_Mixer true 50 None true 25 0))).
  assert (Hrate : 0 < slew_rate w) by reflexivity.
  destruct (slew_state w !! "airplay") as [j|] eqn:Hj; [|vm_compute in Hj; discriminate Hj].
  assert (Ht : target j = 50).
  { assert (H : target <$> slew_state w !! "airplay" = Some 50) by reflexivity.
    rewrite Hj in H. injection H as H. exact H. }
  destruct (one_ramp_per_source true 50 None true 25 0
              [(env_ok 1, OpSetSourceVolume "airplay" 50 true); (env_ok 1, OpThreadStep 0%nat)]
              "airplay" (env_ok 2) 80) as (_ & _ & H).
  fold w in H. destruct (H j Hj Hrate) as (H1 & _ & _ & H4 & H5).
  split; [split; [simpl; f_equal; exact Ht|exact Hrate]|].
  split; [exact H1|]. split; [|exact H4].
  assert (Hv : get_volume "airplay" w = Some 100) by reflexivity.
  rewrite Hv in H5. destruct H5 as [_ H5]. rewrite H5. simpl.
  rewrite lookup_insert_eq. reflexivity.
Defined.

(** ** The polling step of the television *)

Lemma mute_calls_handled w w' : handled w w' -> mute_calls w' = mute_calls w.
Proof.
  intros [_ _ _ _ (added & E & Q)]. unfold mute_calls. rewrite E, List.filter_app.
  assert (H : List.filter is_mute_call added = []).
  { clear E. induction added as [|e l IH]; [reflexivity|]. simpl in *.
    apply andb_true_iff in Q as [He Hl]. apply negb_true_iff in He. rewrite He. apply IH, Hl. }
  rewrite H. apply app_nil_r.
Qed.

Lemma update_fields_mute_calls env n kwargs changed w :
  mute_calls (fst (update_fields (handle_source_state_change env) n kwargs changed w))
  = mute_calls w.
Proof.
  revert changed w. induction kwargs as [|f l IH]; intros changed w; [reflexivity|].
  cbn [update_fields]. destruct (sources w !! n) as [s|]; [|reflexivity].
  destruct (field_differs (st s) f); [|apply IH].
  rewrite IH.
  etransitivity; [apply mute_calls_handled, handle_source_state_change_handled|reflexivity].
Qed.

(** [_update_state] of a source of the mixer: the attributes other than
    the volume are those of the keywords, the subclass attributes other
    than its volume bookkeeping are kept, and nothing is muted. *)
Lemma update_state_spec env n kwargs w s :
  sources w !! n = Some s ->
  exists s', sources (update_state env n kwargs w) !! n = Some s'
    /\ st_sim (st s') (fold_left field_set kwargs (st s))
    /\ impl_sim (impl s) (impl s')
    /\ mute_calls (update_state env n kwargs w) = mute_calls w.
Proof.
  intros Hs. unfold update_state, update_state_with.
  pose proof (update_fields_handled env n kwargs false w s Hs) as (s' & Hs' & Hst & Him).
  pose proof (update_fields_mute_calls env n kwargs false w) as Hm.
  destruct (update_fields _ n kwargs false w) as [w1 c]. simpl in *.
  destruct c.
  - exists (with_st (touch (now env) (st s')) s'). split; [|split; [|split]].
    + simpl. rewrite lookup_alter. case_decide; [|congruence]. rewrite Hs'. reflexivity.
    + eapply st_sim_trans; [|exact Hst]. repeat split.
    + exact Him.
    + exact Hm.
  - exists s'. split; [|split; [|split]]; assumption.
Qed.

Lemma lookup_alter_source f n w s :
  sources w !! n = Some s -> sources (alter_source f n w) !! n = Some (f s).
Proof.
  intros Hs. unfold alter_source. simpl. rewrite lookup_alter. case_decide; [|congruence].
  rewrite Hs. reflexivity.
Qed.

Lemma lookup_alter_tv f n w s t :
  sources w !! n = Some s -> impl s = TVImpl t ->
  sources (alter_tv f n w) !! n = Some (with_impl (TVImpl (f t)) s).
Proof.
  intros Hs Hi. unfold alter_tv. rewrite (lookup_alter_source _ n w s Hs), Hi. reflexivity.
Qed.

Lemma update_state_tv env w s t x vol mute lvl ldb :
  sources w !! "tv" = Some s ->
  impl s = TVImpl t ->
  let w' := update_state env "tv" [FState x; FVolume vol; FMuted mute; FLevel lvl; FLevelDb ldb] w in
  exists s' t', sources w' !! "tv" = Some s' /\ impl s' = TVImpl t'
    /\ with_volume_set_time 0 t' = with_volume_set_time 0 t
    /\ state (st s') = x /\ muted (st s') = mute /\ level (st s') = lvl
    /\ mute_calls w' = mute_calls w.
Proof.
  intros Hs Hi w'.
  destruct (update_state_spec env "tv" [FState x; FVolume vol; FMuted mute; FLevel lvl; FLevelDb ldb]
              w s Hs) as (s' & Hs' & Hst & Him & Hm).
  fold w' in Hs', Hm. rewrite Hi in Him.
  destruct (impl s') as [| |t'] eqn:Hi'; simpl in Him; try contradiction.
  exists s', t'. simpl in Hst. destruct Hst as (_ & H2 & H3 & H4 & _).
  repeat split; try assumption. symmetry. exact Him.
Qed.


Ltac pose_update_state_tv Hs Hi H :=
  match goal with
  | |- context [update_state ?env "tv"
                  [FState ?x; FVolume ?v; FMuted ?m; FLevel ?l; FLevelDb ?d] ?ww] =>
    pose proof (update_state_tv env ww _ _ x v m l d Hs Hi) as H
  end.

Ltac finish_poll H :=
  let s' := fresh "s'" in
  let t' := fresh "t'" in
  let H1 := fresh in let H2 := fresh in let H3 := fresh in let H4 := fresh in
  let H5 := fresh in let H6 := fresh in let H7 := fresh in
  destruct H as (s' & t' & H1 & H2 & H3 & H4 & H5 & H6 & H7);
  exists s', t';
  split; [exact H1|]; split; [exact H2|]; split; [exact H3|]; split; [exact H4|];
  split; [exact H5|]; split; [rewrite H5; exact H6|]; rewrite H7.

(** One polling step that finds the sink-input [id] of the pipeline and
    its info: what it reports, what it leaves of the television's own
    attributes, and the mute call it makes. *)
Lemma tv_poll_spec env w s t id info :
  sources w !! "tv" = Some s ->
  impl s = TVImpl t ->
  pa_find env "gst-launch" = Some id ->
  truthy (Some id) = true ->
  pa_info env "gst-launch" = Some info ->
  let w' := tv_poll_state env "tv" w in
  exists s' t', sources w' !! "tv" = Some s' /\ impl s' = TVImpl t'
    /\ with_volume_set_time 0 t'
       = with_volume_set_time 0 (with_silence_muted (poll_silence_muted env t) t)
    /\ state (st s') = poll_state env t
    /\ muted (st s')
       = (if Qltb (set_debounce t) (now env - mute_set_time t)%Q
          then default false (si_muted info) || user_muted t || poll_silence_muted env t
          else muted (st s))
    /\ level (st s') = (if muted (st s') then 0 else level_of_db (current_level_db t))
    /\ mute_calls w'
       = (mute_calls w ++ match poll_mute env t with
                          | Some b => [EPaSetMute id b]
                          | None => []
                          end)%list.
Proof.
  intros Hs Hi Hfind Htruthy Hinfo w'. unfold w', tv_poll_state.
  set (w0 := alter_source (with_sink_input_id (pa_find env "gst-launch")) "tv" w).
  assert (Hs0 : sources w0 !! "tv" = Some (with_sink_input_id (Some id) s)).
  { unfold w0. rewrite (lookup_alter_source _ "tv" w s Hs), Hfind. reflexivity. }
  rewrite Hs0. cbn [impl with_sink_input_id sink_input_id st]. rewrite Hi, Htruthy, Hinfo.
  unfold poll_state, poll_silence_muted, poll_mute.
  assert (Hm0 : mute_calls w0 = mute_calls w) by reflexivity.
  set (vol := if Qltb (set_debounce t) (now env - volume_set_time t)%Q
              then default 100 (si_volume info) else volume (st s)).
  destruct (silence_of env t) eqn:Hsil.
  - destruct (auto_mute_enabled t && silence_muted t) eqn:Hc.
    + cbn [fst set_sink_input_mute].
      apply andb_true_iff in Hc as [_ Hsm]. rewrite Hsm. simpl negb.
      set (w2 := alter_tv (with_silence_muted false) "tv" (emit (EPaSetMute id (user_muted t)) w0)).
      assert (Hs2 : sources w2 !! "tv"
                    = Some (with_impl (TVImpl (with_silence_muted false t))
                              (with_sink_input_id (Some id) s))).
      { unfold w2. apply lookup_alter_tv; [exact Hs0|exact Hi]. }
      pose_update_state_tv Hs2 (eq_refl (TVImpl (with_silence_muted false t))) Hupd.
      finish_poll Hupd.
      unfold w2, mute_calls. simpl. rewrite List.filter_app. reflexivity.
    + pose_update_state_tv Hs0 Hi Hupd. finish_poll Hupd.
      rewrite Hm0. symmetry. apply app_nil_r.
  - pose_update_state_tv Hs0 Hi Hupd. finish_poll Hupd.
    rewrite Hm0. symmetry. apply app_nil_r.
  - destruct (auto_mute_enabled t && negb (silence_muted t) && negb (user_muted t)) eqn:Hc.
    + cbn [fst set_sink_input_mute].
      apply andb_true_iff in Hc as [Hc _]. apply andb_true_iff in Hc as [_ Hsm].
      apply negb_true_iff in Hsm. rewrite Hsm. simpl negb.
      set (w2 := alter_tv (with_silence_muted true) "tv" (emit (EPaSetMute id true) w0)).
      assert (Hs2 : sources w2 !! "tv"
                    = Some (with_impl (TVImpl (with_silence_muted true t))
                              (with_sink_input_id (Some id) s))).
      { unfold w2. apply lookup_alter_tv; [exact Hs0|exact Hi]. }
      pose_update_state_tv Hs2 (eq_refl (TVImpl (with_silence_muted true t))) Hupd.
      finish_poll Hupd.
      unfold w2, mute_calls. simpl. rewrite List.filter_app. reflexivity.
    + pose_update_state_tv Hs0 Hi Hupd. finish_poll Hupd.
      rewrite Hm0. symmetry. apply app_nil_r.
Qed.

(** ** The level reported by the television *)

Lemma tv_of_spec w t :
  tv_of w = Some t <-> exists s, sources w !! "tv" = Some s /\ impl s = TVImpl t.
Proof.
  unfold tv_of. split.
  - destruct (sources w !! "tv") as [s|]; [|discriminate].
    destruct (impl s) eqn:Hi; try discriminate. intros [= ->]. eauto.
  - intros (s & -> & ->). reflexivity.
Qed.

Lemma poll_reaches_level_spec env :
  poll_reaches_level env = true ->
  exists id info, pa_find env "gst-launch" = Some id /\ truthy (Some id) = true
                  /\ pa_info env "gst-launch" = Some info.
Proof.
  unfold poll_reaches_level. intros H. apply andb_true_iff in H as [H1 H2].
  apply bool_decide_eq_true in H2 as [info Hinfo].
  destruct (pa_find env "gst-launch") as [id|]; [|discriminate H1].
  exists id, info. auto.
Qed.

(** After the clamp, truncating toward zero and rounding down agree. *)
Lemma clamp_trunc_floor (x : Q) : clamp 0 100 (py_int_of_float x) = clamp 0 100 (Qfloor x).
Proof.
  unfold py_int_of_float, Qfloor, clamp. destruct x as [n d]. simpl.
  destruct (Z_lt_le_dec n 0) as [Hn|Hn].
  - assert (H1 : n / Z.pos d < 0) by (apply Z.div_lt_upper_bound; lia).
    assert (H2 : n ÷ Z.pos d <= 0).
    { replace n with (- (- n)) by lia. rewrite Z.quot_opp_l by lia.
      assert (0 <= (- n) ÷ Z.pos d) by (apply Z.quot_pos; lia). lia. }
    lia.
  - rewrite Z.quot_div_nonneg by lia. reflexivity.
Qed.

(** C7, the claim as stated, at two polling steps.  At a level of -49.1 dB
    with no mute the mapping gives 1.8 and the reported level is 1, not the
    rounded 2.  And a polling step that finds no sink-input reports level 0
    for a source that is playing at -10 dB (mapping: 80) and not muted. *)
Lemma level_is_truncated :
  let w := meter_step (env_ok 1000) (-491 # 10) "tv" mixer0 in
  let w' := tv_poll_state (env_ok 1000) "tv" w in
  let v := tv_poll_state (env_ok 1001) "tv" (meter_step (env_ok 1001) (-10) "tv" w') in
  let v' := tv_poll_state (env_absent 1002) "tv" v in
  (fun s => (muted (st s), level (st s))) <$> sources w' !! "tv" = Some (false, 1)
  /\ clamp 0 100 (py_round (((-491 # 10) + 50) * 2)%Q) = 2
  /\ (fun s => (state (st s), muted (st s), level (st s))) <$> sources v !! "tv"
     = Some (PLAYING, false, 80)
  /\ current_level_db <$> tv_of v' = Some (-10)%Q
  /\ (fun s => (muted (st s), level (st s))) <$> sources v' !! "tv" = Some (false, 0).
Proof. cbv zeta. repeat split. Qed.

(** C7, amended: a polling step that finds the sink-input of the pipeline
    and its info reports the level [clamp 0 100 (int ((db + 50) * 2))],
    where [int] truncates toward zero (after the clamp, the same as rounding
    down), forced to 0 when the effective mute it reports is true; the
    effective mute is the just-set value inside the debounce window and
    otherwise the observed mute or the user mute or the silence mute.  A
    polling step that finds no sink-input reports Idle, with level 0 unless
    the source was Idle already. *)
Theorem tv_level_mapping (env : Env) (w : Mixer) (s : Source) (t : TVState) :
  sources w !! "tv" = Some s ->
  impl s = TVImpl t ->
  let w' := tv_poll_state env "tv" w in
  let db := current_level_db t in
  (poll_reaches_level env = true ->
   exists s' info, pa_info env "gst-launch" = Some info
     /\ sources w' !! "tv" = Some s'
     /\ muted (st s')
        = (if Qltb (set_debounce t) (now env - mute_set_time t)%Q
           then default false (si_muted info) || user_muted t || poll_silence_muted env t
           else muted (st s))
     /\ level (st s')
        = (if muted (st s') then 0 else clamp 0 100 (py_int_of_float ((db + 50) * 2)%Q))
     /\ clamp 0 100 (py_int_of_float ((db + 50) * 2)%Q) = clamp 0 100 (Qfloor ((db + 50) * 2)%Q)
     /\ 0 <= level (st s') <= 100)
  /\ (truthy (pa_find env "gst-launch") = false ->
      exists s', sources w' !! "tv" = Some s'
        /\ state (st s') = IDLE
        /\ level (st s') = if PlaybackState_eqb (state (st s)) IDLE then level (st s) else 0).
Proof.
  intros Hs Hi w' db. split.
  - intros Hreach.
    destruct (poll_reaches_level_spec env Hreach) as (id & info & Hfind & Htruthy & Hinfo).
    destruct (tv_poll_spec env w s t id info Hs Hi Hfind Htruthy Hinfo)
      as (s' & t' & H1 & _ & _ & _ & H5 & H6 & _).
    exists s', info. split; [exact Hinfo|]. split; [exact H1|]. split; [exact H5|].
    split; [exact H6|]. split; [apply clamp_trunc_floor|].
    rewrite H6. destruct (muted (st s')); [lia|apply clamp_range].
  - intros Habsent. unfold w', tv_poll_state.
    set (w0 := alter_source (with_sink_input_id (pa_find env "gst-launch")) "tv" w).
    assert (Hs0 : sources w0 !! "tv" = Some (with_sink_input_id (pa_find env "gst-launch") s)).
    { unfold w0. apply lookup_alter_source, Hs. }
    rewrite Hs0. cbn [impl with_sink_input_id sink_input_id st]. rewrite Hi.
    assert (Hgoal : exists s', sources (if negb (PlaybackState_eqb (state (st s)) IDLE)
                   then update_state env "tv" [FState IDLE; FLevel 0] w0 else w0) !! "tv" = Some s'
                 /\ state (st s') = IDLE
                 /\ level (st s') = if PlaybackState_eqb (state (st s)) IDLE then level (st s) else 0).
    { destruct (PlaybackState_eqb (state (st s)) IDLE) eqn:Hst; simpl.
      - exists (with_sink_input_id (pa_find env "gst-launch") s).
        split; [exact Hs0|]. split; [apply PlaybackState_eqb_eq, Hst|reflexivity].
      - destruct (update_state_spec env "tv" [FState IDLE; FLevel 0] w0 _ Hs0)
          as (s' & Hs' & Hsim & _).
        exists s'. simpl in Hsim. destruct Hsim as (_ & H2 & _ & H4 & _).
        split; [exact Hs'|]. split; assumption. }
    destruct (pa_find env "gst-launch") as [id|]; [|exact Hgoal].
    rewrite Habsent. exact Hgoal.
Qed.

Lemma tv_level_mapping_witness :
  let w := meter_step (env_ok 1000) (-491 # 10) "tv" mixer0 in
  exists s', sources (tv_poll_state (env_ok 1000) "tv" w) !! "tv" = Some s'
    /\ poll_reaches_level (env_ok 1000) = true
    /\ level (st s') = if muted (st s') then 0 else 1.
Proof.
  cbv zeta.
  set (w := meter_step (env_ok 1000) (-491 # 10) "tv" mixer0).
  destruct (sources w !! "tv") as [s|] eqn:Hs; [|vm_compute in Hs; discriminate Hs].
  assert (Ht : tv_of w = Some (with_level (-491 # 10) 1000 new_TVState)) by reflexivity.
  apply tv_of_spec in Ht as (s0 & Hs0 & Hi). rewrite Hs in Hs0. injection Hs0 as <-.
  assert (Hr : poll_reaches_level (env_ok 1000) = true) by reflexivity.
  destruct (tv_level_mapping (env_ok 1000) w s _ Hs Hi) as [H _].
  destruct (H Hr) as (s' & info & _ & H1 & _ & H3 & _).
  exists s'. split; [exact H1|]. split; [exact Hr|]. exact H3.
Defined.

(** ** Silence hysteresis of the television *)

Lemma core_fields t t' :
  with_volume_set_time 0 t' = with_volume_set_time 0 t ->
  current_level_db t' = current_level_db t
  /\ last_sound_time t' = last_sound_time t
  /\ user_muted t' = user_muted t
  /\ silence_threshold_db t' = silence_threshold_db t
  /\ silence_duration t' = silence_duration t
  /\ auto_mute_enabled t' = auto_mute_enabled t
  /\ silence_muted t' = silence_muted t.
Proof.
  intros H. repeat split.
  - exact (f_equal current_level_db H).
  - exact (f_equal last_sound_time H).
  - exact (f_equal user_muted H).
  - exact (f_equal silence_threshold_db H).
  - exact (f_equal silence_duration H).
  - exact (f_equal auto_mute_enabled H).
  - exact (f_equal silence_muted H).
Qed.

(** A window of samples: the level and, above the threshold, the time of
    the last sound. *)
Lemma tv_step_window env db w t :
  tv_of w = Some t ->
  let w' := tv_step w (env, Window db) in
  tv_of w'
  = Some (with_level db (if Qltb (silence_threshold_db t) db then now env
                         else last_sound_time t) t)
  /\ mute_calls w' = mute_calls w.
Proof.
  intros Ht. apply tv_of_spec in Ht as (s & Hs & Hi).
  split; [|reflexivity].
  apply tv_of_spec. eexists. split.
  - unfold tv_step, meter_step. simpl snd. cbv iota. apply lookup_alter_tv; eassumption.
  - reflexivity.
Qed.

(** A polling step that reaches the level computation. *)
Lemma tv_step_poll env w t :
  tv_of w = Some t ->
  poll_reaches_level env = true ->
  let w' := tv_step w (env, Poll) in
  exists t' id, tv_of w' = Some t'
    /\ with_volume_set_time 0 t'
       = with_volume_set_time 0 (with_silence_muted (poll_silence_muted env t) t)
    /\ reported_state w' = Some (poll_state env t)
    /\ mute_calls w'
       = (mute_calls w ++ match poll_mute env t with
                          | Some b => [EPaSetMute id b]
                          | None => []
                          end)%list.
Proof.
  intros Ht Hreach. apply tv_of_spec in Ht as (s & Hs & Hi).
  destruct (poll_reaches_level_spec env Hreach) as (id & info & Hfind & Htruthy & Hinfo).
  destruct (tv_poll_spec env w s t id info Hs Hi Hfind Htruthy Hinfo)
    as (s' & t' & H1 & H2 & H3 & H4 & _ & _ & H7).
  exists t', id. split; [|split; [exact H3|split; [|exact H7]]].
  - apply tv_of_spec. eauto.
  - unfold reported_state, tv_step. simpl snd. cbv iota. simpl fst. rewrite H1. simpl.
    rewrite H4. reflexivity.
Qed.

Lemma tv_run_cons ei rest w :
  tv_run (ei :: rest) w
  = (fst (tv_run rest (tv_step w ei)),
     match snd ei with
     | Poll => reported_state (tv_step w ei) :: snd (tv_run rest (tv_step w ei))
     | Window _ => snd (tv_run rest (tv_step w ei))
     end).
Proof. simpl. destruct (tv_run rest (tv_step w ei)). reflexivity. Qed.







(** * Further properties of the sources and the mixer *)

(** ** [set_volume] *)

Lemma sources_emit e w : sources (emit e w) = sources w.
Proof. reflexivity. Qed.

Lemma sources_publish n k v w : sources (publish n k v w) = sources w.
Proof. apply publish_rest. Qed.

Lemma lookup_alter_source_ne f n m w :
  n <> m -> sources (alter_source f n w) !! m = sources w !! m.
Proof. intros H. unfold alter_source. simpl. apply lookup_alter_ne. exact H. Qed.

Lemma lookup_alter_source_None f n w :
  sources w !! n = None -> sources (alter_source f n w) !! n = None.
Proof.
  intros H. unfold alter_source. simpl. rewrite lookup_alter. case_decide; [|exact H].
  rewrite H. reflexivity.
Qed.

(** [_update_state(volume=c)] leaves the volume at [c]. *)
Lemma get_volume_update_volume env n c w :
  is_Some (sources w !! n) ->
  get_volume n (update_state_with publish env n [FVolume c] w) = Some c.
Proof.
  intros [s Hs]. unfold get_volume, update_state_with, update_fields. rewrite Hs.
  destruct (field_differs (st s) (FVolume c)) eqn:Hd.
  - erewrite lookup_alter_source;
      [|rewrite sources_publish; apply lookup_alter_source; exact Hs].
    reflexivity.
  - rewrite Hs. simpl. f_equal. simpl in Hd. apply negb_false_iff in Hd.
    apply Z.eqb_eq, Hd.
Qed.

Lemma is_Some_alter_source f n m w :
  is_Some (sources w !! m) -> is_Some (sources (alter_source f n w) !! m).
Proof.
  intros [s Hs]. destruct (decide (n = m)) as [->|Hne].
  - erewrite lookup_alter_source; eauto.
  - rewrite lookup_alter_source_ne by exact Hne. eauto.
Qed.

(** X1: when [set_volume] of a source returns True, the volume the source
    reports afterwards is the requested one clamped to [0,100]. *)
Theorem set_volume_success (env : Env) (n : string) (v : Z) (w : Mixer) :
  snd (set_volume env n v w) = true ->
  get_volume n (fst (set_volume env n v w)) = Some (clamp 0 100 v).
Proof.
  unfold set_volume. destruct (sources w !! n) as [s|] eqn:Hs; [|discriminate].
  assert (Hs0 : is_Some (sources (emit (ESetVolume n v) w) !! n)) by (simpl; rewrite Hs; eauto).
  set (w0 := emit (ESetVolume n v) w) in *. clearbody w0.
  destruct (impl s).
  - (* Spotify *)
    unfold spotify_set_volume.
    set (w1 := ensure_sink_input_id env "spotifyd" n w0).
    assert (Hs1 : is_Some (sources w1 !! n)) by apply is_Some_alter_source, Hs0.
    clearbody w1.
    destruct (sources w1 !! n) as [s1|] eqn:E1; [|discriminate].
    set (r := match sink_input_id s1 with
              | Some id => if truthy (Some id)
                           then set_sink_input_volume env id (clamp 0 100 v) w1 else (w1, false)
              | None => (w1, false)
              end).
    assert (Hr : sources (fst r) = sources w1).
    { unfold r. destruct (sink_input_id s1); [|reflexivity].
      destruct (truthy _); reflexivity. }
    destruct r as [w2 ok]. simpl in Hr.
    set (w3 := match mpris_props env with Some _ => _ | None => w2 end).
    assert (H3 : is_Some (sources w3 !! n)).
    { unfold w3. destruct (mpris_props env); [|rewrite Hr, E1; eauto].
      destruct (mpris_set env); [apply is_Some_alter_source|]; simpl; rewrite Hr, E1; eauto. }
    clearbody w3. destruct ok; simpl; [|discriminate].
    intros _. apply get_volume_update_volume, H3.
  - (* AirPlay *)
    unfold airplay_set_volume.
    set (w1 := ensure_airplay_sink_input_id env n w0).
    assert (Hs1 : is_Some (sources w1 !! n)) by apply is_Some_alter_source, Hs0.
    clearbody w1.
    destruct (sources w1 !! n) as [s1|] eqn:E1; [|discriminate].
    intros _. cbn [fst]. apply get_volume_update_volume, is_Some_alter_source.
    destruct (sink_input_id s1) as [id|]; [|rewrite E1; eauto].
    destruct (truthy (Some id)); simpl; rewrite E1; eauto.
  - (* TV *)
    unfold tv_set_volume.
    set (w1 := ensure_sink_input_id env "gst-launch" n w0).
    assert (Hs1 : is_Some (sources w1 !! n)) by apply is_Some_alter_source, Hs0.
    clearbody w1.
    destruct (sources w1 !! n) as [s1|] eqn:E1; [|discriminate].
    destruct (sink_input_id s1) as [id|]; [|discriminate].
    destruct (truthy (Some id)); [|discriminate].
    unfold set_sink_input_volume.
    destruct (pa_set_volume env id (clamp 0 100 (clamp 0 100 v))); [|discriminate].
    intros _. cbn [fst]. rewrite <- (clamp_idem v) at 2.
    apply get_volume_update_volume.
    unfold alter_tv. apply is_Some_alter_source. simpl. rewrite E1. eauto.
Qed.

Lemma set_volume_success_witness :
  snd (set_volume (env_ok 1) "tv" 130 mixer0) = true
  /\ get_volume "tv" (fst (set_volume (env_ok 1) "tv" 130 mixer0)) = Some 100.
Proof.
  assert (H : snd (set_volume (env_ok 1) "tv" 130 mixer0) = true) by reflexivity.
  split; [exact H|]. exact (set_volume_success (env_ok 1) "tv" 130 mixer0 H).
Defined.

Lemma states_kept_refl w : states_kept w w.
Proof. split; reflexivity. Qed.

Lemma states_kept_trans a b c : states_kept a b -> states_kept b c -> states_kept a c.
Proof.
  intros [H1 H2] [H3 H4]. split; [|congruence]. intros m. rewrite H3. apply H1.
Qed.

Lemma states_kept_emit e w : is_publish e = false -> states_kept w (emit e w).
Proof.
  intros He. split; [reflexivity|]. unfold publishes. simpl.
  rewrite List.filter_app. simpl. rewrite He. apply app_nil_r.
Qed.

Lemma states_kept_alter_source f n w :
  (forall s, st (f s) = st s) -> states_kept w (alter_source f n w).
Proof.
  intros Hf. split; [|reflexivity]. intros m. simpl. rewrite lookup_alter.
  case_decide; [subst m|reflexivity].
  destruct (sources w !! n); simpl; [rewrite Hf|]; reflexivity.
Qed.

Lemma states_kept_ensure env p n w : states_kept w (ensure_sink_input_id env p n w).
Proof.
  apply states_kept_alter_source. intros s. destruct (truthy _); reflexivity.
Qed.

(** X2: when [set_volume] of a source returns False, no source has changed
    its state (volume, mute, playback state, ...) and nothing has been
    notified. *)
Theorem set_volume_failure (env : Env) (n : string) (v : Z) (w : Mixer) :
  snd (set_volume env n v w) = false ->
  states_kept w (fst (set_volume env n v w)).
Proof.
  unfold set_volume. destruct (sources w !! n) as [s|] eqn:Hs; [|intros _; apply states_kept_refl].
  intros H. eapply states_kept_trans; [apply (states_kept_emit (ESetVolume n v)); reflexivity|].
  revert H. set (w0 := emit (ESetVolume n v) w). clearbody w0.
  destruct (impl s).
  - unfold spotify_set_volume.
    set (w1 := ensure_sink_input_id env "spotifyd" n w0).
    assert (H1 : states_kept w0 w1) by apply states_kept_ensure. clearbody w1.
    destruct (sources w1 !! n) as [s1|]; [|intros _; exact H1].
    set (r := match sink_input_id s1 with
              | Some id => if truthy (Some id)
                           then set_sink_input_volume env id (clamp 0 100 v) w1 else (w1, false)
              | None => (w1, false)
              end).
    assert (Hr : states_kept w1 (fst r)).
    { unfold r. destruct (sink_input_id s1); [|apply states_kept_refl].
      destruct (truthy _); [apply states_kept_emit; reflexivity|apply states_kept_refl]. }
    destruct r as [w2 ok]. simpl in Hr.
    set (w3 := match mpris_props env with Some _ => _ | None => w2 end).
    assert (H3 : states_kept w2 w3).
    { unfold w3. destruct (mpris_props env); [|apply states_kept_refl].
      destruct (mpris_set env); [|apply states_kept_emit; reflexivity].
      eapply states_kept_trans;
        [apply (states_kept_emit (EMprisSetVolume (clamp 0 100 v))); reflexivity|].
      apply states_kept_alter_source. intros x. destruct (impl x); reflexivity. }
    clearbody w3. destruct ok; simpl; [discriminate|]. intros _.
    eapply states_kept_trans; [exact H1|]. eapply states_kept_trans; eassumption.
  - unfold airplay_set_volume.
    destruct (sources (ensure_airplay_sink_input_id env n w0) !! n); simpl; [discriminate|].
    intros _. apply states_kept_alter_source. intros x.
    destruct (truthy _); [reflexivity|]. destruct (find_airplay_sink_input env); reflexivity.
  - unfold tv_set_volume.
    set (w1 := ensure_sink_input_id env "gst-launch" n w0).
    assert (H1 : states_kept w0 w1) by apply states_kept_ensure. clearbody w1.
    destruct (sources w1 !! n) as [s1|]; [|intros _; exact H1].
    destruct (sink_input_id s1) as [id|]; [|intros _; exact H1].
    destruct (truthy (Some id)); [|intros _; exact H1].
    unfold set_sink_input_volume.
    destruct (pa_set_volume env id (clamp 0 100 (clamp 0 100 v))); [discriminate|].
    intros _. eapply states_kept_trans; [exact H1|]. apply states_kept_emit. reflexivity.
Qed.

Lemma set_volume_failure_witness :
  snd (set_volume (env_absent 1) "tv" 30 mixer0) = false
  /\ states_kept mixer0 (fst (set_volume (env_absent 1) "tv" 30 mixer0)).
Proof.
  assert (H : snd (set_volume (env_absent 1) "tv" 30 mixer0) = false) by reflexivity.
  split; [exact H|]. exact (set_volume_failure (env_absent 1) "tv" 30 mixer0 H).
Defined.

(** ** Slewing switched off *)

Lemma set_volume_slew_kept env n v w :
  slew_state (fst (set_volume env n v w)) = slew_state w
  /\ threads (fst (set_volume env n v w)) = threads w.
Proof.
  destruct (sources w !! n) as [s|] eqn:Hs.
  - destruct (set_volume_keeps env n v w) as [_ _ S T _ _]; [rewrite Hs; eauto|].
    split; assumption.
  - rewrite set_volume_unknown by exact Hs. split; reflexivity.
Qed.

(** X3: [set_slew_rate] stores [max(0, rate)] and notifies it.  With a rate
    of 0 or less, or with [use_slew] false, [set_source_volume] is the
    [set_volume] of the source at the clamped volume: no slew job and no
    slew thread is created. *)
Theorem slew_disabled_sets_immediately (env : Env) (n : string) (v rate : Z)
    (use_slew : bool) (w : Mixer) :
  let w1 := fst (set_slew_rate rate w) in
  let r := set_source_volume env n v use_slew w1 in
  get_slew_rate w1 = Z.max 0 rate
  /\ trace w1 = (trace w ++ if on_state_change w
                            then [EPublish "master" "slew_rate" (VInt (Z.max 0 rate))]
                            else [])%list
  /\ (use_slew = false \/ rate <= 0 ->
      r = match sources w !! n with
          | Some _ => set_volume env n (clamp 0 100 v) w1
          | None => (w1, false)
          end
      /\ slew_state (fst r) = slew_state w
      /\ threads (fst r) = threads w).
Proof.
  intros w1 r.
  assert (Hs : sources w1 = sources w).
  { unfold w1, set_slew_rate, publish. simpl. destruct (on_state_change w); reflexivity. }
  assert (Hrate : slew_rate w1 = Z.max 0 rate).
  { unfold w1, set_slew_rate, publish. simpl. destruct (on_state_change w); reflexivity. }
  assert (Hslew : slew_state w1 = slew_state w /\ threads w1 = threads w).
  { unfold w1, set_slew_rate, publish. simpl. destruct (on_state_change w); split; reflexivity. }
  split; [exact Hrate|]. split.
  - unfold w1, set_slew_rate. simpl. rewrite trace_publish. reflexivity.
  - intros Hoff.
    assert (Hcond : negb use_slew || Z.leb (slew_rate w1) 0 = true).
    { destruct Hoff as [->|Hr]; [reflexivity|].
      rewrite Hrate. apply orb_true_iff. right. apply Z.leb_le. lia. }
    assert (Hr : r = match sources w !! n with
                     | Some _ => set_volume env n (clamp 0 100 v) w1
                     | None => (w1, false)
                     end).
    { unfold r, set_source_volume. rewrite Hs, Hcond. reflexivity. }
    split; [exact Hr|]. rewrite Hr. destruct Hslew as [<- <-].
    destruct (sources w !! n); [apply set_volume_slew_kept|split; reflexivity].
Qed.

Lemma slew_disabled_sets_immediately_witness :
  let w1 := fst (set_slew_rate 0 mixer0) in
  let r := set_source_volume (env_ok 1) "airplay" 40 true w1 in
  get_volume "airplay" (fst r) = Some 40 /\ threads (fst r) = threads mixer0.
Proof.
  destruct (slew_disabled_sets_immediately (env_ok 1) "airplay" 40 0 true mixer0)
    as (_ & _ & H).
  destruct H as (_ & _ & H3); [right; lia|].
  split; [reflexivity|exact H3].
Defined.

(** ** The steps of a ramp *)

Lemma Qfloor_unique (x : Q) (a : Z) :
  (inject_Z a <= x)%Q -> (x < inject_Z (a + 1))%Q -> Qfloor x = a.
Proof.
  intros H1 H2.
  pose proof (Qfloor_le x) as F1. pose proof (Qlt_floor x) as F2.
  assert (A : (Qfloor x < a + 1)%Z).
  { rewrite Zlt_Qlt. eapply Qle_lt_trans; eassumption. }
  assert (B : (a < Qfloor x + 1)%Z).
  { rewrite Zlt_Qlt. eapply Qle_lt_trans; eassumption. }
  lia.
Qed.

(** [round] of a number less than one half away from an integer. *)
Lemma py_round_near (x : Q) (t : Z) :
  (Qabs (x - inject_Z t) < 1 # 2)%Q -> py_round x = t.
Proof.
  intros H. apply Qabs_Qlt_condition in H as [Hlo Hhi].
  unfold py_round.
  destruct (Qlt_le_dec x (inject_Z t)) as [Hlt|Hge].
  - assert (Hf : Qfloor x = t - 1).
    { apply Qfloor_unique.
      - assert (Hi : (inject_Z (t - 1) == inject_Z t - 1)%Q).
        { unfold Z.sub. rewrite inject_Z_plus, inject_Z_opp. reflexivity. }
        rewrite Hi. lra.
      - replace (t - 1 + 1) with t by lia. exact Hlt. }
    rewrite Hf.
    assert (Hi : (inject_Z (t - 1) == inject_Z t - 1)%Q).
    { unfold Z.sub. rewrite inject_Z_plus, inject_Z_opp. reflexivity. }
    destruct ((x - inject_Z (t - 1)) ?= (1 # 2))%Q eqn:E.
    + exfalso. apply Qeq_alt in E. rewrite Hi in E. lra.
    + exfalso. apply Qlt_alt in E. rewrite Hi in E. lra.
    + lia.
  - assert (Hf : Qfloor x = t).
    { apply Qfloor_unique; [exact Hge|]. rewrite inject_Z_plus. change (inject_Z 1) with 1%Q. lra. }
    rewrite Hf.
    destruct ((x - inject_Z t) ?= (1 # 2))%Q eqn:E.
    + exfalso. apply Qeq_alt in E. lra.
    + reflexivity.
    + exfalso. apply Qgt_alt in E. lra.
Qed.

(** [source.set_volume(v)] followed by the notification of [v], as the
    slew thread does it. *)
Lemma set_volume_then_publish env n v w :
  is_Some (sources w !! n) ->
  let w' := publish n "volume" (VInt v) (fst (set_volume env n v w)) in
  slew_state w' = slew_state w
  /\ threads w' = threads w
  /\ running w' = running w
  /\ exists mid, forallb quiet mid = true
       /\ trace w' = (trace w ++ ESetVolume n v :: mid
                        ++ if on_state_change w then [EPublish n "volume" (VInt v)] else [])%list.
Proof.
  intros Hs w'.
  destruct (set_volume_keeps env n v w Hs) as [(P1 & P2 & _) _ S T _ (mid & E & Q)].
  destruct (publish_rest n "volume" (VInt v) (fst (set_volume env n v w))) as (H1 & _ & _ & H4).
  split; [unfold w'; rewrite H1; exact S|].
  split; [unfold w'; rewrite H4; exact T|].
  split.
  { unfold w', publish. destruct (on_state_change _); exact P2. }
  exists mid. split; [exact Q|].
  unfold w'. rewrite trace_publish, P1, E. simpl. rewrite <- !app_assoc. reflexivity.
Qed.

(** X4: the step of a slew thread that applies a ramp position less than
    half a percent away from the target calls [set_volume] with exactly the
    target, notifies the target, removes the job of the source and ends
    the thread. *)
Theorem ramp_final_step_hits_target (env : Env) (i : nat) (n : string) (new_vol : Q)
    (tgt : Z) (w : Mixer) :
  threads w !! i = Some (mkSlewThread n (AtApply new_vol tgt)) ->
  is_Some (sources w !! n) ->
  (Qabs (new_vol - inject_Z tgt) < 1 # 2)%Q ->
  let w' := slew_thread_step env i w in
  slew_state w' = delete n (slew_state w)
  /\ threads w' = delete i (threads w)
  /\ exists mid, forallb quiet mid = true
       /\ trace w' = (trace w ++ ESetVolume n tgt :: mid
                        ++ if on_state_change w then [EPublish n "volume" (VInt tgt)] else [])%list.
Proof.
  intros Hi Hs Hnear w'. unfold w', slew_thread_step. rewrite Hi. cbn [th_name th_pc].
  rewrite (py_round_near new_vol tgt Hnear).
  apply Qltb_true in Hnear. rewrite Hnear.
  destruct (set_volume_then_publish env n tgt w Hs) as (H1 & H2 & _ & mid & Q & E).
  unfold remove_thread. simpl. rewrite H1, H2.
  split; [reflexivity|]. split; [reflexivity|]. exists mid. split; [exact Q|exact E].
Qed.

Lemma ramp_final_step_hits_target_witness :
  let w := with_threads [mkSlewThread "airplay" (AtApply (4985 # 100) 50)] mixer0 in
  exists mid, trace (slew_thread_step (env_ok 1) 0 w)
              = (ESetVolume "airplay" 50 :: mid ++ [EPublish "airplay" "volume" (VInt 50)])%list.
Proof.
  cbv zeta.
  set (w := with_threads [mkSlewThread "airplay" (AtApply (4985 # 100) 50)] mixer0).
  assert (H1 : threads w !! 0%nat = Some (mkSlewThread "airplay" (AtApply (4985 # 100) 50)))
    by reflexivity.
  assert (H2 : is_Some (sources w !! "airplay")) by (vm_compute; eauto).
  assert (H3 : (Qabs ((4985 # 100) - inject_Z 50) < 1 # 2)%Q) by reflexivity.
  destruct (ramp_final_step_hits_target (env_ok 1) 0 "airplay" _ 50 w H1 H2 H3)
    as (_ & _ & mid & _ & E).
  exists mid. exact E.
Defined.



(** X6: cancelling takes effect at the next tick.  After [stop_slew] for
    its source, or after [AudioMixer.stop], a slew thread at the head of its
    loop ends on its next step without calling [set_volume] or notifying
    anything: the step changes nothing but the list of live threads. *)
Theorem cancelled_thread_ends_silently (env : Env) (i : nat) (n : string) (w : Mixer) :
  threads w !! i = Some (mkSlewThread n AtLoop) ->
  slew_thread_step env i (stop_slew n w) = remove_thread i (stop_slew n w)
  /\ slew_thread_step env i (mixer_stop w) = remove_thread i (mixer_stop w)
  /\ trace (slew_thread_step env i (stop_slew n w)) = trace w
  /\ sources (slew_thread_step env i (stop_slew n w)) = sources w
  /\ trace (slew_thread_step env i (mixer_stop w)) = trace w
  /\ sources (slew_thread_step env i (mixer_stop w)) = sources w.
Proof.
  intros Hi.
  assert (H1 : slew_thread_step env i (stop_slew n w) = remove_thread i (stop_slew n w)).
  { unfold slew_thread_step.
    change (threads (stop_slew n w)) with (threads w). rewrite Hi. cbn [th_name th_pc].
    destruct (negb (running (stop_slew n w))); [reflexivity|].
    unfold stop_slew at 1. cbn [slew_state with_slew_state]. rewrite lookup_alter.
    case_decide; [|congruence].
    destruct (slew_state w !! n); reflexivity. }
  assert (H2 : slew_thread_step env i (mixer_stop w) = remove_thread i (mixer_stop w)).
  { unfold slew_thread_step.
    change (threads (mixer_stop w)) with (threads w). rewrite Hi. reflexivity. }
  rewrite H1, H2. repeat split.
Qed.

Lemma cancelled_thread_ends_silently_witness :
  let w := fst (set_source_volume (env_ok 1) "airplay" 50 true mixer0) in
  threads (slew_thread_step (env_ok 2) 0 (stop_slew "airplay" w)) = []
  /\ trace (slew_thread_step (env_ok 2) 0 (stop_slew "airplay" w)) = trace w.
Proof.
  cbv zeta.
  set (w := fst (set_source_volume (env_ok 1) "airplay" 50 true mixer0)).
  assert (Hi : threads w !! 0%nat = Some (mkSlewThread "airplay" AtLoop)) by reflexivity.
  destruct (cancelled_thread_ends_silently (env_ok 2) 0 "airplay" w Hi)
    as (H1 & _ & H3 & _).
  split; [rewrite H1; reflexivity|exact H3].
Defined.

(** ** A ramp left alone runs to completion *)








(** ** Default volumes *)

Lemma default_volumes_publish n k v w :
  default_volumes (publish n k v w) = default_volumes w.
Proof. unfold publish. destruct (on_state_change w); reflexivity. Qed.

Lemma was_active_publish n k v w : was_active (publish n k v w) = was_active w.
Proof. unfold publish. destruct (on_state_change w); reflexivity. Qed.

Lemma set_volume_calls_publish m n k v w :
  set_volume_calls m (publish n k v w) = set_volume_calls m w.
Proof.
  unfold set_volume_calls. rewrite trace_publish, List.filter_app, filter_publish.
  apply app_nil_r.
Qed.

Lemma set_default_volume_known n v w :
  is_Some (sources w !! n) ->
  let w' := fst (set_default_volume n v w) in
  snd (set_default_volume n v w) = true
  /\ default_volumes w' !! n = Some (clamp 0 100 v)
  /\ sources w' = sources w /\ was_active w' = was_active w
  /\ set_volume_calls n w' = set_volume_calls n w.
Proof.
  intros Hs. unfold set_default_volume.
  rewrite (bool_decide_eq_true_2 _ Hs). cbn [negb andb fst snd].
  split; [reflexivity|].
  rewrite default_volumes_publish, sources_publish, was_active_publish, set_volume_calls_publish.
  destruct (String.eqb n "all"); cbn.
  - split; [|repeat split].
    apply lookup_union_Some_l. rewrite lookup_fmap.
    destruct Hs as [s ->]. reflexivity.
  - split; [apply lookup_insert_eq|repeat split].
Qed.

(** X8: a default volume that was set is the one that is used.  For a
    registered source, [set_default_volume] returns [True], the volume
    [get_default_volume] reports afterwards is the requested one clamped to
    [0,100], and the next time the source starts playing the mixer calls its
    [set_volume] with exactly that volume. *)
Theorem default_volume_is_applied (env : Env) (n : string) (v : Z) (w : Mixer) :
  is_Some (sources w !! n) ->
  default false (was_active w !! n) = false ->
  let w' := fst (set_default_volume n v w) in
  snd (set_default_volume n v w) = true
  /\ get_default_volume n w' = clamp 0 100 v
  /\ set_volume_calls n (handle_source_state_change env n "state" (VStr "playing") w')
     = (set_volume_calls n w ++ [ESetVolume n (clamp 0 100 v)])%list.
Proof.
  intros Hs Hwas w'.
  destruct (set_default_volume_known n v w Hs) as (R & D & S & A & C).
  fold w' in D, S, A, C.
  split; [exact R|]. split.
  - unfold get_default_volume. rewrite D. reflexivity.
  - rewrite handle_state_calls by (rewrite S; exact Hs).
    rewrite A, Hwas, D, C. reflexivity.
Qed.

Lemma default_volume_is_applied_witness :
  get_default_volume "tv" (fst (set_default_volume "tv" 140 mixer0)) = 100
  /\ set_volume_calls "tv"
       (handle_source_state_change (env_ok 1) "tv" "state" (VStr "playing")
          (fst (set_default_volume "tv" 140 mixer0)))
     = [ESetVolume "tv" 100].
Proof.
  assert (Hs : is_Some (sources mixer0 !! "tv")) by (vm_compute; eauto).
  destruct (default_volume_is_applied (env_ok 1) "tv" 140 mixer0 Hs eq_refl) as (_ & G & C).
  split; [exact G|exact C].
Defined.

(** X9: [set_default_volume] with the name ["all"] gives every registered
    source the clamped volume and leaves the entries of other names alone;
    with a name that is neither registered nor ["all"] it returns [False]
    and changes nothing, not even the trace. *)
Theorem default_volume_all_and_unknown (n : string) (v : Z) (w : Mixer) :
  (snd (set_default_volume "all" v w) = true
   /\ (forall m, is_Some (sources w !! m) ->
         get_default_volume m (fst (set_default_volume "all" v w)) = clamp 0 100 v)
   /\ (forall m, sources w !! m = None ->
         get_default_volume m (fst (set_default_volume "all" v w)) = get_default_volume m w))
  /\ (sources w !! n = None -> n <> "all" -> set_default_volume n v w = (w, false)).
Proof.
  split.
  - unfold set_default_volume. change (String.eqb "all" "all") with true.
    rewrite andb_false_r. cbn [fst snd].
    split; [reflexivity|]. unfold get_default_volume.
    rewrite default_volumes_publish. cbn. split.
    + intros m [s Hs]. erewrite lookup_union_Some_l; [reflexivity|].
      rewrite lookup_fmap, Hs. reflexivity.
    + intros m Hm. rewrite lookup_union_r; [reflexivity|].
      rewrite lookup_fmap, Hm. reflexivity.
  - intros Hn Hne. unfold set_default_volume.
    rewrite bool_decide_eq_false_2 by (rewrite Hn; intros [? ?]; discriminate).
    apply String.eqb_neq in Hne. rewrite Hne. reflexivity.
Qed.

Lemma default_volume_all_and_unknown_witness :
  get_default_volume "spotify" (fst (set_default_volume "all" (-3) mixer0)) = 0
  /\ set_default_volume "radio" 40 mixer0 = (mixer0, false).
Proof.
  destruct (default_volume_all_and_unknown "radio" (-3) mixer0) as ((_ & A & _) & _).
  destruct (default_volume_all_and_unknown "radio" 40 mixer0) as (_ & U).
  split.
  - apply A. vm_compute. eauto.
  - apply U; [reflexivity|discriminate].
Defined.

(** X10: the two fallbacks for a source without a configured default
    differ.  [get_default_volume] reports 30 for it, but when the source
    starts playing the mixer sets its volume to 15. *)
Theorem unconfigured_default_mismatch (env : Env) (n : string) (w : Mixer) :
  is_Some (sources w !! n) ->
  default_volumes w !! n = None ->
  default false (was_active w !! n) = false ->
  get_default_volume n w = 30
  /\ set_volume_calls n (handle_source_state_change env n "state" (VStr "playing") w)
     = (set_volume_calls n w ++ [ESetVolume n 15])%list.
Proof.
  intros Hs Hd Hwas. split.
  - unfold get_default_volume. rewrite Hd. reflexivity.
  - rewrite handle_state_calls by exact Hs. rewrite Hwas, Hd. reflexivity.
Qed.

Lemma unconfigured_default_mismatch_witness :
  let w := mixer_start (new_Mixer true 50 (Some (<["spotify" := 20]> ∅)) true 25 0) in
  get_default_volume "tv" w = 30
  /\ set_volume_calls "tv" (handle_source_state_change (env_ok 1) "tv" "state" (VStr "playing") w)
     = [ESetVolume "tv" 15].
Proof.
  cbv zeta.
  set (w := mixer_start (new_Mixer true 50 (Some (<["spotify" := 20]> ∅)) true 25 0)).
  assert (Hs : is_Some (sources w !! "tv")) by (vm_compute; eauto).
  assert (Hd : default_volumes w !! "tv" = None) by (vm_compute; reflexivity).
  exact (unconfigured_default_mismatch (env_ok 1) "tv" w Hs Hd eq_refl).
Defined.

(** ** Settings of the television *)

Lemma is_tv_spec w : is_tv w = true <-> exists t, tv_of w = Some t.
Proof.
  unfold is_tv, tv_of. destruct (sources w !! "tv") as [s|].
  - destruct (impl s); split; try discriminate; eauto; intros [? ?]; discriminate.
  - split; [discriminate|intros [? ?]; discriminate].
Qed.

Lemma tv_of_publish n k v w : tv_of (publish n k v w) = tv_of w.
Proof. unfold tv_of. rewrite sources_publish. reflexivity. Qed.

Lemma tv_of_alter_tv f w t : tv_of w = Some t -> tv_of (alter_tv f "tv" w) = Some (f t).
Proof.
  intros Ht. apply tv_of_spec in Ht as (s & Hs & Hi). apply tv_of_spec.
  eexists. split; [apply lookup_alter_tv; eassumption|reflexivity].
Qed.

Lemma tv_of_emit e w : tv_of (emit e w) = tv_of w.
Proof. reflexivity. Qed.

Lemma py_int_of_float_inject_Z z : py_int_of_float (inject_Z z) = z.
Proof. unfold py_int_of_float. simpl. apply Z.quot_1_r. Qed.

(** X11: the silence settings of the television are clamped and read
    back.  With a television registered, [set_tv_silence_threshold] stores
    the threshold clamped to [-80,-20] dB, [set_tv_silence_duration] the
    duration clamped to [0.5,30] s, both return [True], what the getters
    return afterwards is the stored value, and each setter leaves the other
    setting alone.  Without a television both setters return [False] and
    change nothing. *)
Theorem tv_silence_settings_clamped (env : Env) (th : Z) (dur : Q) (w : Mixer) :
  (is_tv w = true ->
   (let w1 := fst (set_tv_silence_threshold env th w) in
    snd (set_tv_silence_threshold env th w) = true
    /\ get_tv_silence_threshold w1 = Z.max (-80) (Z.min (-20) th)
    /\ -80 <= get_tv_silence_threshold w1 <= -20
    /\ (-80 <= th <= -20 -> get_tv_silence_threshold w1 = th)
    /\ get_tv_silence_duration w1 = get_tv_silence_duration w)
   /\ (let w2 := fst (set_tv_silence_duration env dur w) in
       snd (set_tv_silence_duration env dur w) = true
       /\ ((1 # 2) <= get_tv_silence_duration w2 <= 30)%Q
       /\ (((1 # 2) <= dur <= 30)%Q -> (get_tv_silence_duration w2 == dur)%Q)
       /\ get_tv_silence_threshold w2 = get_tv_silence_threshold w))
  /\ (is_tv w = false ->
      set_tv_silence_threshold env th w = (w, false)
      /\ set_tv_silence_duration env dur w = (w, false)).
Proof.
  split.
  - intros Htv. pose proof Htv as Htv'. apply is_tv_spec in Htv' as [t Ht].
    unfold set_tv_silence_threshold, set_tv_silence_duration. rewrite Htv.
    unfold tv_set_silence_threshold, tv_set_silence_duration, notify.
    rewrite !handle_other_key by reflexivity. cbn [fst snd].
    unfold get_tv_silence_threshold, get_tv_silence_duration.
    rewrite !tv_of_publish, !(tv_of_alter_tv _ w t Ht), Ht. cbn.
    split.
    + split; [reflexivity|]. rewrite py_int_of_float_inject_Z.
      split; [reflexivity|]. split; [lia|]. split; [lia|reflexivity].
    + split; [reflexivity|].
      destruct (Qle_bool 30 dur) eqn:E1.
      * apply Qle_bool_iff in E1. change (Qle_bool 30 (1 # 2)) with false. cbv iota.
        split; [split; [discriminate|apply Qle_refl]|].
        split; [|reflexivity]. intros [_ H]. apply Qle_antisym; assumption.
      * assert (H1 : (dur < 30)%Q).
        { apply Qnot_le_lt. intros H. apply Qle_bool_iff in H. congruence. }
        destruct (Qle_bool dur (1 # 2)) eqn:E2.
        -- apply Qle_bool_iff in E2.
           split; [split; [apply Qle_refl|discriminate]|].
           split; [|reflexivity]. intros [H _]. apply Qle_antisym; assumption.
        -- assert (H2 : ((1 # 2) < dur)%Q).
           { apply Qnot_le_lt. intros H. apply Qle_bool_iff in H. congruence. }
           split; [split; apply Qlt_le_weak; assumption|].
           split; [|reflexivity]. intros _. reflexivity.
  - intros Htv. unfold set_tv_silence_threshold, set_tv_silence_duration.
    rewrite Htv. split; reflexivity.
Qed.

Lemma tv_silence_settings_clamped_witness :
  get_tv_silence_threshold (fst (set_tv_silence_threshold (env_ok 1) (-5) mixer0)) = -20
  /\ (get_tv_silence_duration (fst (set_tv_silence_duration (env_ok 1) (45 # 1) mixer0)) <= 30)%Q.
Proof.
  destruct (tv_silence_settings_clamped (env_ok 1) (-5) (45 # 1) mixer0) as [H _].
  destruct (H eq_refl) as ((_ & A & _) & (_ & (_ & B) & _)).
  split; [exact A|exact B].
Defined.

(** ** What the silence detector never does *)

(** A polling step that does not reach the level computation leaves the
    television's own attributes alone and calls no mute. *)
Lemma tv_poll_unreached env w s t :
  sources w !! "tv" = Some s ->
  impl s = TVImpl t ->
  poll_reaches_level env = false ->
  let w' := tv_poll_state env "tv" w in
  exists s' t', sources w' !! "tv" = Some s' /\ impl s' = TVImpl t'
    /\ with_volume_set_time 0 t' = with_volume_set_time 0 t
    /\ mute_calls w' = mute_calls w.
Proof.
  intros Hs Hi Hreach w'. unfold w', tv_poll_state.
  set (w0 := alter_source (with_sink_input_id (pa_find env "gst-launch")) "tv" w).
  assert (Hs0 : sources w0 !! "tv" = Some (with_sink_input_id (pa_find env "gst-launch") s)).
  { unfold w0. apply lookup_alter_source. exact Hs. }
  assert (Hm0 : mute_calls w0 = mute_calls w) by reflexivity.
  assert (Hidle : forall kwargs,
            exists s' t', sources (update_state env "tv" kwargs w0) !! "tv" = Some s'
              /\ impl s' = TVImpl t'
              /\ with_volume_set_time 0 t' = with_volume_set_time 0 t
              /\ mute_calls (update_state env "tv" kwargs w0) = mute_calls w).
  { intros kwargs.
    destruct (update_state_spec env "tv" kwargs w0 _ Hs0) as (s' & Hs' & _ & Him & Hm).
    cbn [impl with_sink_input_id] in Him. rewrite Hi in Him.
    destruct (impl s') as [| |t'] eqn:Hi'; try contradiction.
    exists s', t'. split; [exact Hs'|]. split; [exact Hi'|]. split; [symmetry; exact Him|].
    rewrite Hm. exact Hm0. }
  assert (Hsame : exists s' t', sources w0 !! "tv" = Some s' /\ impl s' = TVImpl t'
              /\ with_volume_set_time 0 t' = with_volume_set_time 0 t
              /\ mute_calls w0 = mute_calls w).
  { eexists _, t. split; [exact Hs0|]. split; [exact Hi|]. split; reflexivity. }
  rewrite Hs0. cbn [impl with_sink_input_id sink_input_id st]. rewrite Hi.
  unfold poll_reaches_level in Hreach.
  destruct (pa_find env "gst-launch") as [id|].
  - destruct (truthy (Some id)) eqn:Htr.
    + destruct (pa_info env "gst-launch") as [info|] eqn:Hinfo.
      * exfalso. rewrite ?Htr, ?Hinfo in Hreach. simpl in Hreach. discriminate Hreach.
      * exact Hsame.
    + destruct (negb _); [apply Hidle|exact Hsame].
  - destruct (negb _); [apply Hidle|exact Hsame].
Qed.

(** One input of the television, whatever PulseAudio answers: the mute
    calls it adds, and what it keeps of the user's settings. *)
Lemma tv_step_mutes ei w t :
  tv_of w = Some t ->
  exists t' added,
    tv_of (tv_step w ei) = Some t'
    /\ mute_calls (tv_step w ei) = (mute_calls w ++ added)%list
    /\ user_muted t' = user_muted t
    /\ auto_mute_enabled t' = auto_mute_enabled t
    /\ Forall (fun e => auto_mute_enabled t = true
                        /\ exists id b, e = EPaSetMute id b /\ (b = true \/ b = user_muted t))
         added
    /\ (auto_mute_enabled t = false -> silence_muted t' = silence_muted t).
Proof.
  intros Ht. destruct ei as [env [db|]].
  - destruct (tv_step_window env db w t Ht) as [H1 H2].
    eexists _, []. split; [exact H1|]. split; [rewrite H2; symmetry; apply app_nil_r|].
    repeat split. constructor.
  - destruct (poll_reaches_level env) eqn:Hreach.
    + destruct (tv_step_poll env w t Ht Hreach) as (t' & id & H1 & H2 & _ & H4).
      apply core_fields in H2 as (_ & _ & C3 & _ & _ & C6 & C7).
      exists t'. eexists. split; [exact H1|]. split; [exact H4|].
      split; [exact C3|]. split; [exact C6|]. split.
      * unfold poll_mute. destruct (silence_of env t).
        -- destruct (auto_mute_enabled t) eqn:Ha; [|constructor].
           destruct (silence_muted t); cbn; [|constructor].
           constructor; [|constructor]. split; [reflexivity|]. eexists _, _. split; [reflexivity|]. right. reflexivity.
        -- constructor.
        -- destruct (auto_mute_enabled t) eqn:Ha; [|constructor].
           cbn [andb]. destruct (negb (silence_muted t) && negb (user_muted t)); cbn; [|constructor].
           constructor; [|constructor]. split; [reflexivity|]. eexists _, _. split; [reflexivity|]. left. reflexivity.
      * intros Ha. rewrite C7. cbn. unfold poll_silence_muted, poll_mute.
        rewrite Ha. destruct (silence_of env t); reflexivity.
    + apply tv_of_spec in Ht as (s & Hs & Hi).
      destruct (tv_poll_unreached env w s t Hs Hi Hreach) as (s' & t' & H1 & H2 & H3 & H4).
      apply core_fields in H3 as (_ & _ & C3 & _ & _ & C6 & C7).
      exists t', []. split; [apply tv_of_spec; eauto|].
      split; [unfold tv_step; cbn [snd fst]; rewrite H4; symmetry; apply app_nil_r|].
      split; [exact C3|]. split; [exact C6|]. split; [constructor|]. intros _. exact C7.
Qed.

Lemma tv_run_mutes inputs :
  forall w t,
  tv_of w = Some t ->
  exists t' added,
    tv_of (fst (tv_run inputs w)) = Some t'
    /\ mute_calls (fst (tv_run inputs w)) = (mute_calls w ++ added)%list
    /\ user_muted t' = user_muted t
    /\ auto_mute_enabled t' = auto_mute_enabled t
    /\ Forall (fun e => auto_mute_enabled t = true
                        /\ exists id b, e = EPaSetMute id b /\ (b = true \/ b = user_muted t))
         added
    /\ (auto_mute_enabled t = false -> silence_muted t' = silence_muted t).
Proof.
  induction inputs as [|ei rest IH]; intros w t Ht.
  - exists t, []. split; [exact Ht|]. split; [symmetry; apply app_nil_r|].
    repeat split. constructor.
  - rewrite tv_run_cons. cbn [fst].
    destruct (tv_step_mutes ei w t Ht) as (t1 & a1 & H1 & H2 & H3 & H4 & H5 & H6).
    destruct (IH _ t1 H1) as (t2 & a2 & I1 & I2 & I3 & I4 & I5 & I6).
    exists t2, (a1 ++ a2)%list. split; [exact I1|].
    split; [rewrite I2, H2; symmetry; apply app_assoc|].
    split; [congruence|]. split; [congruence|]. split.
    + apply Forall_app. split; [exact H5|].
      rewrite H3, H4 in I5. exact I5.
    + intros Ha. rewrite I6 by congruence. apply H6. exact Ha.
Qed.

(** X12: with auto-mute switched off the silence detector is passive.
    Over any sequence of level windows and polling steps, whatever
    PulseAudio answers, the television source calls no
    [pactl set-sink-input-mute] and its silence-mute flag and auto-mute
    setting stay as they were. *)
Theorem auto_mute_off_never_mutes (inputs : list (Env * TVInput)) (w : Mixer) (t : TVState) :
  tv_of w = Some t ->
  auto_mute_enabled t = false ->
  mute_calls (fst (tv_run inputs w)) = mute_calls w
  /\ silence_muted <$> tv_of (fst (tv_run inputs w)) = Some (silence_muted t)
  /\ auto_mute_enabled <$> tv_of (fst (tv_run inputs w)) = Some false.
Proof.
  intros Ht Ha.
  destruct (tv_run_mutes inputs w t Ht) as (t' & added & H1 & H2 & _ & H4 & H5 & H6).
  rewrite H1, H2. cbn. rewrite (H6 Ha), H4, Ha.
  split; [|split; reflexivity].
  destruct added as [|e l]; [apply app_nil_r|].
  apply Forall_cons in H5 as [[Habs _] _]. congruence.
Qed.

Lemma auto_mute_off_never_mutes_witness :
  let w := fst (set_tv_auto_mute (env_ok 1) false mixer0) in
  mute_calls (fst (tv_run [(env_ok 2, Window (-60)); (env_ok 10, Poll)] w)) = mute_calls w.
Proof.
  cbv zeta.
  set (w := fst (set_tv_auto_mute (env_ok 1) false mixer0)).
  assert (Ht : tv_of w = Some (with_auto_mute_enabled false new_TVState)) by reflexivity.
  exact (proj1 (auto_mute_off_never_mutes _ w _ Ht eq_refl)).
Defined.

(** X13: the silence detector never undoes a mute of the user.  While
    the user has the television muted, every
    [pactl set-sink-input-mute] call that level windows and polling steps
    make is a mute, none an unmute, and the user's mute stays recorded. *)
Theorem user_mute_never_undone (inputs : list (Env * TVInput)) (w : Mixer) (t : TVState) :
  tv_of w = Some t ->
  user_muted t = true ->
  exists added,
    mute_calls (fst (tv_run inputs w)) = (mute_calls w ++ added)%list
    /\ Forall (fun e => exists id, e = EPaSetMute id true) added
    /\ user_muted <$> tv_of (fst (tv_run inputs w)) = Some true.
Proof.
  intros Ht Hu.
  destruct (tv_run_mutes inputs w t Ht) as (t' & added & H1 & H2 & H3 & _ & H5 & _).
  exists added. split; [exact H2|]. split.
  - eapply Forall_impl; [exact H5|]. cbn. intros e (_ & id & b & He & Hb).
    exists id. rewrite He. rewrite Hu in Hb. destruct Hb as [-> | ->]; reflexivity.
  - rewrite H1. cbn. rewrite H3, Hu. reflexivity.
Qed.

Lemma user_mute_never_undone_witness :
  let w := fst (tv_set_muted (env_ok 1) "tv" true mixer0) in
  exists added,
    mute_calls (fst (tv_run [(env_ok 2, Window (-60)); (env_ok 10, Poll);
                             (env_ok 11, Window (-10)); (env_ok 12, Poll)] w))
    = (mute_calls w ++ added)%list
    /\ Forall (fun e => exists id, e = EPaSetMute id true) added.
Proof.
  cbv zeta.
  set (w := fst (tv_set_muted (env_ok 1) "tv" true mixer0)).
  assert (Ht : tv_of w = Some (with_mute_set_time 1 (with_user_muted true new_TVState)))
    by reflexivity.
  destruct (user_mute_never_undone
              [(env_ok 2, Window (-60)); (env_ok 10, Poll);
               (env_ok 11, Window (-10)); (env_ok 12, Poll)] w _ Ht eq_refl)
    as (added & H1 & H2 & _).
  exists added. split; [exact H1|exact H2].
Defined.

Lemma mute_calls_alter_tv f n w : mute_calls (alter_tv f n w) = mute_calls w.
Proof. reflexivity. Qed.

Lemma mute_calls_emit e w :
  mute_calls (emit e w) = (mute_calls w ++ List.filter is_mute_call [e])%list.
Proof. unfold mute_calls, emit. simpl. apply List.filter_app. Qed.

(** X14: switching auto-mute off gives the mute back to the user.  When
    the television is muted by silence and its sink-input is known,
    [set_tv_auto_mute(False)] calls [pactl set-sink-input-mute] once with
    the mute state the user last asked for and clears the silence-mute
    flag; when it is not muted by silence, or when auto-mute is switched
    on, no mute call is made and only the setting changes. *)
Theorem auto_mute_off_restores_user_mute (env : Env) (w : Mixer) (s : Source) (t : TVState) :
  sources w !! "tv" = Some s ->
  impl s = TVImpl t ->
  (forall id, silence_muted t = true -> sink_input_id s = Some id -> truthy (Some id) = true ->
     mute_calls (fst (set_tv_auto_mute env false w))
     = (mute_calls w ++ [EPaSetMute id (user_muted t)])%list
     /\ tv_of (fst (set_tv_auto_mute env false w))
        = Some (with_silence_muted false (with_auto_mute_enabled false t)))
  /\ (silence_muted t = false ->
      mute_calls (fst (set_tv_auto_mute env false w)) = mute_calls w
      /\ tv_of (fst (set_tv_auto_mute env false w)) = Some (with_auto_mute_enabled false t))
  /\ mute_calls (fst (set_tv_auto_mute env true w)) = mute_calls w
  /\ tv_of (fst (set_tv_auto_mute env true w)) = Some (with_auto_mute_enabled true t).
Proof.
  intros Hs Hi.
  assert (Htv : is_tv w = true) by (unfold is_tv; rewrite Hs, Hi; reflexivity).
  assert (Ht : tv_of w = Some t) by (apply tv_of_spec; eauto).
  unfold set_tv_auto_mute. rewrite Htv. unfold tv_set_auto_mute, notify.
  rewrite !handle_other_key by reflexivity. rewrite !sources_publish.
  rewrite !(lookup_alter_tv _ "tv" w s t Hs Hi).
  cbn [impl with_impl sink_input_id silence_muted with_auto_mute_enabled user_muted negb andb].
  assert (Hm : forall b, mute_calls (publish "tv" "auto_mute" (VBool b)
                                       (alter_tv (with_auto_mute_enabled b) "tv" w))
                         = mute_calls w).
  { intros b. unfold mute_calls. rewrite trace_publish, List.filter_app.
    destruct (on_state_change _); apply app_nil_r. }
  assert (Hp : forall b, sources (publish "tv" "auto_mute" (VBool b)
                                    (alter_tv (with_auto_mute_enabled b) "tv" w)) !! "tv"
                         = Some (with_impl (TVImpl (with_auto_mute_enabled b t)) s)).
  { intros b. rewrite sources_publish. apply lookup_alter_tv; assumption. }
  split; [|split; [|split]].
  - intros id Hsm Hid Htr. rewrite Hid, Hsm, Htr. cbn [fst set_sink_input_mute andb]. split.
    + rewrite mute_calls_alter_tv, mute_calls_emit, Hm. reflexivity.
    + apply tv_of_spec. eexists. split.
      * eapply lookup_alter_tv; [exact (Hp false)|reflexivity].
      * reflexivity.
  - intros Hsm. rewrite Hsm.
    destruct (sink_input_id s); cbn [fst andb]; (split; [apply Hm|]);
      rewrite tv_of_publish; apply tv_of_alter_tv; exact Ht.
  - destruct (sink_input_id s); cbn [fst]; apply Hm.
  - destruct (sink_input_id s); cbn [fst]; rewrite tv_of_publish;
      apply tv_of_alter_tv; exact Ht.
Qed.

Lemma auto_mute_off_restores_user_mute_witness :
  mute_calls (fst (set_tv_auto_mute (env_ok 105) false tv_muted_by_silence))
  = (mute_calls tv_muted_by_silence ++ [EPaSetMute "42" false])%list.
Proof.
  assert (H : exists s t, sources tv_muted_by_silence !! "tv" = Some s /\ impl s = TVImpl t
                          /\ silence_muted t = true /\ sink_input_id s = Some "42"
                          /\ user_muted t = false).
  { vm_compute. eexists. eexists. split; [reflexivity|]. split; [reflexivity|].
    repeat split. }
  destruct H as (s & t & Hs & Hi & Hsm & Hid & Hu).
  destruct (auto_mute_off_restores_user_mute (env_ok 105) tv_muted_by_silence s t Hs Hi)
    as (A & _).
  destruct (A "42" Hsm Hid eq_refl) as [A1 _]. rewrite Hu in A1. exact A1.
Defined.

(** ** Routing of the per-source commands *)

Lemma length_append (s t : string) :
  String.length (s ++ t) = (String.length s + String.length t)%nat.
Proof. induction s as [|c s IH]; simpl; [reflexivity|]. rewrite IH. reflexivity. Qed.

Lemma substring_0_length (s : string) : substring 0 (String.length s) s = s.
Proof. induction s as [|c s IH]; simpl; [reflexivity|]. rewrite IH. reflexivity. Qed.

Lemma substring_0_append (s t : string) : substring 0 (String.length s) (s ++ t) = s.
Proof.
  induction s as [|c s IH]; simpl.
  - destruct t; reflexivity.
  - rewrite IH. reflexivity.
Qed.

Lemma substring_append_tail (p x : string) :
  substring (String.length p) (String.length x) (p ++ x) = x.
Proof. induction p as [|c p IH]; simpl; [apply substring_0_length|exact IH]. Qed.

Lemma endswith_append (p x : string) : endswith (p ++ x) x = true.
Proof.
  unfold endswith. rewrite length_append.
  replace (String.length p + String.length x - String.length x)%nat
    with (String.length p) by lia.
  rewrite substring_append_tail, String.eqb_refl.
  replace (Nat.leb _ _) with true; [reflexivity|]. symmetry. apply Nat.leb_le. lia.
Qed.

(** A string that ends with [y] does not end with a longer [x] that does
    not itself end with [y]. *)
Lemma endswith_longer (s x y : string) :
  endswith s y = true ->
  (String.length y <= String.length x)%nat ->
  endswith x y = false ->
  endswith s x = false.
Proof.
  intros Hy Hlen Hxy. destruct (endswith s x) eqn:Hx; [|reflexivity].
  rewrite (endswith_exclusive s x y Hx Hlen Hxy) in Hy. discriminate Hy.
Qed.

Lemma substring_append_skip (p r : string) (k : nat) :
  substring (String.length p) k (p ++ r) = substring 0 k r.
Proof. induction p as [|c p IH]; simpl; [reflexivity|exact IH]. Qed.

(** The slice that takes the source name out of a command. *)
Lemma slice_source_command (n suffix : string) :
  slice 7 (String.length suffix) ("source_" ++ n ++ suffix) = n.
Proof.
  unfold slice. rewrite !length_append. simpl String.length.
  replace (7 + (String.length n + String.length suffix) - String.length suffix - 7)%nat
    with (String.length n) by lia.
  change 7%nat with (String.length "source_") at 1.
  rewrite substring_append_skip. apply substring_0_append.
Qed.

Lemma source_command_shape (n suffix : string) :
  startswith ("source_" ++ n ++ suffix) "source_" = true
  /\ endswith ("source_" ++ n ++ suffix) suffix = true.
Proof.
  split.
  - unfold startswith. simpl. destruct (n ++ suffix); reflexivity.
  - change ("source_" ++ n ++ suffix) with (("source_" ++ n) ++ suffix).
    apply endswith_append.
Qed.

Lemma substring_append_cross (a x : string) :
  forall i k, (i + k = String.length a)%nat ->
  substring i (k + String.length x) (a ++ x) = substring i k a ++ x.
Proof.
  induction a as [|c a IH]; intros i k H; simpl in H.
  - assert (i = 0%nat) by lia. assert (k = 0%nat) by lia. subst. simpl.
    apply substring_0_length.
  - destruct i as [|i]; simpl.
    + destruct k as [|k]; [lia|]. simpl.
      change (String c (substring 0 k a) ++ x) with (String c (substring 0 k a ++ x)).
      f_equal. apply (IH 0%nat k). lia.
    + apply IH. lia.
Qed.

Lemma length_substring (a : string) :
  forall i k, (i + k <= String.length a)%nat -> String.length (substring i k a) = k.
Proof.
  induction a as [|c a IH]; intros i k H; simpl in H.
  - assert (i = 0%nat) by lia. assert (k = 0%nat) by lia. subst. reflexivity.
  - destruct i as [|i]; simpl.
    + destruct k as [|k]; [reflexivity|]. simpl. f_equal. apply IH. lia.
    + apply IH. lia.
Qed.

Lemma eqb_append_same_length (x : string) :
  forall u y, String.length u = String.length y ->
  String.eqb (u ++ x) (y ++ x) = String.eqb u y.
Proof.
  induction u as [|c u IH]; intros [|d y] H; simpl in H; try discriminate H.
  - simpl. apply String.eqb_refl.
  - simpl. destruct (Ascii.eqb c d); [|reflexivity]. apply IH. lia.
Qed.

(** Whether [a ++ x] ends with [y ++ x] is whether [a] ends with [y]. *)
Lemma endswith_append_both (a y x : string) : endswith (a ++ x) (y ++ x) = endswith a y.
Proof.
  unfold endswith. rewrite !length_append.
  destruct (Nat.leb (String.length y) (String.length a)) eqn:Hle.
  - apply Nat.leb_le in Hle.
    replace (Nat.leb _ _) with true by (symmetry; apply Nat.leb_le; lia).
    cbn [andb].
    replace (String.length a + String.length x - (String.length y + String.length x))%nat
      with (String.length a - String.length y)%nat by lia.
    rewrite substring_append_cross by lia.
    apply eqb_append_same_length. apply length_substring. lia.
  - apply Nat.leb_gt in Hle.
    replace (Nat.leb _ _) with false by (symmetry; apply Nat.leb_gt; lia).
    reflexivity.
Qed.

(** X15: the slices of the command handler take the source name out of
    every per-source command.  For any source name, the commands
    [source_<name>_set_mute], [_play], [_pause], [_stop],
    [_set_default_volume] and [_set_volume] reach the mixer method of that
    command with exactly that name; [source_<name>_mute] does so when
    [source_<name>] does not end in [_set], and otherwise is taken for the
    [_set_mute] command of a shorter name. *)
Theorem source_commands_routed (py_int : string -> option Z) (py_float : string -> option Q)
    (env : Env) (n payload : string) (b : Bridge) :
  let handle := on_mqtt_command py_int py_float env in
  let logged suffix := add_log (LogProcessing ("source_" ++ n ++ suffix) payload) b in
  handle ("source_" ++ n ++ "_set_mute") payload b
  = mixer_call (set_source_mute env n (payload_flag payload)) (logged "_set_mute")
  /\ handle ("source_" ++ n ++ "_play") payload b
     = mixer_call (source_playback "Play" env n) (logged "_play")
  /\ handle ("source_" ++ n ++ "_pause") payload b
     = mixer_call (source_playback "Pause" env n) (logged "_pause")
  /\ handle ("source_" ++ n ++ "_stop") payload b
     = mixer_call (source_playback "Stop" env n) (logged "_stop")
  /\ (forall v, py_int payload = Some v ->
        handle ("source_" ++ n ++ "_set_default_volume") payload b
        = mixer_call (set_default_volume n v) (logged "_set_default_volume"))
  /\ (forall v, py_int payload = Some v ->
        handle ("source_" ++ n ++ "_set_volume") payload b
        = volume_command env n v (logged "_set_volume"))
  /\ (endswith ("source_" ++ n) "_set" = false ->
      handle ("source_" ++ n ++ "_mute") payload b
      = mixer_call (toggle_source_mute env n) (logged "_mute"))
  /\ (endswith ("source_" ++ n) "_set" = true ->
      handle ("source_" ++ n ++ "_mute") payload b
      = mixer_call (set_source_mute env (slice 7 9 ("source_" ++ n ++ "_mute"))
                      (payload_flag payload)) (logged "_mute")).
Proof.
  intros handle logged. unfold handle, logged, on_mqtt_command.
  assert (Hno : forall suffix y, (String.length y <= String.length suffix)%nat ->
            endswith suffix y = false -> endswith ("source_" ++ n ++ suffix) y = false).
  { intros suffix y Hlen H.
    exact (endswith_exclusive _ suffix y (proj2 (source_command_shape n suffix)) Hlen H). }
  assert (Hlong : forall suffix x, (String.length suffix <= String.length x)%nat ->
            endswith x suffix = false -> endswith ("source_" ++ n ++ suffix) x = false).
  { intros suffix x Hlen H.
    exact (endswith_longer _ x suffix (proj2 (source_command_shape n suffix)) Hlen H). }
  repeat split.
  - destruct (source_command_shape n "_set_mute") as [-> ->].
    rewrite (Hlong "_set_mute" "_set_volume") by (simpl; try lia; reflexivity).
    cbn [andb]. change 9%nat with (String.length "_set_mute").
    rewrite slice_source_command. reflexivity.
  - destruct (source_command_shape n "_play") as [-> ->].
    rewrite (Hlong "_play" "_set_volume"), (Hlong "_play" "_set_mute"),
      (Hno "_play" "_mute") by (simpl; try lia; reflexivity).
    cbn [andb]. change 5%nat with (String.length "_play").
    rewrite slice_source_command. reflexivity.
  - destruct (source_command_shape n "_pause") as [-> ->].
    rewrite (Hlong "_pause" "_set_volume"), (Hlong "_pause" "_set_mute"),
      (Hno "_pause" "_mute"), (Hno "_pause" "_play") by (simpl; try lia; reflexivity).
    cbn [andb]. change 6%nat with (String.length "_pause").
    rewrite slice_source_command. reflexivity.
  - destruct (source_command_shape n "_stop") as [-> ->].
    rewrite (Hlong "_stop" "_set_volume"), (Hlong "_stop" "_set_mute"),
      (Hno "_stop" "_mute"), (Hno "_stop" "_play"), (Hlong "_stop" "_pause")
      by (simpl; try lia; reflexivity).
    cbn [andb]. change 5%nat with (String.length "_stop") at 2.
    rewrite slice_source_command. reflexivity.
  - intros v Hv.
    destruct (source_command_shape n "_set_default_volume") as [-> ->].
    rewrite (Hno "_set_default_volume" "_set_volume"),
      (Hno "_set_default_volume" "_set_mute"), (Hno "_set_default_volume" "_mute"),
      (Hno "_set_default_volume" "_play"), (Hno "_set_default_volume" "_pause"),
      (Hno "_set_default_volume" "_stop") by (simpl; try lia; reflexivity).
    cbn [andb]. change 19%nat with (String.length "_set_default_volume").
    rewrite slice_source_command. unfold with_int. rewrite Hv. reflexivity.
  - intros v Hv.
    destruct (source_command_shape n "_set_volume") as [-> ->].
    cbn [andb]. change 11%nat with (String.length "_set_volume").
    rewrite slice_source_command. unfold with_int. rewrite Hv. reflexivity.
  - intros Hset.
    destruct (source_command_shape n "_mute") as [-> ->].
    rewrite (Hlong "_mute" "_set_volume") by (simpl; try lia; reflexivity).
    assert (Hsm : endswith ("source_" ++ n ++ "_mute") "_set_mute" = false).
    { change ("source_" ++ n ++ "_mute") with (("source_" ++ n) ++ "_mute").
      change "_set_mute" with ("_set" ++ "_mute").
      rewrite endswith_append_both. exact Hset. }
    rewrite Hsm. cbn [andb]. change 5%nat with (String.length "_mute").
    rewrite slice_source_command. reflexivity.
  - intros Hset.
    destruct (source_command_shape n "_mute") as [-> ->].
    rewrite (Hlong "_mute" "_set_volume") by (simpl; try lia; reflexivity).
    assert (Hsm : endswith ("source_" ++ n ++ "_mute") "_set_mute" = true).
    { change ("source_" ++ n ++ "_mute") with (("source_" ++ n) ++ "_mute").
      change "_set_mute" with ("_set" ++ "_mute").
      rewrite endswith_append_both. exact Hset. }
    rewrite Hsm. reflexivity.
Qed.

Lemma source_commands_routed_witness :
  on_mqtt_command decimal decimal_float (env_ok 1) "source_tv_mute" "" bridge0
  = mixer_call (toggle_source_mute (env_ok 1) "tv")
      (add_log (LogProcessing "source_tv_mute" "") bridge0)
  /\ on_mqtt_command decimal decimal_float (env_ok 1) "source_tv_set_default_volume" "40" bridge0
     = mixer_call (set_default_volume "tv" 40)
         (add_log (LogProcessing "source_tv_set_default_volume" "40") bridge0).
Proof.
  split.
  - destruct (source_commands_routed decimal decimal_float (env_ok 1) "tv" "" bridge0)
      as (_ & _ & _ & _ & _ & _ & H & _).
    exact (H eq_refl).
  - destruct (source_commands_routed decimal decimal_float (env_ok 1) "tv" "40" bridge0)
      as (_ & _ & _ & _ & H & _).
    exact (H 40 eq_refl).
Defined.

Lemma set_volume_command_routed (py_int : string -> option Z) (py_float : string -> option Q)
    env n payload v b :
  py_int payload = Some v ->
  on_mqtt_command py_int py_float env ("source_" ++ n ++ "_set_volume") payload b
  = volume_command env n v (add_log (LogProcessing ("source_" ++ n ++ "_set_volume") payload) b).
Proof.
  intros Hv. unfold on_mqtt_command.
  destruct (source_command_shape n "_set_volume") as [-> ->].
  cbn [andb]. change 11%nat with (String.length "_set_volume").
  rewrite slice_source_command. unfold with_int. rewrite Hv. reflexivity.
Qed.

(** X16: the cooldown of volume commands is kept per source.  A volume
    command for one source that was accepted does not hold back a volume
    command for another source, however soon it follows: the second
    command reaches [set_source_volume] whenever the cooldown since the
    last accepted volume command for its own source has passed, and each
    source keeps the time of its own last accepted command. *)
Theorem volume_cooldown_is_per_source (py_int : string -> option Z)
    (py_float : string -> option Q) (env1 env2 : Env) (n1 n2 p1 p2 : string)
    (v1 v2 : Z) (b : Bridge) :
  n1 <> n2 ->
  py_int p1 = Some v1 ->
  py_int p2 = Some v2 ->
  (volume_cmd_cooldown b <= now env1 - default 0 (last_volume_cmd b !! n1))%Q ->
  (volume_cmd_cooldown b <= now env2 - default 0 (last_volume_cmd b !! n2))%Q ->
  let b1 := on_mqtt_command py_int py_float env1 ("source_" ++ n1 ++ "_set_volume") p1 b in
  let b2 := on_mqtt_command py_int py_float env2 ("source_" ++ n2 ++ "_set_volume") p2 b1 in
  mixer b1 = (fun m => fst (set_source_volume env1 n1 v1 true m)) <$> mixer b
  /\ mixer b2 = (fun m => fst (set_source_volume env2 n2 v2 true m)) <$> mixer b1
  /\ last_volume_cmd b2 !! n1 = Some (now env1)
  /\ last_volume_cmd b2 !! n2 = Some (now env2).
Proof.
  intros Hne Hv1 Hv2 Hc1 Hc2 b1 b2. unfold b2, b1.
  rewrite !(set_volume_command_routed py_int py_float _ _ _ _ _ Hv1).
  rewrite !(set_volume_command_routed py_int py_float _ _ _ _ _ Hv2).
  set (l1 := add_log (LogProcessing ("source_" ++ n1 ++ "_set_volume") p1) b).
  assert (E1 : volume_command env1 n1 v1 l1
               = mixer_call (set_source_volume env1 n1 v1 true)
                   (with_last_volume_cmd (<[n1 := now env1]> (last_volume_cmd b)) l1)).
  { unfold volume_command. cbn [l1 add_log with_log last_volume_cmd volume_cmd_cooldown].
    replace (Qltb _ _) with false; [reflexivity|]. symmetry. apply Qltb_false. exact Hc1. }
  rewrite E1.
  set (m1 := mixer_call (set_source_volume env1 n1 v1 true)
               (with_last_volume_cmd (<[n1 := now env1]> (last_volume_cmd b)) l1)).
  assert (L1 : last_volume_cmd m1 = <[n1 := now env1]> (last_volume_cmd b)).
  { unfold m1, mixer_call, l1, add_log. cbn. destruct (mixer b) eqn:Hm; cbn; rewrite ?Hm; reflexivity. }
  assert (C1 : volume_cmd_cooldown m1 = volume_cmd_cooldown b).
  { unfold m1, mixer_call, l1, add_log. cbn. destruct (mixer b) eqn:Hm; cbn; rewrite ?Hm; reflexivity. }
  assert (M1 : mixer m1 = (fun m => fst (set_source_volume env1 n1 v1 true m)) <$> mixer b).
  { unfold m1, mixer_call, l1, add_log. cbn. destruct (mixer b) eqn:Hm; cbn; rewrite ?Hm; reflexivity. }
  set (l2 := add_log (LogProcessing ("source_" ++ n2 ++ "_set_volume") p2) m1).
  assert (E2 : volume_command env2 n2 v2 l2
               = mixer_call (set_source_volume env2 n2 v2 true)
                   (with_last_volume_cmd (<[n2 := now env2]> (last_volume_cmd m1)) l2)).
  { unfold volume_command. cbn [l2 add_log with_log last_volume_cmd volume_cmd_cooldown].
    rewrite L1, C1, lookup_insert_ne by exact Hne.
    replace (Qltb _ _) with false; [reflexivity|]. symmetry. apply Qltb_false. exact Hc2. }
  rewrite E2. split; [exact M1|].
  assert (L2 : last_volume_cmd
                 (mixer_call (set_source_volume env2 n2 v2 true)
                    (with_last_volume_cmd (<[n2 := now env2]> (last_volume_cmd m1)) l2))
               = <[n2 := now env2]> (<[n1 := now env1]> (last_volume_cmd b))).
  { rewrite <- L1. unfold mixer_call, l2, add_log. cbn. destruct (mixer m1) eqn:Hm; cbn; rewrite ?Hm; reflexivity. }
  rewrite L2. split.
  - unfold mixer_call, l2, add_log. cbn. destruct (mixer m1) eqn:Hm; cbn; rewrite ?Hm; reflexivity.
  - split.
    + rewrite lookup_insert_ne by congruence. apply lookup_insert_eq.
    + apply lookup_insert_eq.
Qed.

Lemma volume_cooldown_is_per_source_witness :
  let b1 := on_mqtt_command decimal decimal_float (env_ok 1000) "source_spotify_set_volume"
              "40" bridge0 in
  let b2 := on_mqtt_command decimal decimal_float (env_ok 1000) "source_tv_set_volume"
              "60" b1 in
  mixer b2 = (fun m => fst (set_source_volume (env_ok 1000) "tv" 60 true m)) <$> mixer b1
  /\ last_volume_cmd b2 !! "spotify" = Some 1000%Q
  /\ last_volume_cmd b2 !! "tv" = Some 1000%Q.
Proof.
  cbv zeta.
  assert (Hne : "spotify" <> "tv") by discriminate.
  assert (Hc : (volume_cmd_cooldown bridge0 <= now (env_ok 1000) - 0)%Q)
    by (vm_compute; discriminate).
  destruct (volume_cooldown_is_per_source decimal decimal_float (env_ok 1000) (env_ok 1000)
              "spotify" "tv" "40" "60" 40 60 bridge0 Hne eq_refl eq_refl Hc Hc)
    as (_ & A & B & C).
  split; [exact A|]. split; [exact B|exact C].
Defined.

(** ** The command topics of the MQTT client *)















(** ** Publishing with the cache of last payloads *)

Section PublishProperties.

Variable str_int : Z -> string.
Variable str_float : Q -> string.
Variable json_dumps : list string -> string.

Local Abbreviation mqtt_publish := (MQTTClient.publish str_int str_float json_dumps).
Local Abbreviation mqtt_payload_str := (MQTTClient.payload_str str_int str_float json_dumps).

Lemma retained_snoc cs c :
  MQTTClient.retained (cs ++ [c])
  = match c with
    | MQTTClient.CPublish t s true true => <[t := s]> (MQTTClient.retained cs)
    | _ => MQTTClient.retained cs
    end.
Proof. unfold MQTTClient.retained. rewrite fold_left_app. reflexivity. Qed.

(** One retained publish on a connected client whose cache is what the
    broker retains. *)
Lemma publish_retained_step accepted suffix payload m :
  MQTTClient.has_client m = true ->
  MQTTClient.connected m = true ->
  MQTTClient.last_state m = MQTTClient.retained (MQTTClient.calls m) ->
  let t := MQTTClient.topic m suffix in
  let s := mqtt_payload_str payload in
  let r := mqtt_publish accepted suffix payload true m in
  MQTTClient.has_client (fst r) = true
  /\ MQTTClient.connected (fst r) = true
  /\ MQTTClient.topic_prefix (fst r) = MQTTClient.topic_prefix m
  /\ MQTTClient.last_state (fst r) = MQTTClient.retained (MQTTClient.calls (fst r))
  /\ (snd r = true -> MQTTClient.retained (MQTTClient.calls (fst r)) !! t = Some s)
  /\ (MQTTClient.retained (MQTTClient.calls m) !! t = Some s -> r = (m, true))
  /\ (MQTTClient.retained (MQTTClient.calls m) !! t <> Some s ->
      MQTTClient.calls (fst r)
      = (MQTTClient.calls m ++ [MQTTClient.CPublish t s true accepted])%list
      /\ snd r = accepted).
Proof.
  intros Hc Hn Hinv t s r. unfold r, MQTTClient.publish. rewrite Hc, Hn.
  cbn [negb orb andb]. fold t. fold s.
  destruct (bool_decide (MQTTClient.last_state m !! t = Some s)) eqn:Hd.
  - apply bool_decide_eq_true in Hd. cbn [fst snd].
    split; [exact Hc|]. split; [exact Hn|]. split; [reflexivity|]. split; [exact Hinv|].
    split; [intros _; rewrite <- Hinv; exact Hd|].
    split; [reflexivity|].
    intros H. exfalso. apply H. rewrite <- Hinv. exact Hd.
  - apply bool_decide_eq_false in Hd.
    destruct accepted;
      cbn [fst snd MQTTClient.has_client MQTTClient.connected MQTTClient.topic_prefix
             MQTTClient.last_state MQTTClient.calls MQTTClient.with_calls
             MQTTClient.with_last_state].
    + rewrite retained_snoc, Hinv.
      split; [exact Hc|]. split; [exact Hn|]. split; [reflexivity|]. split; [reflexivity|].
      split; [intros _; apply lookup_insert_eq|].
      split; [intros H; exfalso; apply Hd; rewrite Hinv; exact H|].
      intros _. split; reflexivity.
    + rewrite retained_snoc.
      split; [exact Hc|]. split; [exact Hn|]. split; [reflexivity|]. split; [exact Hinv|].
      split; [intros H; discriminate H|].
      split; [intros H; exfalso; apply Hd; rewrite Hinv; exact H|].
      intros _. split; reflexivity.
Qed.

Lemma publish_all_inv ops :
  forall m,
  MQTTClient.has_client m = true ->
  MQTTClient.connected m = true ->
  MQTTClient.last_state m = MQTTClient.retained (MQTTClient.calls m) ->
  let m' := MQTTClient.publish_all str_int str_float json_dumps ops m in
  MQTTClient.has_client m' = true
  /\ MQTTClient.connected m' = true
  /\ MQTTClient.topic_prefix m' = MQTTClient.topic_prefix m
  /\ MQTTClient.last_state m' = MQTTClient.retained (MQTTClient.calls m').
Proof.
  induction ops as [|[[a suffix] payload] ops IH]; intros m Hc Hn Hinv.
  - repeat split; assumption.
  - destruct (publish_retained_step a suffix payload m Hc Hn Hinv)
      as (H1 & H2 & H3 & H4 & _).
    destruct (IH _ H1 H2 H4) as (I1 & I2 & I3 & I4).
    cbn. repeat split; try assumption. rewrite <- H3. exact I3.
Qed.

End PublishProperties.

(** X18: skipping duplicates never leaves the broker behind.  On a
    connected client that starts with an empty cache, after any sequence
    of retained publishes, accepted by the broker or not, the cache holds
    exactly what the broker retains; a further retained publish calls the
    paho client exactly when its payload differs from what the broker
    retains for the topic, and whenever it returns [True] the broker
    retains that payload for the topic. *)
Theorem dedup_keeps_broker_current (str_int : Z -> string) (str_float : Q -> string)
    (json_dumps : list string -> string) (ops : list (bool * string * MQTTClient.Payload))
    (m : MQTTClient.Client) (accepted : bool) (suffix : string)
    (payload : MQTTClient.Payload) :
  MQTTClient.has_client m = true ->
  MQTTClient.connected m = true ->
  MQTTClient.last_state m = ∅ ->
  MQTTClient.calls m = [] ->
  let m' := MQTTClient.publish_all str_int str_float json_dumps ops m in
  let t := MQTTClient.topic m suffix in
  let s := MQTTClient.payload_str str_int str_float json_dumps payload in
  let r := MQTTClient.publish str_int str_float json_dumps accepted suffix payload true m' in
  MQTTClient.last_state m' = MQTTClient.retained (MQTTClient.calls m')
  /\ (snd r = true -> MQTTClient.retained (MQTTClient.calls (fst r)) !! t = Some s)
  /\ (MQTTClient.retained (MQTTClient.calls m') !! t = Some s -> r = (m', true))
  /\ (MQTTClient.retained (MQTTClient.calls m') !! t <> Some s ->
      MQTTClient.calls (fst r)
      = (MQTTClient.calls m' ++ [MQTTClient.CPublish t s true accepted])%list
      /\ snd r = accepted).
Proof.
  intros Hc Hn Hl Hcalls m' t s r.
  assert (Hinv : MQTTClient.last_state m = MQTTClient.retained (MQTTClient.calls m))
    by (rewrite Hl, Hcalls; reflexivity).
  destruct (publish_all_inv str_int str_float json_dumps ops m Hc Hn Hinv)
    as (I1 & I2 & I3 & I4).
  fold m' in I1, I2, I3, I4.
  destruct (publish_retained_step str_int str_float json_dumps accepted suffix payload m'
              I1 I2 I4) as (_ & _ & _ & _ & P1 & P2 & P3).
  assert (Ht : MQTTClient.topic m' suffix = t).
  { unfold t, MQTTClient.topic. rewrite I3. reflexivity. }
  rewrite Ht in P1, P2, P3.
  split; [exact I4|]. split; [exact P1|]. split; [exact P2|exact P3].
Qed.

Lemma dedup_keeps_broker_current_witness :
  let m0 := MQTTClient.with_connected true
              (MQTTClient.with_has_client true (MQTTClient.new_Client "media")) in
  let str := fun _ : Z => "" in
  let strf := fun _ : Q => "" in
  let dumps := fun _ : list string => "" in
  let m' := MQTTClient.publish_all str strf dumps
              [(true, "tv/on", MQTTClient.PValue (VBool true));
               (false, "availability", MQTTClient.PValue (VStr "online"))] m0 in
  MQTTClient.publish str strf dumps true "tv/on" (MQTTClient.PValue (VBool true)) true m'
  = (m', true)
  /\ MQTTClient.calls
       (fst (MQTTClient.publish str strf dumps true "availability"
               (MQTTClient.PValue (VStr "online")) true m'))
     = (MQTTClient.calls m'
        ++ [MQTTClient.CPublish "media/availability" "online" true true])%list.
Proof.
  cbv zeta. split.
  - destruct (dedup_keeps_broker_current (fun _ => "") (fun _ => "") (fun _ => "")
                [(true, "tv/on", MQTTClient.PValue (VBool true));
                 (false, "availability", MQTTClient.PValue (VStr "online"))]
                (MQTTClient.with_connected true
                   (MQTTClient.with_has_client true (MQTTClient.new_Client "media")))
                true "tv/on" (MQTTClient.PValue (VBool true))
                eq_refl eq_refl eq_refl eq_refl) as (_ & _ & H & _).
    apply H. vm_compute. reflexivity.
  - destruct (dedup_keeps_broker_current (fun _ => "") (fun _ => "") (fun _ => "")
                [(true, "tv/on", MQTTClient.PValue (VBool true));
                 (false, "availability", MQTTClient.PValue (VStr "online"))]
                (MQTTClient.with_connected true
                   (MQTTClient.with_has_client true (MQTTClient.new_Client "media")))
                true "availability" (MQTTClient.PValue (VStr "online"))
                eq_refl eq_refl eq_refl eq_refl) as (_ & _ & _ & H).
    apply H. vm_compute. discriminate.
Defined.

Lemma publish_duplicate (str_int : Z -> string) (str_float : Q -> string)
    (json_dumps : list string -> string) accepted suffix payload m :
  MQTTClient.has_client m = true ->
  MQTTClient.connected m = true ->
  MQTTClient.last_state m !! MQTTClient.topic m suffix
  = Some (MQTTClient.payload_str str_int str_float json_dumps payload) ->
  MQTTClient.publish str_int str_float json_dumps accepted suffix payload true m = (m, true).
Proof.
  intros Hc Hn Hl. unfold MQTTClient.publish. rewrite Hc, Hn. cbn [negb orb andb].
  rewrite bool_decide_eq_true_2 by exact Hl. reflexivity.
Qed.

(** X19: a new connection does not repeat the online status.  When the
    broker accepted the online status published on a connection, a
    disconnection followed by a new connection publishes nothing: the online status is held back as a duplicate of the
    last payload of its topic. *)
Theorem reconnect_does_not_republish_online (str_int : Z -> string) (str_float : Q -> string)
    (json_dumps : list string -> string) (m : MQTTClient.Client) (accepted : bool) :
  MQTTClient.has_client m = true ->
  let m1 := MQTTClient.on_connect str_int str_float json_dumps true true m in
  let m2 := MQTTClient.on_connect str_int str_float json_dumps true accepted
              (MQTTClient.on_disconnect m1) in
  MQTTClient.last_state m1 !! MQTTClient.topic m "availability" = Some "online"
  /\ MQTTClient.published m2 = MQTTClient.published m1
  /\ MQTTClient.connected m2 = true.
Proof.
  intros Hc m1 m2.
  assert (Hsub : forall (x : MQTTClient.Client) (p : string),
            List.filter MQTTClient.is_publish_call
              (map (fun kv : string * string =>
                      MQTTClient.CSubscribe (p ++ "/" ++ fst kv)) MQTTClient.COMMAND_TOPICS)
            = []).
  { intros _ p. induction MQTTClient.COMMAND_TOPICS as [|kv l IH]; [reflexivity|exact IH]. }
  assert (H1 : MQTTClient.last_state m1 !! MQTTClient.topic m "availability" = Some "online"
               /\ MQTTClient.has_client m1 = true
               /\ MQTTClient.topic_prefix m1 = MQTTClient.topic_prefix m).
  { unfold m1, MQTTClient.on_connect, MQTTClient.publish_availability, MQTTClient.publish.
    cbn [MQTTClient.has_client MQTTClient.connected MQTTClient.with_connected negb orb andb].
    rewrite Hc. cbn [negb orb].
    destruct (bool_decide _) eqn:Hd.
    - apply bool_decide_eq_true in Hd. cbn. rewrite Hc. repeat split. exact Hd.
    - cbn. rewrite Hc. repeat split. apply lookup_insert_eq. }
  destruct H1 as (L1 & C1 & P1).
  split; [exact L1|].
  clearbody m1.
  assert (E : MQTTClient.publish_availability str_int str_float json_dumps accepted true
                (MQTTClient.with_connected true (MQTTClient.on_disconnect m1))
              = MQTTClient.with_connected true (MQTTClient.on_disconnect m1)).
  { unfold MQTTClient.publish_availability.
    rewrite publish_duplicate; [reflexivity|exact C1|reflexivity|].
    unfold MQTTClient.topic in *. cbn. rewrite P1. exact L1. }
  unfold m2, MQTTClient.on_connect. cbv zeta. rewrite E.
  split; [|reflexivity].
  unfold MQTTClient.published.
  cbn [MQTTClient.calls MQTTClient.with_calls MQTTClient.with_connected
         MQTTClient.on_disconnect].
  rewrite List.filter_app. unfold MQTTClient.topic. rewrite (Hsub m). apply app_nil_r.
Qed.

Lemma reconnect_does_not_republish_online_witness :
  let m := MQTTClient.with_has_client true (MQTTClient.new_Client "media") in
  let m1 := MQTTClient.on_connect (fun _ => "") (fun _ => "") (fun _ => "") true true m in
  MQTTClient.published
    (MQTTClient.on_connect (fun _ => "") (fun _ => "") (fun _ => "") true true
       (MQTTClient.on_disconnect m1))
  = [MQTTClient.CPublish "media/availability" "online" true true].
Proof.
  cbv zeta.
  destruct (reconnect_does_not_republish_online (fun _ => "") (fun _ => "") (fun _ => "")
              (MQTTClient.with_has_client true (MQTTClient.new_Client "media")) true eq_refl)
    as (_ & H & _).
  rewrite H. reflexivity.
Defined.

(** ** The volume a polling step leaves in the state *)

Lemma get_volume_publish n m k v w : get_volume n (publish m k v w) = get_volume n w.
Proof. unfold get_volume. rewrite sources_publish. reflexivity. Qed.

(** Keywords other than [state] and [volume] leave the volume alone and
    make the mixer call no [set_volume]. *)
Lemma update_fields_keeps_volume env n rest :
  forall c w s,
  sources w !! n = Some s ->
  forallb (fun f => negb (String.eqb (field_key f) "state")
                    && negb (String.eqb (field_key f) "volume")) rest = true ->
  get_volume n (fst (update_fields (handle_source_state_change env) n rest c w))
  = Some (volume (st s))
  /\ set_volume_calls n (fst (update_fields (handle_source_state_change env) n rest c w))
     = set_volume_calls n w.
Proof.
  induction rest as [|f rest IH]; intros c w s Hs Hq.
  - cbn. unfold get_volume. rewrite Hs. split; reflexivity.
  - cbn [forallb] in Hq. apply andb_true_iff in Hq as [Hf Hq].
    apply andb_true_iff in Hf as [Hf1 Hf2].
    apply negb_true_iff in Hf1. apply negb_true_iff in Hf2.
    cbn [update_fields]. rewrite Hs.
    destruct (field_differs (st s) f).
    + rewrite handle_other_key by exact Hf1.
      set (w1 := alter_source (fun s => with_st (field_set (st s) f) s) n w).
      assert (H1 : sources (publish n (field_key f) (field_value f) w1) !! n
                   = Some (with_st (field_set (st s) f) s)).
      { rewrite sources_publish. unfold w1.
        exact (lookup_alter_source (fun s => with_st (field_set (st s) f) s) n w s Hs). }
      destruct (IH true _ _ H1 Hq) as [I1 I2]. rewrite I1, I2. split.
      * f_equal. destruct f; try reflexivity; discriminate.
      * rewrite set_volume_calls_publish. reflexivity.
    + exact (IH c w s Hs Hq).
Qed.

Lemma update_fields_sets_volume env n v rest c w s :
  sources w !! n = Some s ->
  forallb (fun f => negb (String.eqb (field_key f) "state")
                    && negb (String.eqb (field_key f) "volume")) rest = true ->
  get_volume n (fst (update_fields (handle_source_state_change env) n (FVolume v :: rest) c w))
  = Some v
  /\ set_volume_calls n
       (fst (update_fields (handle_source_state_change env) n (FVolume v :: rest) c w))
     = set_volume_calls n w.
Proof.
  intros Hs Hq. cbn [update_fields]. rewrite Hs.
  destruct (field_differs (st s) (FVolume v)) eqn:Hd.
  - rewrite handle_other_key by reflexivity.
    set (w1 := alter_source (fun s => with_st (field_set (st s) (FVolume v)) s) n w).
    assert (H1 : sources (publish n (field_key (FVolume v)) (field_value (FVolume v)) w1) !! n
                 = Some (with_st (field_set (st s) (FVolume v)) s)).
    { rewrite sources_publish. unfold w1.
      exact (lookup_alter_source (fun s => with_st (field_set (st s) (FVolume v)) s) n w s Hs). }
    destruct (update_fields_keeps_volume env n rest true _ _ H1 Hq) as [I1 I2].
    rewrite I1, I2. split; [reflexivity|].
    rewrite set_volume_calls_publish. reflexivity.
  - destruct (update_fields_keeps_volume env n rest c _ _ Hs Hq) as [I1 I2].
    rewrite I1, I2. split; [|reflexivity].
    cbn in Hd. apply negb_false_iff in Hd. apply Z.eqb_eq in Hd. rewrite Hd. reflexivity.
Qed.

Lemma update_fields_cons notify n f rest c w s :
  sources w !! n = Some s ->
  update_fields notify n (f :: rest) c w
  = if field_differs (st s) f
    then update_fields notify n rest true
           (notify n (field_key f) (field_value f)
              (alter_source (fun s => with_st (field_set (st s) f) s) n w))
    else update_fields notify n rest c w.
Proof. intros Hs. cbn [update_fields]. rewrite Hs. reflexivity. Qed.

Lemma get_volume_touch env n w :
  get_volume n (alter_source (fun s => with_st (touch (now env) (st s)) s) n w)
  = get_volume n w.
Proof.
  unfold get_volume, alter_source. cbn. rewrite lookup_alter. case_decide; [|congruence].
  destruct (sources w !! n); reflexivity.
Qed.

(** [_update_state(state=PLAYING, volume=v, ...)] on a source that was not
    playing and that the mixer holds for inactive: the notification of the
    state makes the mixer call [set_volume] with the default volume, and
    the keyword [volume] then stores [v]. *)
Lemma update_state_start_volume env n v rest w s :
  sources w !! n = Some s ->
  state (st s) <> PLAYING ->
  default false (was_active w !! n) = false ->
  forallb (fun f => negb (String.eqb (field_key f) "state")
                    && negb (String.eqb (field_key f) "volume")) rest = true ->
  let w' := update_state env n (FState PLAYING :: FVolume v :: rest) w in
  set_volume_calls n w'
  = (set_volume_calls n w ++ [ESetVolume n (default 15 (default_volumes w !! n))])%list
  /\ get_volume n w' = Some v.
Proof.
  intros Hs Hst Hwas Hq w'. unfold w', update_state, update_state_with.
  rewrite (update_fields_cons _ n (FState PLAYING) _ false w s Hs).
  assert (Hd : field_differs (st s) (FState PLAYING) = true).
  { cbn. destruct (state (st s)); try reflexivity. contradiction. }
  rewrite Hd.
  set (w1 := alter_source (fun s => with_st (field_set (st s) (FState PLAYING)) s) n w).
  assert (H1 : sources w1 !! n = Some (with_st (field_set (st s) (FState PLAYING)) s)).
  { unfold w1.
    exact (lookup_alter_source (fun s => with_st (field_set (st s) (FState PLAYING)) s)
             n w s Hs). }
  set (w2 := handle_source_state_change env n (field_key (FState PLAYING))
               (field_value (FState PLAYING)) w1).
  assert (C2 : set_volume_calls n w2
               = (set_volume_calls n w
                  ++ [ESetVolume n (default 15 (default_volumes w !! n))])%list).
  { unfold w2. cbn [field_key field_value state_value].
    rewrite handle_state_calls by (rewrite H1; eauto).
    change (was_active w1) with (was_active w). rewrite Hwas. reflexivity. }
  pose proof (handled_sources _ _ (handle_source_state_change_handled env n
                (field_key (FState PLAYING)) (field_value (FState PLAYING)) w1) n) as H2.
  fold w2 in H2. rewrite H1 in H2.
  inversion H2 as [x s2 _ Hx Hs2|]; subst x. symmetry in Hs2.
  destruct (update_fields_sets_volume env n v rest true w2 s2 Hs2 Hq) as [I1 I2].
  destruct (update_fields (handle_source_state_change env) n (FVolume v :: rest) true w2)
    as [w3 c3]. cbn [fst] in I1, I2.
  destruct c3; cbv beta iota; (split; [|rewrite ?get_volume_touch; exact I1]).
  - change (set_volume_calls n (alter_source (fun s => with_st (touch (now env) (st s)) s)
                                  n w3)) with (set_volume_calls n w3).
    rewrite I2. exact C2.
  - rewrite I2. exact C2.
Qed.

(** X20: what a polling step of AirPlay leaves as the volume when it
    finds the source newly playing.  The notification of the state makes
    the mixer call [set_volume] with the default volume of the source, and
    the same polling step then stores the volume that PulseAudio had
    reported to it before: this, not the default, is what [get_volume]
    returns afterwards. *)
Theorem poll_overwrites_applied_default (env : Env) (w : Mixer) (s : Source)
    (av : Z) (am : bool) (info : SinkInfo) :
  sources w !! "airplay" = Some s ->
  impl s = AirPlayImpl av am ->
  find_airplay_sink_input env = Some info ->
  default false (si_corked info) = false ->
  state (st s) <> PLAYING ->
  default false (was_active w !! "airplay") = false ->
  let w' := airplay_poll_state env "airplay" w in
  set_volume_calls "airplay" w'
  = (set_volume_calls "airplay" w
     ++ [ESetVolume "airplay" (default 15 (default_volumes w !! "airplay"))])%list
  /\ get_volume "airplay" w' = Some (default av (si_volume info)).
Proof.
  intros Hs Hi Hinfo Hcork Hst Hwas w'. unfold w', airplay_poll_state.
  rewrite Hs, Hi, Hinfo, Hcork.
  set (w0 := alter_source (with_sink_input_id (Some (si_id info))) "airplay" w).
  assert (H0 : sources w0 !! "airplay" = Some (with_sink_input_id (Some (si_id info)) s)).
  { unfold w0.
    exact (lookup_alter_source (with_sink_input_id (Some (si_id info))) "airplay" w s Hs). }
  exact (update_state_start_volume env "airplay" (default av (si_volume info))
           [FMuted (default false (si_muted info))] w0 _ H0 Hst Hwas eq_refl).
Qed.

Lemma poll_overwrites_applied_default_witness :
  set_volume_calls "airplay" (airplay_poll_state (env_ok 1) "airplay" mixer0)
  = [ESetVolume "airplay" 15]
  /\ get_volume "airplay" (airplay_poll_state (env_ok 1) "airplay" mixer0) = Some 40.
Proof.
  assert (H : exists s av am info,
            sources mixer0 !! "airplay" = Some s /\ impl s = AirPlayImpl av am
            /\ find_airplay_sink_input (env_ok 1) = Some info
            /\ default false (si_corked info) = false /\ state (st s) <> PLAYING
            /\ default av (si_volume info) = 40).
  { vm_compute. eexists. eexists. eexists. eexists.
    split; [reflexivity|]. split; [reflexivity|]. split; [reflexivity|].
    split; [reflexivity|]. split; [discriminate|reflexivity]. }
  destruct H as (s & av & am & info & Hs & Hi & Hinfo & Hc & Hst & Hv).
  destruct (poll_overwrites_applied_default (env_ok 1) mixer0 s av am info
              Hs Hi Hinfo Hc Hst eq_refl) as [A B].
  split; [exact A|]. rewrite B, Hv. reflexivity.
Defined.

(** ** Volume commands of the TV remote *)

(** A call of [set_volume] on a registered source: the call is recorded,
    and no slew job or thread is touched. *)
Lemma set_volume_direct env n v w :
  is_Some (sources w !! n) ->
  set_volume_calls n (fst (set_volume env n v w))
  = (set_volume_calls n w ++ [ESetVolume n v])%list
  /\ slew_state (fst (set_volume env n v w)) = slew_state w
  /\ threads (fst (set_volume env n v w)) = threads w.
Proof.
  intros Hs. destruct (set_volume_keeps env n v w Hs) as [_ _ S T _ (added & E & Q)].
  split; [|split; [exact S|exact T]].
  unfold set_volume_calls. rewrite E. cbn [trace emit with_trace].
  rewrite !List.filter_app, (filter_quiet_set_volume n added Q). cbn.
  rewrite String.eqb_refl. apply app_nil_r.
Qed.

Lemma tv_set_volume_success env n v w s t :
  sources w !! n = Some s ->
  impl s = TVImpl t ->
  snd (set_volume env n v w) = true ->
  get_volume n (fst (set_volume env n v w)) = Some (clamp 0 100 v).
Proof.
  intros Hs Hi. unfold set_volume. rewrite Hs, Hi.
  assert (Hs0 : is_Some (sources (emit (ESetVolume n v) w) !! n))
    by (cbn; rewrite Hs; eauto).
  set (w0 := emit (ESetVolume n v) w) in *. clearbody w0.
  unfold tv_set_volume.
  set (w1 := ensure_sink_input_id env "gst-launch" n w0).
  assert (Hs1 : is_Some (sources w1 !! n)) by apply is_Some_alter_source, Hs0.
  clearbody w1.
  destruct (sources w1 !! n) as [s1|] eqn:E1; [|discriminate].
  destruct (sink_input_id s1) as [id|]; [|discriminate].
  destruct (truthy (Some id)); [|discriminate].
  unfold set_sink_input_volume.
  destruct (pa_set_volume env id (clamp 0 100 (clamp 0 100 v))); [|discriminate].
  intros _. cbn [fst]. rewrite <- (clamp_idem v) at 2.
  apply get_volume_update_volume.
  unfold alter_tv. apply is_Some_alter_source. cbn. rewrite E1. eauto.
Qed.

(** X21: the volume keys of the TV remote.  [volume_up] and
    [volume_down] from CEC call [set_volume] of the television once, with
    the current volume moved by the configured step and held at 100 and 0,
    and do so directly: no slew job is created and no slew thread started,
    whatever the slew rate; when the television accepts the call, that is
    the volume it reports afterwards.  Another command name changes
    nothing. *)
Theorem cec_volume_keys (env : Env) (step : Z) (b : Bridge) (m : Mixer) (s : Source)
    (t : TVState) :
  mixer b = Some m ->
  sources m !! "tv" = Some s ->
  impl s = TVImpl t ->
  let cur := volume (st s) in
  (forall command target,
     (command = "volume_up" /\ target = Z.min 100 (cur + step))
     \/ (command = "volume_down" /\ target = Z.max 0 (cur - step)) ->
     exists m', mixer (on_cec_volume_command env step command b) = Some m'
       /\ m' = fst (set_volume env "tv" target m)
       /\ set_volume_calls "tv" m' = (set_volume_calls "tv" m ++ [ESetVolume "tv" target])%list
       /\ slew_state m' = slew_state m
       /\ threads m' = threads m
       /\ (snd (set_volume env "tv" target m) = true ->
           get_volume "tv" m' = Some (clamp 0 100 target)))
  /\ (forall command,
        command <> "volume_up" -> command <> "volume_down" -> command <> "mute_toggle" ->
        on_cec_volume_command env step command b = b).
Proof.
  intros Hm Hs Hi cur. split.
  - intros command target Hc.
    assert (Hv : get_volume "tv" m = Some cur) by (unfold get_volume; rewrite Hs; reflexivity).
    assert (E : on_cec_volume_command env step command b
                = with_mixer (Some (fst (set_volume env "tv" target m))) b).
    { unfold on_cec_volume_command, mixer_call, tv_volume_up, tv_volume_down.
      rewrite Hm, Hv. destruct Hc as [[-> ->]|[-> ->]]; reflexivity. }
    rewrite E. eexists. split; [reflexivity|]. split; [reflexivity|].
    destruct (set_volume_direct env "tv" target m) as (C & S & T); [rewrite Hs; eauto|].
    split; [exact C|]. split; [exact S|]. split; [exact T|].
    apply (tv_set_volume_success env "tv" target m s t Hs Hi).
  - intros command H1 H2 H3. unfold on_cec_volume_command. rewrite Hm.
    apply String.eqb_neq in H1, H2, H3. rewrite H1, H2, H3. reflexivity.
Qed.

Lemma cec_volume_keys_witness :
  (get_volume "tv" <$> mixer (on_cec_volume_command (env_ok 1) 5 "volume_up" bridge0))
  = Some (Some 100)
  /\ (get_volume "tv" <$> mixer (on_cec_volume_command (env_ok 1) 5 "volume_down" bridge0))
     = Some (Some 95).
Proof.
  assert (H : exists s t, sources mixer0 !! "tv" = Some s /\ impl s = TVImpl t
                          /\ volume (st s) = 100).
  { vm_compute. eexists. eexists. split; [reflexivity|]. split; reflexivity. }
  destruct H as (s & t & Hs & Hi & Hv).
  destruct (cec_volume_keys (env_ok 1) 5 bridge0 mixer0 s t eq_refl Hs Hi) as [K _].
  split.
  - destruct (K "volume_up" (Z.min 100 (volume (st s) + 5)) (or_introl (conj eq_refl eq_refl)))
      as (m' & E & Em & _ & _ & _ & G).
    rewrite E. cbn. f_equal. rewrite G; [rewrite Hv; reflexivity|].
    rewrite Hv. reflexivity.
  - destruct (K "volume_down" (Z.max 0 (volume (st s) - 5))
                (or_intror (conj eq_refl eq_refl)))
      as (m' & E & Em & _ & _ & _ & G).
    rewrite E. cbn. f_equal. rewrite G; [rewrite Hv; reflexivity|].
    rewrite Hv. reflexivity.
Defined.

(** ** Muting a source *)






